(** * passkit: the pass Template of [src/template.js]

    A shallow embedding of the [Template] class: its constructor, the ten
    dual-mode field accessors, [validateColorValue], [keys], [createPass]
    and the static [load], followed by the properties of the
    specification that concern them.

    JavaScript strings are modelled by [string]; a character stands for
    the code unit of the same number (0..255).  Objects that the class
    mutates or shares (a Template, its image collection) live in an
    explicit heap and are denoted by locations; immutable data (JSON
    values, URL instances) is carried by value. *)

From stdpp Require Import gmap strings list fin_maps.
From Stdlib Require Import ZArith Ascii String DecimalString Lia.

Open Scope string_scope.
Set Warnings "-register-all".

(** ** Characters and strings *)

Module Chars.

(** [\d] of a regular expression: the ten ASCII digits. *)
Definition is_digit (c : ascii) : bool :=
  (48 <=? nat_of_ascii c)%nat && (nat_of_ascii c <=? 57)%nat.

(** [\s] of a regular expression, on the code units below 256: TAB, LF,
    VT, FF, CR, SPACE and NO-BREAK SPACE. *)
Definition is_space (c : ascii) : bool :=
  let n := nat_of_ascii c in
  ((9 <=? n)%nat && (n <=? 13)%nat) || (n =? 32)%nat || (n =? 160)%nat.

Fixpoint all_chars (p : ascii -> bool) (s : string) : bool :=
  match s with
  | EmptyString => true
  | String c s' => p c && all_chars p s'
  end.

(** The first character of [s], if any, does not satisfy [p]. *)
Definition stops (p : ascii -> bool) (s : string) : bool :=
  match s with
  | EmptyString => true
  | String c _ => negb (p c)
  end.

(** Greedy [p*]: the rest of [s] after its longest prefix in [p]. *)
Fixpoint skip (p : ascii -> bool) (s : string) : string :=
  match s with
  | String c s' => if p c then skip p s' else s
  | EmptyString => EmptyString
  end.

(** Greedy [p{0,n}]: the longest prefix of at most [n] characters in
    [p], and the rest. *)
Fixpoint take_upto (p : ascii -> bool) (n : nat) (s : string) : string * string :=
  match n, s with
  | S n', String c s' =>
      if p c then let '(d, r) := take_upto p n' s' in (String c d, r)
      else (EmptyString, s)
  | _, _ => (EmptyString, s)
  end.

(** [s] without the literal prefix [p], when it starts with it. *)
Fixpoint strip_prefix (p s : string) : option string :=
  match p, s with
  | EmptyString, _ => Some s
  | String a p', String b s' => if Ascii.eqb a b then strip_prefix p' s' else None
  | String _ _, EmptyString => None
  end.

Definition digit_value (c : ascii) : Z := Z.of_nat (nat_of_ascii c) - 48.

(** The value of a run of decimal digits, most significant first. *)
Fixpoint decimal_from (acc : Z) (s : string) : Z :=
  match s with
  | EmptyString => acc
  | String c s' => decimal_from (10 * acc + digit_value c) s'
  end.

Definition decimal (s : string) : Z := decimal_from 0 s.

(** The longest prefix of [s] in [p], and the rest. *)
Fixpoint span (p : ascii -> bool) (s : string) : string * string :=
  match s with
  | String c s' =>
      if p c then let '(d, r) := span p s' in (String c d, r) else (EmptyString, s)
  | EmptyString => (EmptyString, EmptyString)
  end.

(** The part of [s] up to and including its first colon; all of [s]
    when it has none. *)
Fixpoint upto_colon (s : string) : string :=
  match s with
  | EmptyString => EmptyString
  | String c s' =>
      if Ascii.eqb c ":" then String c EmptyString else String c (upto_colon s')
  end.

End Chars.

(** ** Values and errors *)

(** An instance of the host's [URL] class, by its serialization [href],
    which is what [toString()] returns.  The serialization of a URL
    begins with its scheme and a colon, and a scheme holds no colon, so
    the member [protocol], the scheme with the colon, is the part of
    [href] up to and including its first colon. *)
Record URL := mkURL { href : string }.

Definition protocol (u : URL) : string := Chars.upto_colon (href u).

(** The values that reach the Template: JSON data and [URL] instances.
    A Number is carried by its canonical rendering (what [String(n)]
    gives), an Array by its elements and a plain object by its own
    properties in enumeration order. *)
Inductive value :=
| VUndefined
| VNull
| VBool (b : bool)
| VNum (rendering : string)
| VStr (s : string)
| VArr (elements : list value)
| VObj (props : list (string * value))
| VURL (u : URL).

Inductive error :=
| Error (message : string)   (* [new Error(message)] thrown by this module *)
| TypeError                 (* raised by the engine or by [new URL] *)
| HostError (what : string). (* raised by the file system, [JSON.parse] or the image loader *)

Inductive completion (A : Type) :=
| Normal (a : A)
| Throw (e : error).
Arguments Normal {A} a.
Arguments Throw {A} e.

Module JS.

(** [props[k]] on own properties (keys of an object are distinct). *)
Fixpoint own_get (props : list (string * value)) (k : string) : option value :=
  match props with
  | [] => None
  | (k', v) :: rest => if String.eqb k' k then Some v else own_get rest k
  end.

Definition own_has (props : list (string * value)) (k : string) : bool :=
  match own_get props k with Some _ => true | None => false end.

(** The property names of [Object.prototype]. *)
Definition Object_prototype_names : list string :=
  [ "constructor"; "__defineGetter__"; "__defineSetter__"; "hasOwnProperty";
    "__lookupGetter__"; "__lookupSetter__"; "isPrototypeOf";
    "propertyIsEnumerable"; "toString"; "valueOf"; "__proto__";
    "toLocaleString" ].

Definition string_in (k : string) (l : list string) : bool :=
  existsb (String.eqb k) l.

Fixpoint join (sep : string) (l : list string) : string :=
  match l with
  | [] => ""
  | [x] => x
  | x :: rest => x +:+ sep +:+ join sep rest
  end.

(** [ToString]: a primitive renders itself; an Array joins its elements
    with commas ([null] and [undefined] render empty); a plain object
    goes through [toString] then [valueOf], where an own property of
    that name (never callable in JSON data) hides the inherited
    method; a URL serializes to its [href]. *)
Fixpoint ToString (v : value) : completion string :=
  match v with
  | VUndefined => Normal "undefined"
  | VNull => Normal "null"
  | VBool true => Normal "true"
  | VBool false => Normal "false"
  | VNum r => Normal r
  | VStr s => Normal s
  | VArr l =>
      match
        (fix elems (l : list value) : completion (list string) :=
           match l with
           | [] => Normal []
           | x :: rest =>
               match (match x with
                      | VUndefined | VNull => Normal ""
                      | _ => ToString x
                      end) with
               | Throw e => Throw e
               | Normal s =>
                   match elems rest with
                   | Throw e => Throw e
                   | Normal ss => Normal (s :: ss)
                   end
               end
           end) l
      with
      | Normal ss => Normal (join "," ss)
      | Throw e => Throw e
      end
  | VObj props =>
      if own_has props "toString" then Throw TypeError
      else Normal "[object Object]"
  | VURL u => Normal (href u)
  end.

Definition ToBoolean (v : value) : bool :=
  match v with
  | VUndefined | VNull => false
  | VBool b => b
  | VNum r => negb (String.eqb r "0") && negb (String.eqb r "NaN")
  | VStr s => negb (String.eqb s "")
  | VArr _ | VObj _ | VURL _ => true
  end.

(** [typeof v === 'boolean'] *)
Definition is_boolean (v : value) : bool :=
  match v with VBool _ => true | _ => false end.

(** [parseInt(s, 10)]: leading white space, an optional sign, then the
    longest run of digits; [None] is NaN. *)
Definition parseInt10 (s : string) : option Z :=
  let s := Chars.skip Chars.is_space s in
  let '(neg, s) :=
    match s with
    | String c s' =>
        if Ascii.eqb c "-" then (true, s')
        else if Ascii.eqb c "+" then (false, s')
        else (false, s)
    | EmptyString => (false, s)
    end in
  match Chars.span Chars.is_digit s with
  | (EmptyString, _) => None
  | (d, _) => Some (if neg then - Chars.decimal d else Chars.decimal d)%Z
  end.

End JS.

(** ** The heap and the monad of the embedding *)

Definition loc := nat.

(** Modelled from the spec: the image collection of [./lib/images], which
    is not part of the sources at hand.  A collection maps the image
    variants it holds to their files; [new PassImages()] creates an empty
    one. *)
Definition PassImages := list (string * string).
Definition PassImages_new : PassImages := [].

(** The own properties of a Template instance.  [keysPath] and
    [password] are [VUndefined], and [images] is [None], until they are
    assigned. *)
Record Template := mkTemplate {
  style : string;
  fields : gmap string value;
  keysPath : value;
  password : value;
  images : option loc
}.

Inductive object :=
| OTemplate (t : Template)
| OImages (i : PassImages).

Record heap := mkHeap { store : gmap loc object; next : loc }.

(** Modelled from the spec: the Pass Producer of [./pass], which is not
    part of the sources at hand.  [new Pass(template, fields, images)]
    receives a reference to the Template, the merged field mapping and a
    reference to the image collection; the model keeps these three. *)
Record Pass := new_Pass {
  pass_template : loc;
  pass_fields : gmap string value;
  pass_images : option loc
}.

(** A computation reads and writes the heap and either returns or
    throws. *)
Definition M (A : Type) : Type := heap -> completion A * heap.

Definition ret {A} (a : A) : M A := fun h => (Normal a, h).
Definition throw {A} (e : error) : M A := fun h => (Throw e, h).
Definition lift {A} (c : completion A) : M A := fun h => (c, h).

Definition bind {A B} (m : M A) (k : A -> M B) : M B :=
  fun h =>
    match m h with
    | (Normal a, h') => k a h'
    | (Throw e, h') => (Throw e, h')
    end.

(** [try { m } catch (_) { handler }] *)
Definition try_catch {A} (m : M A) (handler : error -> M A) : M A :=
  fun h =>
    match m h with
    | (Normal a, h') => (Normal a, h')
    | (Throw e, h') => handler e h'
    end.

Notation "x <- m ;; k" := (bind m (fun x => k))
  (at level 100, m at next level, right associativity).
Notation "m ;; k" := (bind m (fun _ => k))
  (at level 100, right associativity).

Definition alloc (o : object) : M loc :=
  fun h => (Normal (next h), mkHeap (<[next h := o]> (store h)) (S (next h))).

(** Reading [this] as a Template; any other receiver is a TypeError. *)
Definition read_this (this : loc) : M Template :=
  fun h =>
    match store h !! this with
    | Some (OTemplate t) => (Normal t, h)
    | _ => (Throw TypeError, h)
    end.

Definition update_this (this : loc) (f : Template -> Template) : M unit :=
  t <- read_this this ;;
  fun h => (Normal tt, mkHeap (<[this := OTemplate (f t)]> (store h)) (next h)).

Definition set_field (k : string) (v : value) (t : Template) : Template :=
  mkTemplate (style t) (<[k := v]> (fields t)) (keysPath t) (password t) (images t).
Definition set_keysPath (v : value) (t : Template) : Template :=
  mkTemplate (style t) (fields t) v (password t) (images t).
Definition set_password (v : value) (t : Template) : Template :=
  mkTemplate (style t) (fields t) (keysPath t) v (images t).
Definition set_images (l : loc) (t : Template) : Template :=
  mkTemplate (style t) (fields t) (keysPath t) (password t) (Some l).

Fixpoint forEach {A} (l : list A) (f : A -> M unit) : M unit :=
  match l with
  | [] => ret tt
  | x :: rest => f x ;; forEach rest f
  end.

(** ** Object helpers *)

Module Obj.

Definition index_key (i : nat) : string :=
  NilEmpty.string_of_uint (Nat.to_uint i).

Fixpoint indexed {A} (f : A -> value) (i : nat) (l : list A) : list (string * value) :=
  match l with
  | [] => []
  | x :: rest => (index_key i, f x) :: indexed f (S i) rest
  end.

Fixpoint chars (s : string) : list ascii :=
  match s with
  | EmptyString => []
  | String c s' => c :: chars s'
  end.

(** The own enumerable string-keyed properties of a value, in
    enumeration order: what [Object.assign] copies from a source. *)
Definition own_enumerable (v : value) : list (string * value) :=
  match v with
  | VObj props => props
  | VArr l => indexed (fun x => x) 0 l
  | VStr s => indexed (fun c => VStr (String c "")) 0 (chars s)
  | VUndefined | VNull | VBool _ | VNum _ | VURL _ => []
  end.

(** [Object.entries(v)]: as above, but [null] and [undefined] cannot be
    converted to an object. *)
Definition entries (v : value) : completion (list (string * value)) :=
  match v with
  | VUndefined | VNull => Throw TypeError
  | _ => Normal (own_enumerable v)
  end.

(** What [target[k] = v] does to the own properties of a plain object:
    the key [__proto__] goes to the setter that [Object.prototype]
    carries, which creates no property (it changes the prototype of the
    target when [v] is an object or [null]); every other key becomes an
    own data property. *)
Definition write (target : gmap string value) (k : string) (v : value)
  : gmap string value :=
  if String.eqb k "__proto__" then target else <[k := v]> target.

(** [Object.assign(target, source)] on a plain target given by its own
    properties: every property of the source is written in turn with
    [target[k] = v]. *)
Definition assign (target : gmap string value) (source : list (string * value))
  : gmap string value :=
  foldl (fun acc kv => write acc kv.1 kv.2) target source.

(** A default parameter value [= {}] applies to [undefined]. *)
Definition default_empty (v : value) : value :=
  match v with VUndefined => VObj [] | _ => v end.

(** [args[i]], [undefined] when absent. *)
Definition arg (i : nat) (args : list value) : value := nth i args VUndefined.

End Obj.

(** ** The colour pattern

    [/^rgb\(\s*(\d{1,3}),\s*(\d{1,3}),\s*(\d{1,3})\s*\)$/].  In this
    pattern every repetition is followed by something its own class
    excludes, so the greedy left-to-right reading below finds the one
    possible match. *)

Module ColorRegex.

Definition is_empty (s : string) : bool :=
  match s with EmptyString => true | _ => false end.

(** [(\d{1,3})]: one to three digits, as many as there are. *)
Definition group (s : string) : option (string * string) :=
  match Chars.take_upto Chars.is_digit 3 s with
  | (EmptyString, _) => None
  | (d, rest) => Some (d, rest)
  end.

(** [exec(s)]: the array of the whole match and the three groups, or
    [None] for [null]. *)
Definition exec (s : string) : option (list string) :=
  match Chars.strip_prefix "rgb(" s with
  | None => None
  | Some s1 =>
  match group (Chars.skip Chars.is_space s1) with
  | None => None
  | Some (r, s2) =>
  match Chars.strip_prefix "," s2 with
  | None => None
  | Some s3 =>
  match group (Chars.skip Chars.is_space s3) with
  | None => None
  | Some (g, s4) =>
  match Chars.strip_prefix "," s4 with
  | None => None
  | Some s5 =>
  match group (Chars.skip Chars.is_space s5) with
  | None => None
  | Some (b, s6) =>
  match Chars.strip_prefix ")" (Chars.skip Chars.is_space s6) with
  | None => None
  | Some s7 => if is_empty s7 then Some [s; r; g; b] else None
  end end end end end end end.

End ColorRegex.

(** [str.replace(/^pass\./, '')] *)
Definition strip_pass_prefix (s : string) : string :=
  match Chars.strip_prefix "pass." s with
  | Some rest => rest
  | None => s
  end.

(** ** The Template class *)

(** The callback of [.some] in [validateColorValue], run over the parsed
    components in order: it throws at the first bad one and answers
    [false] for the others, so [.some] visits them all. *)
Fixpoint check_components (shown : string) (vs : list (option Z)) : completion unit :=
  match vs with
  | [] => Normal tt
  | v :: rest =>
      match v with
      | None => Throw (Error ("Invalid color value " +:+ shown))
      | Some n =>
          if ((n <? 0) || (255 <? n))%Z
          then Throw (Error ("Invalid color value " +:+ shown))
          else check_components shown rest
      end
  end.

(** [static validateColorValue(value)].  [exec] converts its argument to
    a string; on [null], [.slice] is a TypeError. *)
Definition validateColorValue (v : value) : completion unit :=
  match JS.ToString v with
  | Throw e => Throw e
  | Normal s =>
      match ColorRegex.exec s with
      | None => Throw TypeError
      | Some m => check_components s (map JS.parseInt10 (skipn 1 m))
      end
  end.

(** What a dual-mode accessor returns: the Template itself after a store,
    the stored value on a read. *)
Inductive result :=
| This (this : loc)
| Value (v : value).

(** The shape shared by the ten accessors: with exactly one argument,
    [check] it (which may throw), store what [check] yields under [name]
    and return [this]; otherwise read [this.fields[name]]. *)
Definition accessor (name : string) (check : value -> completion value)
    (this : loc) (args : list value) : M result :=
  match args with
  | [v] =>
      stored <- lift (check v) ;;
      update_this this (set_field name stored) ;;
      ret (This this)
  | _ =>
      t <- read_this this ;;
      ret (Value (default VUndefined (fields t !! name)))
  end.

Definition unchecked (v : value) : completion value := Normal v.

Definition check_color (v : value) : completion value :=
  match validateColorValue v with
  | Normal _ => Normal v
  | Throw e => Throw e
  end.

Definition check_boolean (v : value) : completion value :=
  if JS.is_boolean v then Normal v
  else Throw (Error "suppressStripShine value must be a boolean!").

(** What [fs.stat] resolves to: the two tests [load] makes. *)
Record Stats := mkStats { isDirectory : bool; isFile : bool }.

(** The environment the class runs in, as the answers it gives: the
    Style Registry [PASS_STYLES] of [./constants], in its order; the
    parser behind [new URL(input)] ([None] when the input is not an
    absolute URL); [fs.stat] and [fs.readFile] (the file's text);
    [JSON.parse]; [path.join]; the image collection's
    [loadFromDirectory], which fills a collection from a directory; and
    the property names of [Array.prototype] and [URL.prototype]. *)
Class Host := mkHost {
  PASS_STYLES : list string;
  URL_parse : string -> option URL;
  statAsync : string -> completion Stats;
  readFileAsync : string -> completion string;
  JSON_parse : string -> completion value;
  path_join : string -> string -> string;
  loadFromDirectory : string -> PassImages -> completion PassImages;
  Array_prototype_names : list string;
  URL_prototype_names : list string
}.

Section Template.

Context `{Host}.

(** [new URL(v)] *)
Definition new_URL (v : value) : completion URL :=
  match JS.ToString v with
  | Throw e => Throw e
  | Normal s =>
      match URL_parse s with
      | Some u => Normal u
      | None => Throw TypeError
      end
  end.

(** [v instanceof URL ? v : new URL(v)] *)
Definition as_URL (v : value) : completion URL :=
  match v with
  | VURL u => Normal u
  | _ => new_URL v
  end.

Definition check_url (v : value) : completion value :=
  match as_URL v with
  | Throw e => Throw e
  | Normal url =>
      if negb (String.eqb (protocol url) "https:")
      then Throw (Error "webServiceURL must be on HTTPS!")
      else Normal (VStr (href url))
  end.

Definition passTypeIdentifier := accessor "passTypeIdentifier" unchecked.
Definition teamIdentifier := accessor "teamIdentifier" unchecked.
Definition backgroundColor := accessor "backgroundColor" unchecked.
Definition foregroundColor := accessor "foregroundColor" check_color.
Definition labelColor := accessor "labelColor" check_color.
Definition logoText := accessor "logoText" unchecked.
Definition organizationName := accessor "organizationName" unchecked.
Definition groupingIdentifier := accessor "groupingIdentifier" unchecked.
Definition suppressStripShine := accessor "suppressStripShine" check_boolean.
Definition webServiceURL := accessor "webServiceURL" check_url.

(** [keys(path, password)] *)
Definition keys (this : loc) (args : list value) : M unit :=
  let path := Obj.arg 0 args in
  let pw := Obj.arg 1 args in
  (if JS.ToBoolean path then update_this this (set_keysPath path) else ret tt) ;;
  (if JS.ToBoolean pw then update_this this (set_password pw) else ret tt).

(** [createPass(fields = {})].  [Object.assign({}, this.fields, fields)]
    builds a fresh object: first a copy of [this.fields], then the
    properties of [fields] written over it. *)
Definition createPass (this : loc) (args : list value) : M Pass :=
  let overrides := Obj.default_empty (Obj.arg 0 args) in
  t <- read_this this ;;
  ret (new_Pass this
         (Obj.assign (Obj.assign ∅ (map_to_list (fields t)))
                     (Obj.own_enumerable overrides))
         (images t)).

(** The names of the ten field accessors. *)
Definition field_names : list string :=
  [ "passTypeIdentifier"; "teamIdentifier"; "backgroundColor";
    "foregroundColor"; "labelColor"; "logoText"; "organizationName";
    "groupingIdentifier"; "suppressStripShine"; "webServiceURL" ].

Definition accessor_of (name : string) : option (loc -> list value -> M result) :=
  if String.eqb name "passTypeIdentifier" then Some passTypeIdentifier
  else if String.eqb name "teamIdentifier" then Some teamIdentifier
  else if String.eqb name "backgroundColor" then Some backgroundColor
  else if String.eqb name "foregroundColor" then Some foregroundColor
  else if String.eqb name "labelColor" then Some labelColor
  else if String.eqb name "logoText" then Some logoText
  else if String.eqb name "organizationName" then Some organizationName
  else if String.eqb name "groupingIdentifier" then Some groupingIdentifier
  else if String.eqb name "suppressStripShine" then Some suppressStripShine
  else if String.eqb name "webServiceURL" then Some webServiceURL
  else None.

(** [this[field]] on an instance under construction, when
    [typeof this[field] === 'function']: the callable, as the effect of
    calling it on [this] with the given arguments; [None] for every
    other property, present or not.  The instance's own properties
    ([style], [fields], [keysPath]) hold data; its methods come from
    [Template.prototype] (the accessors, [keys], [createPass] and
    [constructor], the class itself, which cannot be called without
    [new]) and from [Object.prototype] ([__defineGetter__] and
    [__defineSetter__] reject a missing function argument; the lookups
    by property key convert their argument to a key; the others do
    nothing to the instance). *)
Definition callable_member (field : string) : option (loc -> list value -> M unit) :=
  match accessor_of field with
  | Some f => Some (fun this args => f this args ;; ret tt)
  | None =>
      if String.eqb field "keys" then Some keys
      else if String.eqb field "createPass"
      then Some (fun this args => createPass this args ;; ret tt)
      else if JS.string_in field ["constructor"; "__defineGetter__"; "__defineSetter__"]
      then Some (fun _ _ => throw TypeError)
      else if JS.string_in field
                ["hasOwnProperty"; "propertyIsEnumerable";
                 "__lookupGetter__"; "__lookupSetter__"]
      then Some (fun _ args => lift (JS.ToString (Obj.arg 0 args)) ;; ret tt)
      else if JS.string_in field
                ["isPrototypeOf"; "toString"; "valueOf"; "toLocaleString"]
      then Some (fun _ _ => ret tt)
      else None
  end.

(** The body of the [forEach] callback in the constructor. *)
Definition apply_field (this : loc) (entry : string * value) : M unit :=
  match callable_member entry.1 with
  | Some f => f this [entry.2]
  | None => ret tt
  end.

(** [new Template(style, fields = {})], returning the new instance. *)
Definition Template_new (style : string) (fieldsArg : value) : M loc :=
  if negb (JS.string_in style PASS_STYLES)
  then throw (Error ("Unsupported pass style " +:+ style))
  else
    this <- alloc (OTemplate (mkTemplate style ∅ VUndefined VUndefined None)) ;;
    entries <- lift (Obj.entries (Obj.default_empty fieldsArg)) ;;
    forEach entries (apply_field this) ;;
    update_this this (set_keysPath (VStr "keys")) ;;
    img <- alloc (OImages PassImages_new) ;;
    update_this this (set_images img) ;;
    ret this.

(** *** Loading a Template from a bundle directory *)

Definition is_index (k : string) (len : nat) : bool :=
  existsb (fun i => String.eqb (Obj.index_key i) k) (seq 0 len).

(** [k in v]: own and inherited properties of an object; a TypeError on
    a primitive. *)
Definition has_property (v : value) (k : string) : completion bool :=
  match v with
  | VObj props =>
      Normal (JS.own_has props k || JS.string_in k JS.Object_prototype_names)
  | VArr l =>
      Normal (is_index k (List.length l) || String.eqb k "length"
              || JS.string_in k Array_prototype_names
              || JS.string_in k JS.Object_prototype_names)
  | VURL _ =>
      Normal (JS.string_in k URL_prototype_names
              || JS.string_in k JS.Object_prototype_names)
  | VUndefined | VNull | VBool _ | VNum _ | VStr _ => Throw TypeError
  end.

(** [styles.some(t => { if (t in passJson) { type = t; return true; }
    return false; })], giving the [type] it sets, or [None] when it
    answers [false]. *)
Fixpoint some_style (passJson : value) (styles : list string)
  : completion (option string) :=
  match styles with
  | [] => Normal None
  | t :: rest =>
      match has_property passJson t with
      | Throw e => Throw e
      | Normal true => Normal (Some t)
      | Normal false => some_style passJson rest
      end
  end.

Definition detect_style (passJson : value) : completion string :=
  match some_style passJson PASS_STYLES with
  | Throw e => Throw e
  | Normal None => Throw (Error "Unknown pass style!")
  | Normal (Some type) => Normal type
  end.

(** [passJson.passTypeIdentifier]: the own data property ([undefined]
    when there is none; no prototype carries one). *)
Definition get_passTypeIdentifier (passJson : value) : value :=
  match passJson with
  | VObj props => default VUndefined (JS.own_get props "passTypeIdentifier")
  | _ => VUndefined
  end.

(** [typeIdentifier.replace(...)] followed by [.pem]: only a string has
    a [replace] method. *)
Definition key_name (typeIdentifier : value) : completion string :=
  match typeIdentifier with
  | VStr s => Normal (strip_pass_prefix s +:+ ".pem")
  | _ => Throw TypeError
  end.

(** [template.images.loadFromDirectory(folderPath)] *)
Definition images_loadFromDirectory (template : loc) (folderPath : string) : M unit :=
  t <- read_this template ;;
  match images t with
  | None => throw TypeError
  | Some img =>
      fun h =>
        match store h !! img with
        | Some (OImages i) =>
            match loadFromDirectory folderPath i with
            | Normal i' =>
                (Normal tt, mkHeap (<[img := OImages i']> (store h)) (next h))
            | Throw e => (Throw e, h)
            end
        | _ => (Throw TypeError, h)
        end
  end.

(** Steps 1 to 5 of [load], up to and including the loading of the
    images: the parsed definition and the Template built from it. *)
Definition load_bundle (folderPath : string) : M (value * loc) :=
  stats <- lift (statAsync folderPath) ;;
  if negb (isDirectory stats)
  then throw (Error ("Path " +:+ folderPath +:+ " must be a directory!"))
  else
    content <- lift (readFileAsync (path_join folderPath "pass.json")) ;;
    passJson <- lift (JSON_parse content) ;;
    type <- lift (detect_style passJson) ;;
    template <- Template_new type passJson ;;
    images_loadFromDirectory template folderPath ;;
    ret (passJson, template).

(** The guarded key probe: [try { ... } catch (_) {}]. *)
Definition probe_key (template : loc) (folderPath keyName : string)
    (keyPassword : value) : M unit :=
  try_catch
    (keyStat <- lift (statAsync keyName) ;;
     if isFile keyStat then keys template [VStr folderPath; keyPassword]
     else ret tt)
    (fun _ => ret tt).

(** [static async load(folderPath, keyPassword)]; the awaited steps run
    one after the other. *)
Definition load (folderPath : string) (keyPassword : value) : M loc :=
  stats <- lift (statAsync folderPath) ;;
  if negb (isDirectory stats)
  then throw (Error ("Path " +:+ folderPath +:+ " must be a directory!"))
  else
    content <- lift (readFileAsync (path_join folderPath "pass.json")) ;;
    passJson <- lift (JSON_parse content) ;;
    type <- lift (detect_style passJson) ;;
    template <- Template_new type passJson ;;
    images_loadFromDirectory template folderPath ;;
    keyName <- lift (key_name (get_passTypeIdentifier passJson)) ;;
    probe_key template folderPath keyName keyPassword ;;
    ret template.

(** *** The class as a whole: validity of stored fields *)

(** The check each accessor makes before it stores, by field name. *)
Definition validator_of (name : string) : option (value -> completion value) :=
  if String.eqb name "foregroundColor" then Some check_color
  else if String.eqb name "labelColor" then Some check_color
  else if String.eqb name "suppressStripShine" then Some check_boolean
  else if String.eqb name "webServiceURL" then Some check_url
  else if JS.string_in name field_names then Some unchecked
  else None.

(** [x] is what the validator of field [name] lets through for some
    input. *)
Definition passed_validator (name : string) (x : value) : Prop :=
  exists check v, validator_of name = Some check /\ check v = Normal x.

Definition valid_fields (f : gmap string value) : Prop :=
  forall name x, f !! name = Some x -> passed_validator name x.

Definition https_url_string (x : value) : Prop :=
  exists rest, x = VStr ("https:" +:+ rest).

Definition valid_heap (h : heap) : Prop :=
  forall l t, store h !! l = Some (OTemplate t) -> valid_fields (fields t).

Definition valid_object (o : object) : Prop :=
  match o with
  | OTemplate t => valid_fields (fields t)
  | OImages _ => True
  end.

(** A computation that keeps a property of the heap, however it ends. *)
Definition keeps (P : heap -> Prop) {A} (m : M A) : Prop :=
  forall h, P h -> P (m h).2.

(** A computation that keeps the stored fields of every Template valid. *)
Definition preserves {A} (m : M A) : Prop := keeps valid_heap m.

(** [this] is a Template of style [s]. *)
Definition has_style (this : loc) (s : string) (h : heap) : Prop :=
  exists t, store h !! this = Some (OTemplate t) /\ style t = s.

(** What the accessor of field [name] stores when given [v]: the
    validator's result; [None] when there is no such accessor or the
    validator throws. *)
Definition stored_form (name : string) (v : value) : option value :=
  match validator_of name with
  | Some check =>
      match check v with
      | Normal x => Some x
      | Throw _ => None
      end
  | None => None
  end.

(** The properties of a Template under construction that the calls made
    on its behalf keep: it stays a Template of its style, and nothing is
    allocated. *)
Definition under_construction (this : loc) (s : string) (n : loc) (h : heap) : Prop :=
  has_style this s h /\ next h = n.

(** Whether the probe finds the key: [stat] answers, and with a regular
    file. *)
Definition key_found (keyName : string) : bool :=
  match statAsync keyName with
  | Normal keyStat => isFile keyStat
  | Throw _ => false
  end.

(** The effect of [keys(path, password)] on a Template. *)
Definition configure_keys (path pw : value) (t : Template) : Template :=
  let t1 := if JS.ToBoolean path then set_keysPath path t else t in
  if JS.ToBoolean pw then set_password pw t1 else t1.

Definition set_fields (f : gmap string value) (t : Template) : Template :=
  mkTemplate (style t) f (keysPath t) (password t) (images t).

(** The effect on the field mapping of one accepted entry of the initial
    mapping. *)
Definition store_entry (f : gmap string value) (entry : string * value)
  : gmap string value :=
  match stored_form entry.1 entry.2 with
  | Some x => <[entry.1 := x]> f
  | None => f
  end.

(** An entry of the initial mapping that names an accessor and carries a
    value its validator accepts, or that names nothing callable on the
    instance. *)
Definition benign (entry : string * value) : Prop :=
  is_Some (stored_form entry.1 entry.2) \/ callable_member entry.1 = None.

(** One use of the class by a client. *)
Inductive call :=
| New (style : string) (fieldsArg : value)
| Access (name : string) (this : loc) (args : list value)
| Keys (this : loc) (args : list value)
| CreatePass (this : loc) (args : list value)
| Load (folderPath : string) (keyPassword : value).

(** The heap after a call (a field name without accessor names no
    method: the call is a TypeError that touches nothing). *)
Definition perform (h : heap) (c : call) : heap :=
  match c with
  | New s f => (Template_new s f h).2
  | Access name this args =>
      match accessor_of name with
      | Some f => (f this args h).2
      | None => h
      end
  | Keys this args => (keys this args h).2
  | CreatePass this args => (createPass this args h).2
  | Load d p => (load d p h).2
  end.

Definition empty_heap : heap := mkHeap ∅ 0.

(** The heaps a client can bring about through the class. *)
Definition reachable (h : heap) : Prop :=
  exists calls, h = foldl perform empty_heap calls.

End Template.

(** ** The shapes that the specification speaks of *)

Definition spaces (w : string) : Prop := Chars.all_chars Chars.is_space w = true.

(** One to three decimal digits. *)
Definition digits13 (d : string) : Prop :=
  Chars.all_chars Chars.is_digit d = true /\ 1 <= String.length d <= 3.

(** A non-empty run of decimal digits. *)
Definition digits (d : string) : Prop :=
  Chars.all_chars Chars.is_digit d = true /\ 1 <= String.length d.

Definition component (d : string) : Prop := (0 <= Chars.decimal d <= 255)%Z.

(** The language of the colour pattern, with its three groups: white
    space may follow the opening parenthesis and each comma and may
    precede the closing parenthesis. *)
Definition color_shape (s r g b : string) : Prop :=
  exists w1 w2 w3 w4,
    s = "rgb(" +:+ w1 +:+ r +:+ "," +:+ w2 +:+ g +:+ "," +:+ w3 +:+ b +:+ w4 +:+ ")"
    /\ spaces w1 /\ spaces w2 /\ spaces w3 /\ spaces w4
    /\ digits13 r /\ digits13 g /\ digits13 b.

(** The shape as the specification words it: [rgb(R, G, B)] with optional
    white space around the commas and the parentheses, and decimal
    integers in 0..255. *)
Definition spec_color_shape (s : string) : Prop :=
  exists r g b w0 w1 w2 w3 w4 w5 w6 w7,
    s = "rgb" +:+ w0 +:+ "(" +:+ w1 +:+ r +:+ w2 +:+ "," +:+ w3 +:+ g +:+ w4
        +:+ "," +:+ w5 +:+ b +:+ w6 +:+ ")" +:+ w7
    /\ spaces w0 /\ spaces w1 /\ spaces w2 /\ spaces w3
    /\ spaces w4 /\ spaces w5 /\ spaces w6 /\ spaces w7
    /\ digits r /\ digits g /\ digits b
    /\ component r /\ component g /\ component b.

(** The last value given to key [k] among [props], if any. *)
Definition last_value (props : list (string * value)) (k : string) : option value :=
  JS.own_get (rev props) k.

(** The content of a definition object as a mapping. *)
Definition content (props : list (string * value)) : gmap string value :=
  Obj.assign ∅ props.

(** ** A small host, for running the model

    Four bundle directories: [ticket] (an event ticket with a few
    fields), [bare] (a coupon whose definition has no identifier),
    [plain] (a definition without style key) and [empty] (no definition
    file).  No key file exists anywhere. *)

Module Demo.

Definition quoted (s : string) : string :=
  String "034"%char (s +:+ String "034"%char "").

(** JSON text of the values the bundles use. *)
Fixpoint stringify (v : value) : string :=
  match v with
  | VStr s => quoted s
  | VBool true => "true"
  | VBool false => "false"
  | VNum r => r
  | VArr l => "[" +:+ JS.join "," (map stringify l) +:+ "]"
  | VObj props =>
      "{" +:+ JS.join "," (map (fun '(k, x) => quoted k +:+ ":" +:+ stringify x) props)
      +:+ "}"
  | VUndefined | VNull | VURL _ => "null"
  end.

Definition ticket_props : list (string * value) :=
  [ ("formatVersion", VNum "1");
    ("passTypeIdentifier", VStr "pass.com.example.ticket");
    ("logoText", VStr "Gala");
    ("foregroundColor", VStr "rgb(255, 255, 255)");
    ("webServiceURL", VStr "https://example.com");
    ("eventTicket", VObj []) ].

Definition ticket_json : value := VObj ticket_props.

Definition bare_json : value := VObj [ ("coupon", VObj []) ].

Definition plain_json : value := VObj [ ("description", VStr "nothing") ].

Definition styles : list string :=
  [ "boardingPass"; "coupon"; "eventTicket"; "generic"; "storeCard" ].

(** A parser that knows two schemes and appends the root path. *)
Definition url_parse (s : string) : option URL :=
  if String.prefix "https://" s then Some (mkURL (s +:+ "/"))
  else if String.prefix "http://" s then Some (mkURL (s +:+ "/"))
  else None.

Definition stat (path : string) : completion Stats :=
  if JS.string_in path ["ticket"; "bare"; "plain"; "empty"]
  then Normal (mkStats true false)
  else Throw (HostError "ENOENT").

Definition join (dir file : string) : string := dir +:+ "/" +:+ file.

Definition read_file (path : string) : completion string :=
  if String.eqb path "ticket/pass.json" then Normal (stringify ticket_json)
  else if String.eqb path "bare/pass.json" then Normal (stringify bare_json)
  else if String.eqb path "plain/pass.json" then Normal (stringify plain_json)
  else Throw (HostError "ENOENT").

Definition parse (text : string) : completion value :=
  if String.eqb text (stringify ticket_json) then Normal ticket_json
  else if String.eqb text (stringify bare_json) then Normal bare_json
  else if String.eqb text (stringify plain_json) then Normal plain_json
  else Throw (HostError "SyntaxError").

Definition load_images (dir : string) (i : PassImages) : completion PassImages :=
  if String.eqb dir "ticket" then Normal (("icon", "ticket/icon.png") :: i)
  else Normal i.

#[local] Instance host : Host := {|
  PASS_STYLES := styles;
  URL_parse := url_parse;
  statAsync := stat;
  readFileAsync := read_file;
  JSON_parse := parse;
  path_join := join;
  loadFromDirectory := load_images;
  Array_prototype_names := ["length"; "concat"; "includes"; "some"; "slice"];
  URL_prototype_names := ["href"; "protocol"; "toString"]
|}.

(** A heap with one Template of style coupon, whose logo text is set, and
    its image collection. *)
Definition coupon : Template :=
  mkTemplate "coupon" {[ "logoText" := VStr "X" ]} (VStr "keys") VUndefined (Some 1).

Definition heap1 : heap :=
  mkHeap (<[1 := OImages []]> {[ 0 := OTemplate coupon ]}) 2.

End Demo.

(** ** Heap discipline and construction steps *)

(** Every object lies below the allocation pointer. *)
Definition heap_wf (h : heap) : Prop :=
  forall l, is_Some (store h !! l) -> l < next h.

(** A Template that has an image collection has the one allocated right
    after it. *)
Definition owns_images (h : heap) : Prop :=
  forall l t,
    store h !! l = Some (OTemplate t) ->
    images t = None
    \/ (images t = Some (S l) /\ exists i, store h !! S l = Some (OImages i)).

Definition disciplined (h : heap) : Prop := heap_wf h /\ owns_images h.

(** [h'] allocates nothing over [h] and differs from it at most at
    [this]. *)
Definition same_but (this : loc) (h h' : heap) : Prop :=
  next h' = next h /\ forall l, l <> this -> store h' !! l = store h !! l.

(** A computation that takes heaps in [P] to heaps in [Q], however it
    ends. *)
Definition leads (P Q : heap -> Prop) {A} (m : M A) : Prop :=
  forall h, P h -> Q (m h).2.

(** The end of the constructor, after the initial fields are applied:
    [this.keysPath = 'keys'; this.images = new PassImages()]. *)
Definition finish_construction (this : loc) : M loc :=
  update_this this (set_keysPath (VStr "keys")) ;;
  img <- alloc (OImages PassImages_new) ;;
  update_this this (set_images img) ;;
  ret this.

Section Building.
Context `{Host}.

(** A Template while the constructor applies the initial fields: it is
    the last object allocated, has its style, no password, no image
    collection yet, and only validated fields. *)
Definition building (this : loc) (s : string) (h : heap) : Prop :=
  next h = S this
  /\ exists t, store h !! this = Some (OTemplate t)
       /\ style t = s /\ password t = VUndefined /\ images t = None
       /\ valid_fields (fields t).

(** The entries of an initial mapping that name an accessor, each with a
    value its validator accepts. *)
Definition accepted (entry : string * value) : Prop :=
  is_Some (stored_form entry.1 entry.2).

End Building.

(** A JSON value that is not an object: [in] cannot be applied to it. *)
Definition scalar (v : value) : bool :=
  match v with
  | VUndefined | VNull | VBool _ | VNum _ | VStr _ => true
  | VArr _ | VObj _ | VURL _ => false
  end.

Section Clients.
Context `{Host}.

(** Client code: [this[k](v)] for an entry [(k, v)] whose key names an
    accessor; a TypeError when there is no such accessor. *)
Definition call_accessor (this : loc) (entry : string * value) : M unit :=
  match accessor_of entry.1 with
  | Some f => f this [entry.2] ;; ret tt
  | None => throw TypeError
  end.

(** The object a call may write to: the receiver of an accessor or of
    [keys]. *)
Definition target (c : call) : option loc :=
  match c with
  | Access _ this _ | Keys this _ => Some this
  | New _ _ | CreatePass _ _ | Load _ _ => None
  end.

End Clients.

(** ** A second small host

    More bundle directories: [keyed] (a coupon whose key file
    [com.example.keyed.pem] exists in the working directory), [scalar]
    (the definition file holds the number 5), [insecure] (a coupon with
    an http web service URL), [noimages] (the images cannot be loaded),
    and the regular file [notes.txt]. *)

Module Lab.

Definition keyed_props : list (string * value) :=
  [ ("coupon", VObj []);
    ("passTypeIdentifier", VStr "pass.com.example.keyed");
    ("logoText", VStr "Shop") ].

Definition insecure_props : list (string * value) :=
  [ ("coupon", VObj []);
    ("passTypeIdentifier", VStr "pass.com.example.insecure");
    ("logoText", VStr "Shop");
    ("webServiceURL", VStr "http://example.com");
    ("labelColor", VStr "rgb(0,0,0)") ].

Definition stat (path : string) : completion Stats :=
  if JS.string_in path ["keyed"; "scalar"; "insecure"; "noimages"]
  then Normal (mkStats true false)
  else if JS.string_in path ["notes.txt"; "com.example.keyed.pem"]
  then Normal (mkStats false true)
  else Throw (HostError "ENOENT").

Definition read_file (path : string) : completion string :=
  if String.eqb path "keyed/pass.json" then Normal (Demo.stringify (VObj keyed_props))
  else if String.eqb path "noimages/pass.json"
  then Normal (Demo.stringify (VObj keyed_props))
  else if String.eqb path "insecure/pass.json"
  then Normal (Demo.stringify (VObj insecure_props))
  else if String.eqb path "scalar/pass.json" then Normal "5"
  else Throw (HostError "ENOENT").

Definition parse (text : string) : completion value :=
  if String.eqb text (Demo.stringify (VObj keyed_props)) then Normal (VObj keyed_props)
  else if String.eqb text (Demo.stringify (VObj insecure_props))
  then Normal (VObj insecure_props)
  else if String.eqb text "5" then Normal (VNum "5")
  else Throw (HostError "SyntaxError").

Definition load_images (dir : string) (i : PassImages) : completion PassImages :=
  if String.eqb dir "noimages" then Throw (HostError "EACCES")
  else Normal (("icon", dir +:+ "/icon.png") :: i).

#[local] Instance host : Host := {|
  PASS_STYLES := Demo.styles;
  URL_parse := Demo.url_parse;
  statAsync := stat;
  readFileAsync := read_file;
  JSON_parse := parse;
  path_join := Demo.join;
  loadFromDirectory := load_images;
  Array_prototype_names := ["length"; "concat"; "includes"; "some"; "slice"];
  URL_prototype_names := ["href"; "protocol"; "toString"]
|}.

End Lab.

(** ** Facts about strings *)

Module CharsFacts.
Import Chars.

Lemma app_cons c (a b : string) : String c a +:+ b = String c (a +:+ b).
Proof. reflexivity. Qed.

Lemma app_nil (b : string) : "" +:+ b = b.
Proof. reflexivity. Qed.

Ltac push_app := rewrite ?app_cons, ?app_nil.

Lemma app_assoc (a b c : string) : (a +:+ b) +:+ c = a +:+ (b +:+ c).
Proof. induction a as [|x a IH]; push_app; [reflexivity | now rewrite IH]. Qed.

Lemma app_empty_r (a : string) : a +:+ "" = a.
Proof. induction a as [|x a IH]; push_app; [reflexivity | now rewrite IH]. Qed.

Lemma space_not_digit c : is_space c = true -> is_digit c = false.
Proof.
  unfold is_space, is_digit. intros Hs.
  destruct (48 <=? nat_of_ascii c)%nat eqn:E1; [|reflexivity].
  destruct (nat_of_ascii c <=? 57)%nat eqn:E2; [|reflexivity].
  apply Nat.leb_le in E1, E2. exfalso.
  apply orb_true_iff in Hs as [Hs|Hs].
  - apply orb_true_iff in Hs as [Hs|Hs].
    + apply andb_true_iff in Hs as [_ Hs]. apply Nat.leb_le in Hs. lia.
    + apply Nat.eqb_eq in Hs. lia.
  - apply Nat.eqb_eq in Hs. lia.
Qed.

Lemma digit_not_space c : is_digit c = true -> is_space c = false.
Proof.
  intros Hd. destruct (is_space c) eqn:E; [|reflexivity].
  apply space_not_digit in E. congruence.
Qed.

Lemma strip_prefix_Some p s r : strip_prefix p s = Some r -> s = p +:+ r.
Proof.
  revert s. induction p as [|a p IH]; intros s; simpl.
  - now intros [= ->].
  - destruct s as [|b s]; [discriminate|].
    destruct (Ascii.eqb_spec a b) as [->|]; [|discriminate].
    intros Hs. push_app. now rewrite (IH _ Hs).
Qed.

Lemma strip_prefix_app p r : strip_prefix p (p +:+ r) = Some r.
Proof.
  induction p as [|a p IH]; push_app; simpl; [reflexivity|].
  now rewrite Ascii.eqb_refl.
Qed.

Lemma skip_split p s :
  exists w, s = w +:+ skip p s /\ all_chars p w = true /\ stops p (skip p s) = true.
Proof.
  induction s as [|c s (w & Hs & Hw & Hst)]; simpl.
  - exists "". auto.
  - destruct (p c) eqn:E.
    + exists (String c w). push_app. simpl. rewrite E, Hw.
      split; [now rewrite <- Hs | auto].
    + exists "". simpl. rewrite E. auto.
Qed.

Lemma skip_app p w r :
  all_chars p w = true -> stops p r = true -> skip p (w +:+ r) = r.
Proof.
  intros Hw Hr. induction w as [|c w IH]; push_app; simpl in *.
  - destruct r as [|c r]; simpl in *; [reflexivity|].
    apply negb_true_iff in Hr. now rewrite Hr.
  - apply andb_true_iff in Hw as [-> Hw]. auto.
Qed.

Lemma take_upto_split p n s d r :
  take_upto p n s = (d, r) ->
  s = d +:+ r /\ all_chars p d = true /\ String.length d <= n
  /\ (String.length d < n -> stops p r = true).
Proof.
  revert s d r. induction n as [|n IH]; intros s d r; simpl.
  - destruct s; intros [= <- <-]; simpl; repeat split; auto; lia.
  - destruct s as [|c s].
    + intros [= <- <-]; simpl; repeat split; auto; lia.
    + destruct (p c) eqn:E.
      * destruct (take_upto p n s) as [d' r'] eqn:Et.
        intros [= <- <-]. destruct (IH _ _ _ Et) as (-> & Hd & Hl & Hst).
        push_app. simpl. rewrite E, Hd.
        repeat split; auto; [lia|]. intros; apply Hst; lia.
      * intros [= <- <-]. simpl. rewrite E. repeat split; auto; lia.
Qed.

Lemma take_upto_app p n d r :
  all_chars p d = true -> String.length d <= n -> stops p r = true ->
  take_upto p n (d +:+ r) = (d, r).
Proof.
  revert n. induction d as [|c d IH]; intros n Hd Hl Hr; push_app; simpl in *.
  - destruct n; [now destruct r|]. destruct r as [|c r]; [reflexivity|].
    simpl in *. apply negb_true_iff in Hr. now rewrite Hr.
  - destruct n; [lia|]. apply andb_true_iff in Hd as [Hc Hd].
    simpl. rewrite Hc, IH; auto; lia.
Qed.

Lemma span_all p d : all_chars p d = true -> span p d = (d, "").
Proof.
  induction d as [|c d IH]; simpl; [reflexivity|].
  intros Hd. apply andb_true_iff in Hd as [-> Hd]. now rewrite IH.
Qed.

Lemma digit_value_range c : is_digit c = true -> (0 <= digit_value c <= 9)%Z.
Proof.
  unfold is_digit, digit_value. intros Hd.
  apply andb_true_iff in Hd as [H1 H2]. apply Nat.leb_le in H1, H2. lia.
Qed.

Lemma decimal_from_nonneg acc d :
  all_chars is_digit d = true -> (0 <= acc)%Z -> (0 <= decimal_from acc d)%Z.
Proof.
  revert acc. induction d as [|c d IH]; simpl; intros acc Hd Ha; [assumption|].
  apply andb_true_iff in Hd as [Hc Hd]. apply IH; [assumption|].
  pose proof (digit_value_range _ Hc). lia.
Qed.

Lemma decimal_nonneg d : all_chars is_digit d = true -> (0 <= decimal d)%Z.
Proof. intros Hd. apply decimal_from_nonneg; [assumption | lia]. Qed.

(** A string begins with its part up to the first colon. *)
Lemma upto_colon_prefix s : exists rest, s = upto_colon s +:+ rest.
Proof.
  induction s as [|c s [rest IH]]; [now exists ""|]. simpl.
  destruct (Ascii.eqb c ":").
  - exists s. now push_app.
  - exists rest. push_app. now rewrite <- IH.
Qed.

End CharsFacts.

(** ** Facts about the colour pattern and the validator *)

Module ColorFacts.
Import Chars CharsFacts ColorRegex.

Lemma stops_digit_head p c d r :
  p c = false -> stops p (String c d +:+ r) = true.
Proof. intros Hc. push_app. simpl. now rewrite Hc. Qed.

Lemma digits13_head d :
  digits13 d -> exists c d', d = String c d' /\ is_digit c = true.
Proof.
  intros [Hd Hl]. destruct d as [|c d']; simpl in *; [lia|].
  apply andb_true_iff in Hd as [Hc _]. eauto.
Qed.

Lemma stops_space_digits d r : digits13 d -> stops is_space (d +:+ r) = true.
Proof.
  intros (c & d' & -> & Hc)%digits13_head.
  apply stops_digit_head, digit_not_space, Hc.
Qed.

Lemma stops_digit_spaces w c r :
  spaces w -> is_digit c = false -> stops is_digit (w +:+ String c r) = true.
Proof.
  intros Hw Hc. destruct w as [|x w]; push_app; simpl.
  - now rewrite Hc.
  - unfold spaces in Hw. simpl in Hw. apply andb_true_iff in Hw as [Hx _].
    now rewrite (space_not_digit _ Hx).
Qed.

Lemma group_Some s d r : group s = Some (d, r) -> s = d +:+ r /\ digits13 d.
Proof.
  unfold group. destruct (take_upto is_digit 3 s) as [d' r'] eqn:Et.
  destruct (take_upto_split _ _ _ _ _ Et) as (Hs & Hd & Hl & _).
  destruct d' as [|c d']; [discriminate|].
  intros [= <- <-]. split; [assumption|]. split; [assumption|]. simpl in *. lia.
Qed.

Lemma group_app d r :
  digits13 d -> stops is_digit r = true -> group (d +:+ r) = Some (d, r).
Proof.
  intros [Hd Hl] Hr. unfold group. rewrite take_upto_app by (auto; lia).
  destruct d; [simpl in Hl; lia | reflexivity].
Qed.

Lemma is_empty_true s : is_empty s = true -> s = "".
Proof. now destruct s. Qed.

(** The reading of the pattern finds exactly the strings of its
    language, with their groups. *)
Lemma exec_Some s m :
  exec s = Some m -> exists r g b, m = [s; r; g; b] /\ color_shape s r g b.
Proof.
  unfold exec.
  destruct (strip_prefix "rgb(" s) as [s1|] eqn:E1; [|discriminate].
  destruct (skip_split is_space s1) as (w1 & H1 & Hw1 & _).
  destruct (group (skip is_space s1)) as [[r s2]|] eqn:G1; [|discriminate].
  destruct (strip_prefix "," s2) as [s3|] eqn:E2; [|discriminate].
  destruct (skip_split is_space s3) as (w2 & H2 & Hw2 & _).
  destruct (group (skip is_space s3)) as [[g s4]|] eqn:G2; [|discriminate].
  destruct (strip_prefix "," s4) as [s5|] eqn:E3; [|discriminate].
  destruct (skip_split is_space s5) as (w3 & H3 & Hw3 & _).
  destruct (group (skip is_space s5)) as [[b s6]|] eqn:G3; [|discriminate].
  destruct (skip_split is_space s6) as (w4 & H4 & Hw4 & _).
  destruct (strip_prefix ")" (skip is_space s6)) as [s7|] eqn:E4; [|discriminate].
  destruct (is_empty s7) eqn:E5; [|discriminate].
  intros [= <-]. exists r, g, b. split; [reflexivity|].
  apply is_empty_true in E5. subst s7.
  apply strip_prefix_Some in E1, E2, E3, E4.
  apply group_Some in G1 as [G1 Hr], G2 as [G2 Hg], G3 as [G3 Hb].
  exists w1, w2, w3, w4. split.
  { rewrite E1, H1, G1, E2, H2, G2, E3, H3, G3, H4, E4.
    now rewrite ?app_assoc. }
  unfold spaces. tauto.
Qed.

Lemma exec_shape s r g b : color_shape s r g b -> exec s = Some [s; r; g; b].
Proof.
  intros (w1 & w2 & w3 & w4 & Hs & Hw1 & Hw2 & Hw3 & Hw4 & Hr & Hg & Hb).
  unfold exec. rewrite Hs at 1. rewrite (strip_prefix_app "rgb(").
  rewrite (skip_app _ w1) by (auto using stops_space_digits).
  rewrite group_app by (auto using stops_digit_head).
  rewrite (strip_prefix_app ",").
  rewrite (skip_app _ w2) by (auto using stops_space_digits).
  rewrite group_app by (auto using stops_digit_head).
  rewrite (strip_prefix_app ",").
  rewrite (skip_app _ w3) by (auto using stops_space_digits).
  rewrite group_app by (auto using stops_digit_spaces).
  rewrite (skip_app _ w4) by (auto using stops_digit_head).
  reflexivity.
Qed.

Lemma parseInt10_digits d :
  digits13 d -> JS.parseInt10 d = Some (decimal d).
Proof.
  intros Hd. destruct (digits13_head d Hd) as (c & d' & -> & Hc).
  destruct Hd as [Hd _]. unfold JS.parseInt10.
  assert (Hsk : skip is_space (String c d') = String c d').
  { simpl. now rewrite (digit_not_space _ Hc). }
  rewrite Hsk.
  destruct (Ascii.eqb_spec c "-") as [->|_]; [discriminate|].
  destruct (Ascii.eqb_spec c "+") as [->|_]; [discriminate|].
  now rewrite (span_all _ _ Hd).
Qed.

Lemma check_components_range shown a b c :
  check_components shown [Some a; Some b; Some c] = Normal tt
  <-> (0 <= a <= 255 /\ 0 <= b <= 255 /\ 0 <= c <= 255)%Z.
Proof.
  simpl.
  destruct (Z.ltb_spec a 0), (Z.ltb_spec 255 a); simpl;
    try (split; [discriminate | lia]).
  destruct (Z.ltb_spec b 0), (Z.ltb_spec 255 b); simpl;
    try (split; [discriminate | lia]).
  destruct (Z.ltb_spec c 0), (Z.ltb_spec 255 c); simpl;
    try (split; [discriminate | lia]).
  split; [lia | reflexivity].
Qed.

(** [validateColorValue] on a string: it returns exactly on the language
    of the pattern with every group in 0..255. *)
Lemma validateColorValue_string s :
  validateColorValue (VStr s) = Normal tt
  <-> exists r g b,
        color_shape s r g b /\ component r /\ component g /\ component b.
Proof.
  unfold validateColorValue. simpl JS.ToString. cbv iota. split.
  - destruct (exec s) as [m|] eqn:E; [|discriminate].
    destruct (exec_Some _ _ E) as (r & g & b & -> & Hshape).
    pose proof Hshape as (_ & _ & _ & _ & _ & _ & _ & _ & _ & Hr & Hg & Hb).
    simpl skipn. simpl map.
    rewrite !parseInt10_digits by assumption.
    intros Hc%check_components_range. exists r, g, b. unfold component. tauto.
  - intros (r & g & b & Hshape & Hr & Hg & Hb).
    rewrite (exec_shape _ _ _ _ Hshape).
    pose proof Hshape as (_ & _ & _ & _ & _ & _ & _ & _ & _ & Dr & Dg & Db).
    simpl skipn. simpl map.
    rewrite !parseInt10_digits by assumption.
    apply check_components_range. unfold component in *. tauto.
Qed.

Lemma completion_unit_cases (c : completion unit) :
  c = Normal tt \/ exists e, c = Throw e.
Proof. destruct c as [[]|e]; eauto. Qed.

End ColorFacts.

(** ** The monad and the heap *)

Lemma string_in_In k l : JS.string_in k l = true <-> In k l.
Proof.
  unfold JS.string_in. rewrite existsb_exists. split.
  - intros (x & Hx & ->%String.eqb_eq). assumption.
  - intros Hk. exists k. split; [assumption | apply String.eqb_refl].
Qed.

Lemma string_in_not_In k l : JS.string_in k l = false <-> ~ In k l.
Proof.
  rewrite <- string_in_In. destruct (JS.string_in k l); split; congruence.
Qed.

Lemma read_this_template h this t :
  store h !! this = Some (OTemplate t) -> read_this this h = (Normal t, h).
Proof. intros Ht. unfold read_this. now rewrite Ht. Qed.

Lemma read_this_inv h this c h' :
  read_this this h = (c, h') ->
  h' = h /\ (c = Throw TypeError \/ exists t, c = Normal t /\ store h !! this = Some (OTemplate t)).
Proof.
  unfold read_this. destruct (store h !! this) as [[t|i]|] eqn:E;
    intros [= <- <-]; eauto 6.
Qed.

Lemma update_this_template h this t f :
  store h !! this = Some (OTemplate t) ->
  update_this this f h
  = (Normal tt, mkHeap (<[this := OTemplate (f t)]> (store h)) (next h)).
Proof.
  intros Ht. unfold update_this, bind. now rewrite (read_this_template _ _ _ Ht).
Qed.

Lemma update_this_inv h this f c h' :
  update_this this f h = (c, h') ->
  (c = Throw TypeError /\ h' = h)
  \/ exists t, store h !! this = Some (OTemplate t) /\ c = Normal tt
       /\ h' = mkHeap (<[this := OTemplate (f t)]> (store h)) (next h).
Proof.
  unfold update_this, bind, read_this.
  destruct (store h !! this) as [[t|i]|] eqn:E; intros [= <- <-]; eauto 6.
Qed.

(** *** The accessors *)

Section Accessors.
Context `{Host}.

Lemma accessor_read name check h this t :
  store h !! this = Some (OTemplate t) ->
  accessor name check this [] h
  = (Normal (Value (default VUndefined (fields t !! name))), h).
Proof.
  intros Ht. unfold accessor, bind. now rewrite (read_this_template _ _ _ Ht).
Qed.

Lemma accessor_store name check h this t v x :
  store h !! this = Some (OTemplate t) -> check v = Normal x ->
  accessor name check this [v] h
  = (Normal (This this),
     mkHeap (<[this := OTemplate (set_field name x t)]> (store h)) (next h)).
Proof.
  intros Ht Hc. unfold accessor, bind, lift. rewrite Hc.
  now rewrite (update_this_template _ _ _ _ Ht).
Qed.

Lemma accessor_reject name check h this v e :
  check v = Throw e -> accessor name check this [v] h = (Throw e, h).
Proof. intros Hc. unfold accessor, bind, lift. now rewrite Hc. Qed.

(** Whatever the arguments, a call that throws leaves the heap as it
    was. *)
Lemma accessor_throw_unchanged name check this args h e :
  (accessor name check this args h).1 = Throw e ->
  (accessor name check this args h).2 = h.
Proof.
  unfold accessor.
  assert (Hread : forall k : Template -> M result,
             (forall t h0, (k t h0).2 = h0) ->
             (bind (read_this this) k h).2 = h).
  { intros k Hk. unfold bind.
    destruct (read_this this h) as [c h1] eqn:E.
    apply read_this_inv in E as [-> [->|(t & -> & _)]]; [reflexivity | apply Hk]. }
  destruct args as [|v [|v' args]]; try (intros _; now apply Hread).
  unfold bind, lift. destruct (check v) as [x|e']; [|reflexivity].
  destruct (update_this this (set_field name x) h) as [c h1] eqn:E.
  apply update_this_inv in E as [[-> ->]|(t & _ & -> & ->)];
    [reflexivity | discriminate].
Qed.

Lemma accessor_of_validator name :
  accessor_of name = option_map (accessor name) (validator_of name).
Proof.
  unfold accessor_of, validator_of.
  destruct (String.eqb_spec name "passTypeIdentifier") as [->|]; [reflexivity|].
  destruct (String.eqb_spec name "teamIdentifier") as [->|]; [reflexivity|].
  destruct (String.eqb_spec name "backgroundColor") as [->|]; [reflexivity|].
  destruct (String.eqb_spec name "foregroundColor") as [->|]; [reflexivity|].
  destruct (String.eqb_spec name "labelColor") as [->|]; [reflexivity|].
  destruct (String.eqb_spec name "logoText") as [->|]; [reflexivity|].
  destruct (String.eqb_spec name "organizationName") as [->|]; [reflexivity|].
  destruct (String.eqb_spec name "groupingIdentifier") as [->|]; [reflexivity|].
  destruct (String.eqb_spec name "suppressStripShine") as [->|]; [reflexivity|].
  destruct (String.eqb_spec name "webServiceURL") as [->|]; [reflexivity|].
  replace (JS.string_in name field_names) with false; [reflexivity|].
  symmetry. apply string_in_not_In. simpl. intuition congruence.
Qed.

Lemma accessor_of_Some name f :
  accessor_of name = Some f ->
  exists check, validator_of name = Some check /\ f = accessor name check.
Proof.
  rewrite accessor_of_validator. destruct (validator_of name) as [check|];
    [|discriminate]. intros [= <-]. eauto.
Qed.

Lemma validator_of_field name : In name field_names <-> is_Some (validator_of name).
Proof.
  split.
  - intros Hin. simpl in Hin.
    repeat (destruct Hin as [<-|Hin]; [now eexists|]). destruct Hin.
  - intros [check Hc]. unfold validator_of in Hc.
    repeat match type of Hc with
           | context [String.eqb name ?s] =>
               destruct (String.eqb_spec name s) as [->|];
               [simpl; tauto|]
           end.
    destruct (JS.string_in name field_names) eqn:E; [|discriminate].
    now apply string_in_In.
Qed.

(** The serialization of a URL whose protocol is [https:] begins with
    [https:]. *)
Lemma https_href u : protocol u = "https:" -> exists rest, href u = "https:" +:+ rest.
Proof.
  unfold protocol. intros Hp.
  destruct (CharsFacts.upto_colon_prefix (href u)) as [rest Hrest].
  exists rest. now rewrite <- Hp.
Qed.

Lemma check_url_https v x : check_url v = Normal x -> https_url_string x.
Proof.
  unfold check_url. destruct (as_URL v) as [u|e]; [|discriminate].
  destruct (String.eqb_spec (protocol u) "https:") as [Hp|]; simpl; [|discriminate].
  intros [= <-]. destruct (https_href u Hp) as [rest Hrest].
  exists rest. now rewrite Hrest.
Qed.

Lemma check_url_inv v x :
  check_url v = Normal x ->
  exists u, as_URL v = Normal u /\ protocol u = "https:" /\ x = VStr (href u).
Proof.
  unfold check_url. destruct (as_URL v) as [u|e]; [|discriminate].
  destruct (String.eqb_spec (protocol u) "https:") as [Hp|]; simpl; [|discriminate].
  intros [= <-]. exists u. auto.
Qed.

End Accessors.

(** ** Validity of the stored fields is kept by every operation *)

Section Preservation.
Context `{Host}.

Lemma valid_heap_insert h l o n :
  valid_heap h -> valid_object o ->
  valid_heap (mkHeap (<[l := o]> (store h)) n).
Proof.
  intros Hh Ho l' t. simpl. rewrite lookup_insert.
  case_decide as Hl; [|apply Hh]. intros [= ->]. exact Ho.
Qed.

Lemma valid_fields_empty : valid_fields ∅.
Proof. intros name x. now rewrite lookup_empty. Qed.

Lemma valid_fields_insert name x f :
  passed_validator name x -> valid_fields f -> valid_fields (<[name := x]> f).
Proof.
  intros Hx Hf k y. rewrite lookup_insert.
  case_decide as Hk; [|apply Hf]. subst k. now intros [= <-].
Qed.

Lemma keeps_ret P {A} (a : A) : keeps P (ret a).
Proof. now intros h Hh. Qed.

Lemma keeps_throw P {A} e : keeps P (@throw A e).
Proof. now intros h Hh. Qed.

Lemma keeps_lift P {A} (c : completion A) : keeps P (lift c).
Proof. now intros h Hh. Qed.

Lemma keeps_bind P {A B} (m : M A) (k : A -> M B) :
  keeps P m -> (forall a, keeps P (k a)) -> keeps P (bind m k).
Proof.
  intros Hm Hk h Hh. unfold bind. specialize (Hm h Hh).
  destruct (m h) as [[a|e] h1]; [apply Hk|]; exact Hm.
Qed.

Lemma keeps_try_catch P {A} (m : M A) handler :
  keeps P m -> (forall e, keeps P (handler e)) -> keeps P (try_catch m handler).
Proof.
  intros Hm Hk h Hh. unfold try_catch. specialize (Hm h Hh).
  destruct (m h) as [[a|e] h1]; [|apply Hk]; exact Hm.
Qed.

Lemma keeps_if P {A} (b : bool) (m1 m2 : M A) :
  keeps P m1 -> keeps P m2 -> keeps P (if b then m1 else m2).
Proof. now destruct b. Qed.

Lemma keeps_read_this P this : keeps P (read_this this).
Proof.
  intros h Hh. destruct (read_this this h) as [c h1] eqn:E.
  now apply read_this_inv in E as [-> _].
Qed.

Lemma keeps_forEach P {A} (l : list A) f :
  (forall x, keeps P (f x)) -> keeps P (forEach l f).
Proof.
  intros Hf. induction l as [|x l IH]; simpl.
  - apply keeps_ret.
  - apply keeps_bind; auto.
Qed.

Lemma createPass_heap this args h : (createPass this args h).2 = h.
Proof.
  unfold createPass, bind. destruct (read_this this h) as [c h1] eqn:E.
  apply read_this_inv in E as [-> [->|(t & -> & _)]]; reflexivity.
Qed.

Lemma keeps_createPass P this args : keeps P (createPass this args).
Proof. intros h Hh. now rewrite createPass_heap. Qed.

Lemma preserves_alloc o : valid_object o -> preserves (alloc o).
Proof. intros Ho h Hh. now apply valid_heap_insert. Qed.

Lemma preserves_update_this this f :
  (forall t, valid_fields (fields t) -> valid_fields (fields (f t))) ->
  preserves (update_this this f).
Proof.
  intros Hf h Hh. destruct (update_this this f h) as [c h1] eqn:E.
  apply update_this_inv in E as [[_ ->]|(t & Ht & _ & ->)]; [exact Hh|].
  apply valid_heap_insert; [exact Hh|]. apply Hf, (Hh _ _ Ht).
Qed.

Lemma preserves_accessor name check this args :
  validator_of name = Some check -> preserves (accessor name check this args).
Proof.
  intros Hv. unfold accessor.
  assert (Hread : preserves
            (t <- read_this this ;; ret (Value (default VUndefined (fields t !! name))))).
  { apply keeps_bind; [apply keeps_read_this | intros; apply keeps_ret]. }
  destruct args as [|v [|v' args]]; try exact Hread.
  intros h Hh. unfold bind at 1. unfold lift.
  destruct (check v) as [x|e] eqn:Hc; [|exact Hh].
  revert h Hh. apply keeps_bind; [|intros; apply keeps_ret].
  apply preserves_update_this. intros t Ht. simpl.
  apply valid_fields_insert; [|exact Ht]. now exists check, v.
Qed.

Lemma preserves_keys this args : preserves (keys this args).
Proof.
  unfold keys. apply keeps_bind; [|intros _];
    (apply keeps_if; [|apply keeps_ret]);
    apply preserves_update_this; now intros t Ht.
Qed.

Lemma preserves_callable_member field f this args :
  callable_member field = Some f -> preserves (f this args).
Proof.
  unfold callable_member. rewrite accessor_of_validator.
  destruct (validator_of field) as [check|] eqn:Hv; cbn [option_map].
  { intros [= <-]. apply keeps_bind; [|intros; apply keeps_ret].
    now apply preserves_accessor. }
  destruct (String.eqb field "keys"); [intros [= <-]; apply preserves_keys|].
  destruct (String.eqb field "createPass").
  { intros [= <-]. apply keeps_bind;
      [apply keeps_createPass | intros; apply keeps_ret]. }
  repeat match goal with
         | |- context [JS.string_in field ?l] => destruct (JS.string_in field l)
         end; simpl; try discriminate; intros [= <-];
    first [ apply keeps_throw
          | apply keeps_ret
          | apply keeps_bind; [apply keeps_lift | intros; apply keeps_ret] ].
Qed.

Lemma preserves_apply_field this entry : preserves (apply_field this entry).
Proof.
  unfold apply_field. destruct (callable_member entry.1) as [f|] eqn:E.
  - now apply (preserves_callable_member entry.1).
  - apply keeps_ret.
Qed.

Lemma preserves_Template_new style fieldsArg :
  preserves (Template_new style fieldsArg).
Proof.
  unfold Template_new. apply keeps_if; [apply keeps_throw|].
  apply keeps_bind; [apply preserves_alloc, valid_fields_empty | intros this].
  apply keeps_bind; [apply keeps_lift | intros entries].
  apply keeps_bind;
    [apply keeps_forEach, preserves_apply_field | intros _].
  apply keeps_bind; [apply preserves_update_this; now intros | intros _].
  apply keeps_bind; [now apply preserves_alloc | intros img].
  apply keeps_bind; [apply preserves_update_this; now intros | intros _].
  apply keeps_ret.
Qed.

Lemma preserves_images_loadFromDirectory template folderPath :
  preserves (images_loadFromDirectory template folderPath).
Proof.
  unfold images_loadFromDirectory.
  apply keeps_bind; [apply keeps_read_this | intros t].
  destruct (images t) as [img|]; [|apply keeps_throw].
  intros h Hh. destruct (store h !! img) as [[?|i]|]; try exact Hh.
  destruct (loadFromDirectory folderPath i); [|exact Hh].
  now apply valid_heap_insert.
Qed.

Lemma preserves_probe_key template folderPath keyName keyPassword :
  preserves (probe_key template folderPath keyName keyPassword).
Proof.
  unfold probe_key. apply keeps_try_catch; [|intros; apply keeps_ret].
  apply keeps_bind; [apply keeps_lift | intros keyStat].
  apply keeps_if; [apply preserves_keys | apply keeps_ret].
Qed.

Lemma preserves_load folderPath keyPassword : preserves (load folderPath keyPassword).
Proof.
  unfold load. apply keeps_bind; [apply keeps_lift | intros stats].
  apply keeps_if; [apply keeps_throw|].
  apply keeps_bind; [apply keeps_lift | intros content].
  apply keeps_bind; [apply keeps_lift | intros passJson].
  apply keeps_bind; [apply keeps_lift | intros type].
  apply keeps_bind; [apply preserves_Template_new | intros template].
  apply keeps_bind; [apply preserves_images_loadFromDirectory | intros _].
  apply keeps_bind; [apply keeps_lift | intros keyName].
  apply keeps_bind; [apply preserves_probe_key | intros _].
  apply keeps_ret.
Qed.

Lemma perform_valid h c : valid_heap h -> valid_heap (perform h c).
Proof.
  intros Hh. destruct c as [s f|name this args|this args|this args|d p]; simpl.
  - now apply preserves_Template_new.
  - destruct (accessor_of name) as [f|] eqn:E; [|exact Hh].
    apply accessor_of_Some in E as (check & Hv & ->).
    now apply preserves_accessor.
  - now apply preserves_keys.
  - now apply keeps_createPass.
  - now apply preserves_load.
Qed.

Lemma reachable_valid h : reachable h -> valid_heap h.
Proof.
  intros [calls ->]. induction calls as [|c calls IH] using rev_ind.
  - intros l t. simpl. now rewrite lookup_empty.
  - rewrite foldl_app. simpl. now apply perform_valid.
Qed.

End Preservation.

(** ** Objects as mappings *)

Module ObjFacts.

Lemma assign_snoc (m : gmap string value) l k v :
  Obj.assign m (l ++ [(k, v)]) = Obj.write (Obj.assign m l) k v.
Proof. unfold Obj.assign. now rewrite foldl_app. Qed.

Lemma last_value_snoc l k' v k :
  last_value (l ++ [(k', v)]) k
  = if String.eqb k' k then Some v else last_value l k.
Proof. unfold last_value. now rewrite rev_app_distr. Qed.

(** After [Object.assign], a key other than [__proto__] holds the last
    value the source gives it, or else what the target had. *)
Lemma assign_lookup (m : gmap string value) l k :
  k <> "__proto__" ->
  Obj.assign m l !! k
  = match last_value l k with Some v => Some v | None => m !! k end.
Proof.
  intros Hk. induction l as [|[k' v] l IH] using rev_ind; [reflexivity|].
  rewrite assign_snoc, last_value_snoc. unfold Obj.write.
  destruct (String.eqb_spec k' k) as [->|Hne].
  - destruct (String.eqb_spec k "__proto__"); [contradiction|].
    apply lookup_insert_eq.
  - destruct (String.eqb_spec k' "__proto__"); [exact IH|].
    now rewrite lookup_insert_ne.
Qed.

(** [Object.assign] leaves the own property [__proto__] of the target
    as it is. *)
Lemma assign_proto (m : gmap string value) l :
  Obj.assign m l !! "__proto__" = m !! "__proto__".
Proof.
  induction l as [|[k' v] l IH] using rev_ind; [reflexivity|].
  rewrite assign_snoc. unfold Obj.write.
  destruct (String.eqb_spec k' "__proto__"); [exact IH|].
  now rewrite lookup_insert_ne.
Qed.

Lemma own_get_In l k v : JS.own_get l k = Some v -> In (k, v) l.
Proof.
  induction l as [|[k' v'] l IH]; simpl; [discriminate|].
  destruct (String.eqb_spec k' k) as [->|]; [intros [= ->]|]; auto.
Qed.

Lemma own_get_None l k : JS.own_get l k = None <-> ~ In k (map fst l).
Proof.
  induction l as [|[k' v'] l IH]; simpl; [tauto|].
  destruct (String.eqb_spec k' k) as [->|]; [|tauto].
  split; [discriminate | tauto].
Qed.

Lemma own_get_NoDup l k v :
  List.NoDup (map fst l) -> In (k, v) l -> JS.own_get l k = Some v.
Proof.
  induction l as [|[k' v'] l IH]; simpl; [tauto|].
  intros Hnd. inversion Hnd as [|? ? Hk Hnd']; subst.
  intros [[= -> ->]|Hin].
  - now rewrite String.eqb_refl.
  - destruct (String.eqb_spec k' k) as [->|]; [|auto].
    exfalso. apply Hk. now apply (in_map fst _ (k, v)).
Qed.

Lemma own_has_In l k : JS.own_has l k = true <-> In k (map fst l).
Proof.
  unfold JS.own_has. destruct (JS.own_get l k) as [v|] eqn:E.
  - split; [intros _ | reflexivity].
    apply own_get_In in E. now apply (in_map fst _ (k, v)).
  - apply own_get_None in E. split; [discriminate | tauto].
Qed.

Lemma last_value_map_to_list (m : gmap string value) k :
  last_value (map_to_list m) k = m !! k.
Proof.
  unfold last_value.
  assert (Hnd : List.NoDup (map fst (rev (map_to_list m)))).
  { rewrite map_rev. apply NoDup_rev, NoDup_ListNoDup, NoDup_fst_map_to_list. }
  destruct (m !! k) as [v|] eqn:E.
  - apply own_get_NoDup; [exact Hnd|]. apply in_rev. rewrite rev_involutive.
    apply list_elem_of_In, elem_of_map_to_list, E.
  - apply own_get_None. rewrite map_rev, <- in_rev. intros Hin.
    apply in_map_iff in Hin as ([k' v] & Hk & Hin). simpl in Hk. subst k'.
    apply list_elem_of_In, elem_of_map_to_list in Hin. congruence.
Qed.

(** Copying a mapping into an empty object gives the mapping, but for
    an own property [__proto__]. *)
Lemma assign_copy (m : gmap string value) :
  Obj.assign ∅ (map_to_list m) = delete "__proto__" m.
Proof.
  apply map_eq. intros k. destruct (decide (k = "__proto__")) as [->|Hk].
  - now rewrite assign_proto, lookup_empty, lookup_delete_eq.
  - rewrite (assign_lookup _ _ _ Hk), last_value_map_to_list.
    rewrite lookup_delete_ne by congruence.
    destruct (m !! k); [reflexivity | apply lookup_empty].
Qed.

Lemma delete_absent (m : gmap string value) k : m !! k = None -> delete k m = m.
Proof. apply delete_id. Qed.

End ObjFacts.

Section Construction.
Context `{Host}.

Lemma createPass_template h this t args :
  store h !! this = Some (OTemplate t) ->
  createPass this args h
  = (Normal (new_Pass this
               (Obj.assign (delete "__proto__" (fields t))
                  (Obj.own_enumerable (Obj.default_empty (Obj.arg 0 args))))
               (images t)), h).
Proof.
  intros Ht. unfold createPass, bind.
  rewrite (read_this_template _ _ _ Ht). unfold ret.
  now rewrite ObjFacts.assign_copy.
Qed.

Lemma Template_new_unsupported style fieldsArg h :
  ~ In style PASS_STYLES ->
  Template_new style fieldsArg h
  = (Throw (Error ("Unsupported pass style " +:+ style)), h).
Proof.
  intros Hs%string_in_not_In. unfold Template_new. now rewrite Hs.
Qed.

End Construction.

(** ** The constructor and the loader, step by step *)

Section Steps.
Context `{Host}.

Lemma keeps_update_this_style this s n this' f :
  (forall t, style (f t) = style t) ->
  keeps (under_construction this s n) (update_this this' f).
Proof.
  intros Hf h [(t & Ht & Hs) Hn].
  destruct (update_this this' f h) as [c h1] eqn:E.
  apply update_this_inv in E as [[_ ->]|(t' & Ht' & _ & ->)]; [now split; [exists t|]|].
  split; [|exact Hn]. unfold has_style. simpl. rewrite lookup_insert.
  case_decide as Hl.
  - subst this'. rewrite Ht in Ht'. injection Ht' as <-.
    exists (f t). now rewrite Hf.
  - now exists t.
Qed.

Lemma keeps_accessor_style this s n name check this' args :
  keeps (under_construction this s n) (accessor name check this' args).
Proof.
  unfold accessor.
  destruct args as [|v [|v' args]];
    try (apply keeps_bind; [apply keeps_read_this | intros; apply keeps_ret]).
  apply keeps_bind; [apply keeps_lift | intros x].
  apply keeps_bind; [|intros; apply keeps_ret].
  now apply keeps_update_this_style.
Qed.

Lemma keeps_keys_style this s n this' args :
  keeps (under_construction this s n) (keys this' args).
Proof.
  unfold keys. apply keeps_bind; [|intros _];
    (apply keeps_if; [|apply keeps_ret]); now apply keeps_update_this_style.
Qed.

Lemma keeps_callable_member_style this s n field f this' args :
  callable_member field = Some f ->
  keeps (under_construction this s n) (f this' args).
Proof.
  unfold callable_member.
  destruct (accessor_of field) as [g|] eqn:Hg.
  { apply accessor_of_Some in Hg as (check & _ & ->). intros [= <-].
    apply keeps_bind; [apply keeps_accessor_style | intros; apply keeps_ret]. }
  destruct (String.eqb field "keys"); [intros [= <-]; apply keeps_keys_style|].
  destruct (String.eqb field "createPass").
  { intros [= <-]. apply keeps_bind;
      [apply keeps_createPass | intros; apply keeps_ret]. }
  repeat match goal with
         | |- context [JS.string_in field ?l] => destruct (JS.string_in field l)
         end; simpl; try discriminate; intros [= <-];
    first [ apply keeps_throw
          | apply keeps_ret
          | apply keeps_bind; [apply keeps_lift | intros; apply keeps_ret] ].
Qed.

Lemma keeps_apply_field_style this s n this' entry :
  keeps (under_construction this s n) (apply_field this' entry).
Proof.
  unfold apply_field. destruct (callable_member entry.1) as [f|] eqn:E.
  - now apply (keeps_callable_member_style _ _ _ entry.1).
  - apply keeps_ret.
Qed.

Lemma bind_Normal_inv {A B} (m : M A) (k : A -> M B) h b h' :
  bind m k h = (Normal b, h') ->
  exists a h1, m h = (Normal a, h1) /\ k a h1 = (Normal b, h').
Proof.
  unfold bind. destruct (m h) as [[a|e] h1]; [eauto | discriminate].
Qed.

Lemma lift_Normal_inv {A} (c : completion A) h a h1 :
  lift c h = (Normal a, h1) -> c = Normal a /\ h1 = h.
Proof. unfold lift. now intros [= -> ->]. Qed.

Lemma update_this_Normal_inv this f h u h1 :
  update_this this f h = (Normal u, h1) ->
  exists t, store h !! this = Some (OTemplate t)
    /\ h1 = mkHeap (<[this := OTemplate (f t)]> (store h)) (next h).
Proof.
  intros E. apply update_this_inv in E as [[[=] _]|(t & Ht & _ & ->)]. eauto.
Qed.

(** A Template that [new Template] hands out is at a fresh location, has
    the requested style and the default key path, and refers to a new,
    empty image collection allocated right after it. *)
Lemma Template_new_returns s fieldsArg h l h' :
  Template_new s fieldsArg h = (Normal l, h') ->
  l = next h /\ In s PASS_STYLES /\ next h' = S (S l) /\
  exists t, store h' !! l = Some (OTemplate t) /\ style t = s
    /\ keysPath t = VStr "keys" /\ images t = Some (S l)
    /\ store h' !! S l = Some (OImages PassImages_new).
Proof.
  unfold Template_new. destruct (JS.string_in s PASS_STYLES) eqn:Hs;
    [|discriminate]. apply string_in_In in Hs. cbn [negb].
  intros Hrun.
  apply bind_Normal_inv in Hrun as (this & h0 & Halloc & Hrun).
  unfold alloc in Halloc. injection Halloc as <- <-.
  apply bind_Normal_inv in Hrun as (entries & ? & [_ ->]%lift_Normal_inv & Hrun).
  apply bind_Normal_inv in Hrun as ([] & h1 & Hfor & Hrun).
  assert (Hh1 : under_construction (next h) s (S (next h)) h1).
  { replace h1 with (forEach entries (apply_field (next h))
                       (mkHeap (<[next h := OTemplate (mkTemplate s ∅ VUndefined VUndefined None)]>
                                  (store h)) (S (next h)))).2
      by now rewrite Hfor.
    apply keeps_forEach; [intros; apply keeps_apply_field_style|].
    split; [|reflexivity]. eexists. split; [apply lookup_insert_eq | reflexivity]. }
  destruct Hh1 as [(t1 & Ht1 & Hs1) Hn1].
  apply bind_Normal_inv in Hrun as ([] & h2 & Hup & Hrun).
  apply update_this_Normal_inv in Hup as (t1' & Ht1' & ->).
  rewrite Ht1 in Ht1'. injection Ht1' as <-.
  apply bind_Normal_inv in Hrun as (img & h3 & Halloc & Hrun).
  unfold alloc in Halloc. simpl in Halloc. injection Halloc as <- <-.
  apply bind_Normal_inv in Hrun as ([] & h4 & Hup & Hrun).
  apply update_this_Normal_inv in Hup as (t3 & Ht3 & ->).
  simpl in Ht3. rewrite Hn1 in Ht3.
  rewrite lookup_insert_ne, lookup_insert_eq in Ht3 by lia.
  injection Ht3 as <-. unfold ret in Hrun. injection Hrun as <- <-.
  simpl. rewrite Hn1. repeat split; [assumption|].
  eexists. split; [apply lookup_insert_eq|]. simpl.
  repeat split; [assumption|].
  rewrite lookup_insert_ne, lookup_insert_eq by lia. reflexivity.
Qed.

Lemma bind_Normal {A B} (m : M A) (k : A -> M B) h a h1 :
  m h = (Normal a, h1) -> bind m k h = k a h1.
Proof. intros E. unfold bind. now rewrite E. Qed.

Lemma bind_Throw {A B} (m : M A) (k : A -> M B) h e h1 :
  m h = (Throw e, h1) -> bind m k h = (Throw e, h1).
Proof. intros E. unfold bind. now rewrite E. Qed.

Lemma heap_eta h : mkHeap (store h) (next h) = h.
Proof. now destruct h. Qed.

Lemma set_fields_same t : set_fields (fields t) t = t.
Proof. now destruct t. Qed.

Lemma callable_member_None_stored_form k v :
  callable_member k = None -> stored_form k v = None.
Proof.
  unfold callable_member, stored_form. rewrite accessor_of_validator.
  destruct (validator_of k); [discriminate | reflexivity].
Qed.

Lemma apply_field_benign this entry h t :
  benign entry -> store h !! this = Some (OTemplate t) ->
  exists h', apply_field this entry h = (Normal tt, h')
    /\ next h' = next h
    /\ store h' = <[this := OTemplate (set_fields (store_entry (fields t) entry) t)]>
                    (store h).
Proof.
  intros [[x Hx]|Hnone] Ht; unfold apply_field, store_entry.
  - rewrite Hx. unfold stored_form in Hx. unfold callable_member.
    rewrite accessor_of_validator.
    destruct (validator_of entry.1) as [check|]; [|discriminate].
    destruct (check entry.2) as [y|] eqn:Hc; [|discriminate].
    injection Hx as ->. cbn [option_map].
    rewrite (bind_Normal _ _ _ _ _ (accessor_store _ _ _ _ _ _ _ Ht Hc)).
    eexists. split; [reflexivity|]. split; reflexivity.
  - rewrite Hnone, (callable_member_None_stored_form _ _ Hnone), set_fields_same.
    exists h. split; [reflexivity|]. split; [reflexivity|].
    symmetry. now apply insert_id.
Qed.

Lemma forEach_benign this entries h t :
  Forall benign entries -> store h !! this = Some (OTemplate t) ->
  exists h', forEach entries (apply_field this) h = (Normal tt, h')
    /\ next h' = next h
    /\ store h' = <[this := OTemplate (set_fields (foldl store_entry (fields t) entries) t)]>
                    (store h).
Proof.
  intros Hall. revert h t. induction Hall as [|entry entries Hb _ IH]; intros h t Ht.
  - exists h. split; [reflexivity|]. split; [reflexivity|].
    simpl. rewrite set_fields_same. symmetry. now apply insert_id.
  - destruct (apply_field_benign this entry h t Hb Ht) as (h1 & Hrun & Hn & Hst).
    destruct (IH h1 (set_fields (store_entry (fields t) entry) t))
      as (h2 & Hrun2 & Hn2 & Hst2).
    { rewrite Hst. apply lookup_insert_eq. }
    exists h2. simpl forEach. rewrite (bind_Normal _ _ _ _ _ Hrun).
    split; [exact Hrun2|]. split; [congruence|].
    rewrite Hst2, Hst, insert_insert_eq. reflexivity.
Qed.

(** [new Template(style, fields)] when every entry of [fields] is benign:
    the Template holds what the accessors stored. *)
Lemma Template_new_benign s fieldsArg entries h :
  In s PASS_STYLES ->
  Obj.entries (Obj.default_empty fieldsArg) = Normal entries ->
  Forall benign entries ->
  exists h', Template_new s fieldsArg h = (Normal (next h), h')
    /\ next h' = S (S (next h))
    /\ store h'
       = <[next h := OTemplate (mkTemplate s (foldl store_entry ∅ entries)
                                  (VStr "keys") VUndefined (Some (S (next h))))]>
           (<[S (next h) := OImages PassImages_new]> (store h)).
Proof.
  intros Hs%string_in_In Hent Hall. unfold Template_new. rewrite Hs. cbn [negb].
  set (t0 := mkTemplate s ∅ VUndefined VUndefined None).
  set (h0 := mkHeap (<[next h := OTemplate t0]> (store h)) (S (next h))).
  rewrite (bind_Normal _ _ h (next h) h0) by reflexivity.
  rewrite (bind_Normal _ _ h0 entries h0) by (unfold lift; now rewrite Hent).
  destruct (forEach_benign (next h) entries h0 t0 Hall) as (h1 & Hrun & Hn & Hst).
  { apply lookup_insert_eq. }
  rewrite (bind_Normal _ _ _ _ _ Hrun).
  erewrite (bind_Normal _ _ h1);
    [|apply update_this_template; rewrite Hst; apply lookup_insert_eq].
  erewrite bind_Normal by reflexivity.
  erewrite bind_Normal.
  2:{ apply update_this_template. simpl. rewrite Hn. simpl.
      rewrite lookup_insert_ne by lia. apply lookup_insert_eq. }
  eexists. split; [reflexivity|].
  simpl. rewrite Hn, Hst. simpl. split; [reflexivity|].
  apply map_eq. intros i. rewrite !lookup_insert.
  repeat case_decide; try reflexivity; lia.
Qed.

(** *** Style detection *)

Lemma some_style_object props styles :
  (forall t, In t styles -> ~ In t JS.Object_prototype_names) ->
  some_style (VObj props) styles = Normal (find (JS.own_has props) styles).
Proof.
  induction styles as [|t styles IH]; intros Hproto; [reflexivity|].
  cbn [some_style has_property find].
  assert (Ht : JS.string_in t JS.Object_prototype_names = false).
  { apply string_in_not_In, Hproto. now left. }
  rewrite Ht, orb_false_r.
  destruct (JS.own_has props t); [reflexivity|].
  apply IH. intros t' Ht'. apply Hproto. now right.
Qed.

Lemma find_first {A} (p : A -> bool) l x :
  find p l = Some x
  <-> exists pre post : list A, l = (pre ++ x :: post)%list /\ p x = true
        /\ forall y, In y pre -> p y = false.
Proof.
  induction l as [|a l IH]; simpl.
  - split; [discriminate|]. intros (pre & post & Hl & _). now destruct pre.
  - destruct (p a) eqn:Ha.
    + split.
      * intros [= ->]. exists [], l. simpl. tauto.
      * intros ([|b pre] & post & [= -> ->] & Hx & Hpre); [reflexivity|].
        specialize (Hpre b (or_introl eq_refl)). congruence.
    + rewrite IH. split.
      * intros (pre & post & -> & Hx & Hpre). exists (a :: pre), post.
        simpl. split; [reflexivity|]. split; [assumption|].
        intros y [<-|Hy]; auto.
      * intros ([|b pre] & post & [= -> ->] & Hx & Hpre); [congruence|].
        exists pre, post. split; [reflexivity|]. split; [assumption|].
        intros y Hy. apply Hpre. now right.
Qed.

Lemma find_none_iff {A} (p : A -> bool) l :
  find p l = None <-> forall y, In y l -> p y = false.
Proof.
  induction l as [|a l IH]; simpl; [tauto|].
  destruct (p a) eqn:Ha.
  - split; [discriminate|]. intros Hall. specialize (Hall a (or_introl eq_refl)).
    congruence.
  - rewrite IH. split; [intros Hl y [<-|Hy]; auto | auto].
Qed.

End Steps.

(** ** The loader *)

Section Loader.
Context `{Host}.

(** [load] is its first five steps followed by the key probe. *)
Lemma load_unfold folderPath keyPassword h :
  load folderPath keyPassword h
  = match load_bundle folderPath h with
    | (Normal (passJson, template), h1) =>
        (keyName <- lift (key_name (get_passTypeIdentifier passJson)) ;;
         probe_key template folderPath keyName keyPassword ;;
         ret template) h1
    | (Throw e, h1) => (Throw e, h1)
    end.
Proof.
  unfold load, load_bundle, bind, lift, throw, ret.
  destruct (statAsync folderPath) as [stats|e]; [|reflexivity].
  destruct (negb (isDirectory stats)); [reflexivity|].
  destruct (readFileAsync _) as [content|e]; [|reflexivity].
  destruct (JSON_parse content) as [passJson|e]; [|reflexivity].
  destruct (detect_style passJson) as [type|e]; [|reflexivity].
  destruct (Template_new type passJson h) as [[template|e] h1]; [|reflexivity].
  destruct (images_loadFromDirectory template folderPath h1) as [[[]|e] h2];
    reflexivity.
Qed.

Lemma keys_template this path pw h t :
  store h !! this = Some (OTemplate t) ->
  keys this [path; pw] h
  = (Normal tt,
     mkHeap (<[this := OTemplate (configure_keys path pw t)]> (store h)) (next h)).
Proof.
  intros Ht. unfold keys, configure_keys. cbn [Obj.arg nth].
  destruct (JS.ToBoolean path), (JS.ToBoolean pw).
  - erewrite bind_Normal by (apply update_this_template; exact Ht).
    rewrite (update_this_template _ _ (set_keysPath path t))
      by apply lookup_insert_eq.
    simpl. now rewrite insert_insert_eq.
  - erewrite bind_Normal by (apply update_this_template; exact Ht). reflexivity.
  - erewrite bind_Normal by reflexivity. apply update_this_template; exact Ht.
  - erewrite bind_Normal by reflexivity. unfold ret.
    now rewrite insert_id, heap_eta.
Qed.

(** The probe never throws: it leaves a found key configured and
    anything else as it was. *)
Lemma probe_key_template this folderPath keyName pw h t :
  store h !! this = Some (OTemplate t) ->
  probe_key this folderPath keyName pw h
  = (Normal tt,
     mkHeap (<[this := OTemplate (if key_found keyName
                                  then configure_keys (VStr folderPath) pw t
                                  else t)]> (store h)) (next h)).
Proof.
  intros Ht. unfold probe_key, try_catch, key_found, bind, lift.
  destruct (statAsync keyName) as [keyStat|e].
  - destruct (isFile keyStat).
    + now rewrite (keys_template _ _ _ _ _ Ht).
    + unfold ret. now rewrite insert_id, heap_eta.
  - unfold ret. now rewrite insert_id, heap_eta.
Qed.

Lemma probe_key_returns this folderPath keyName pw h :
  exists h', probe_key this folderPath keyName pw h = (Normal tt, h').
Proof.
  unfold probe_key, try_catch.
  destruct (bind _ _ h) as [[[]|e] h1]; unfold ret; eauto.
Qed.

Lemma keeps_probe_key_style this s n template folderPath keyName pw :
  keeps (under_construction this s n) (probe_key template folderPath keyName pw).
Proof.
  unfold probe_key. apply keeps_try_catch; [|intros; apply keeps_ret].
  apply keeps_bind; [apply keeps_lift | intros keyStat].
  apply keeps_if; [apply keeps_keys_style | apply keeps_ret].
Qed.

Lemma images_loadFromDirectory_template template folderPath h t img i i' :
  store h !! template = Some (OTemplate t) -> images t = Some img ->
  store h !! img = Some (OImages i) -> loadFromDirectory folderPath i = Normal i' ->
  images_loadFromDirectory template folderPath h
  = (Normal tt, mkHeap (<[img := OImages i']> (store h)) (next h)).
Proof.
  intros Ht Himg Hi Hload. unfold images_loadFromDirectory.
  rewrite (bind_Normal _ _ _ _ _ (read_this_template _ _ _ Ht)).
  now rewrite Himg, Hi, Hload.
Qed.

Lemma keeps_images_loadFromDirectory_style this s n template folderPath :
  keeps (under_construction this s n) (images_loadFromDirectory template folderPath).
Proof.
  unfold images_loadFromDirectory.
  apply keeps_bind; [apply keeps_read_this | intros t].
  destruct (images t) as [img|]; [|apply keeps_throw].
  intros h [(t' & Ht' & Hs) Hn].
  destruct (store h !! img) as [[?|i]|] eqn:Hi; try (now split; [exists t'|]).
  destruct (loadFromDirectory folderPath i); [|now split; [exists t'|]].
  split; [|exact Hn]. exists t'. simpl. split; [|exact Hs].
  rewrite lookup_insert_ne; [exact Ht' | congruence].
Qed.

(** What a successful [load] went through, and what it hands out. *)
Lemma load_returns folderPath keyPassword h l h' :
  load folderPath keyPassword h = (Normal l, h') ->
  exists stats content passJson type id,
    statAsync folderPath = Normal stats /\ isDirectory stats = true
    /\ readFileAsync (path_join folderPath "pass.json") = Normal content
    /\ JSON_parse content = Normal passJson
    /\ detect_style passJson = Normal type
    /\ get_passTypeIdentifier passJson = VStr id
    /\ l = next h /\ has_style l type h'.
Proof.
  unfold load. intros Hrun.
  apply bind_Normal_inv in Hrun as (stats & ? & [Hstat ->]%lift_Normal_inv & Hrun).
  destruct (isDirectory stats) eqn:Hdir; [|discriminate]. cbn [negb] in Hrun.
  apply bind_Normal_inv in Hrun as (content & ? & [Hread ->]%lift_Normal_inv & Hrun).
  apply bind_Normal_inv in Hrun as (passJson & ? & [Hparse ->]%lift_Normal_inv & Hrun).
  apply bind_Normal_inv in Hrun as (type & ? & [Htype ->]%lift_Normal_inv & Hrun).
  apply bind_Normal_inv in Hrun as (template & h1 & Hnew & Hrun).
  apply bind_Normal_inv in Hrun as ([] & h2 & Himg & Hrun).
  apply bind_Normal_inv in Hrun as (keyName & ? & [Hkey ->]%lift_Normal_inv & Hrun).
  apply bind_Normal_inv in Hrun as ([] & h3 & Hprobe & Hrun).
  unfold ret in Hrun. injection Hrun as <- <-.
  destruct (get_passTypeIdentifier passJson) as [| | | |id| | |] eqn:Hid;
    try discriminate.
  exists stats, content, passJson, type, id.
  apply Template_new_returns in Hnew as (-> & _ & Hn & t & Ht & Hs & _).
  repeat split; try assumption.
  assert (Hu : under_construction (next h) type (next h1) h1)
    by (split; [now exists t | reflexivity]).
  apply (keeps_images_loadFromDirectory_style _ _ _ (next h) folderPath) in Hu.
  rewrite Himg in Hu. simpl in Hu.
  apply (keeps_probe_key_style _ _ _ (next h) folderPath keyName keyPassword) in Hu.
  rewrite Hprobe in Hu. apply Hu.
Qed.

(** [load] on a bundle whose definition has only benign entries and a
    string identifier: the Template it hands out. *)
Lemma load_benign folderPath keyPassword h stats content props type id imgs :
  statAsync folderPath = Normal stats -> isDirectory stats = true ->
  readFileAsync (path_join folderPath "pass.json") = Normal content ->
  JSON_parse content = Normal (VObj props) ->
  detect_style (VObj props) = Normal type ->
  In type PASS_STYLES ->
  Forall benign props ->
  loadFromDirectory folderPath PassImages_new = Normal imgs ->
  JS.own_get props "passTypeIdentifier" = Some (VStr id) ->
  exists h',
    load folderPath keyPassword h = (Normal (next h), h')
    /\ store h' !! next h
       = Some (OTemplate
                 ((if key_found (strip_pass_prefix id +:+ ".pem")
                   then configure_keys (VStr folderPath) keyPassword
                   else fun t => t)
                    (mkTemplate type (foldl store_entry ∅ props) (VStr "keys")
                       VUndefined (Some (S (next h))))))
    /\ store h' !! S (next h) = Some (OImages imgs).
Proof.
  intros Hstat Hdir Hread Hparse Htype Hin Hall Himgs Hid.
  destruct (Template_new_benign type (VObj props) props h Hin eq_refl Hall)
    as (h1 & Hnew & Hn1 & Hst1).
  unfold load.
  rewrite (bind_Normal _ _ h stats h) by (unfold lift; now rewrite Hstat).
  rewrite Hdir. cbn [negb].
  rewrite (bind_Normal _ _ h content h) by (unfold lift; now rewrite Hread).
  rewrite (bind_Normal _ _ h (VObj props) h) by (unfold lift; now rewrite Hparse).
  rewrite (bind_Normal _ _ h type h) by (unfold lift; now rewrite Htype).
  rewrite (bind_Normal _ _ _ _ _ Hnew).
  erewrite bind_Normal.
  2:{ eapply images_loadFromDirectory_template; [| |rewrite Hst1|exact Himgs].
      - rewrite Hst1. apply lookup_insert_eq.
      - reflexivity.
      - rewrite lookup_insert_ne by lia. apply lookup_insert_eq. }
  unfold get_passTypeIdentifier. rewrite Hid. cbn [default from_option key_name].
  erewrite bind_Normal by reflexivity.
  erewrite bind_Normal.
  2:{ apply probe_key_template. simpl. rewrite Hst1.
      rewrite lookup_insert_ne by lia. apply lookup_insert_eq. }
  eexists. split; [reflexivity|]. simpl. rewrite Hst1. split.
  - rewrite lookup_insert_eq. now destruct (key_found _).
  - rewrite lookup_insert_ne, lookup_insert_eq by lia. reflexivity.
Qed.

Lemma detect_style_object props :
  (forall t, In t PASS_STYLES -> ~ In t JS.Object_prototype_names) ->
  detect_style (VObj props)
  = match find (JS.own_has props) PASS_STYLES with
    | Some type => Normal type
    | None => Throw (Error "Unknown pass style!")
    end.
Proof. intros Hproto. unfold detect_style. now rewrite some_style_object. Qed.

Lemma find_only (p : string -> bool) l x :
  In x l -> p x = true -> (forall y, In y l -> y <> x -> p y = false) ->
  find p l = Some x.
Proof.
  induction l as [|a l IH]; simpl; [tauto|]. intros Hin Hx Hothers.
  destruct (p a) eqn:Ha.
  - f_equal. destruct (String.eqb_spec a x) as [|Hne]; [assumption|].
    rewrite (Hothers a (or_introl eq_refl) Hne) in Ha. discriminate.
  - apply IH; [|assumption|auto]. destruct Hin as [->|]; [congruence | assumption].
Qed.

Lemma own_has_false props k : JS.own_has props k = false <-> ~ In k (map fst props).
Proof.
  rewrite <- ObjFacts.own_has_In. destruct (JS.own_has props k); split; congruence.
Qed.

(** With distinct keys, the fields built from the entries of a definition
    hold, under each key, what the accessor of that name stores. *)
Lemma foldl_store_entry_lookup props (f : gmap string value) k :
  List.NoDup (map fst props) ->
  foldl store_entry f props !! k
  = match JS.own_get props k with
    | Some v =>
        match stored_form k v with
        | Some x => Some x
        | None => f !! k
        end
    | None => f !! k
    end.
Proof.
  revert f. induction props as [|[k' v'] props IH]; intros f Hnd; [reflexivity|].
  inversion Hnd as [|? ? Hk Hnd']; subst. simpl foldl. rewrite (IH _ Hnd').
  simpl JS.own_get. unfold store_entry at 1 2. simpl fst. simpl snd.
  destruct (String.eqb_spec k' k) as [->|Hne].
  - apply ObjFacts.own_get_None in Hk. rewrite Hk.
    destruct (stored_form k v'); [apply lookup_insert_eq | reflexivity].
  - assert (Hf : (match stored_form k' v' with
                  | Some x => <[k' := x]> f
                  | None => f
                  end) !! k = f !! k).
    { destruct (stored_form k' v'); [now apply lookup_insert_ne | reflexivity]. }
    rewrite Hf. reflexivity.
Qed.

Lemma load_fails_at_read folderPath pw h stats e :
  statAsync folderPath = Normal stats -> isDirectory stats = true ->
  readFileAsync (path_join folderPath "pass.json") = Throw e ->
  load folderPath pw h = (Throw e, h).
Proof.
  intros Hstat Hdir Hread. unfold load, bind, lift.
  now rewrite Hstat, Hdir, Hread.
Qed.

Lemma load_fails_at_parse folderPath pw h stats content e :
  statAsync folderPath = Normal stats -> isDirectory stats = true ->
  readFileAsync (path_join folderPath "pass.json") = Normal content ->
  JSON_parse content = Throw e ->
  load folderPath pw h = (Throw e, h).
Proof.
  intros Hstat Hdir Hread Hparse. unfold load, bind, lift.
  now rewrite Hstat, Hdir, Hread, Hparse.
Qed.

Lemma load_fails_at_style folderPath pw h stats content passJson e :
  statAsync folderPath = Normal stats -> isDirectory stats = true ->
  readFileAsync (path_join folderPath "pass.json") = Normal content ->
  JSON_parse content = Normal passJson ->
  detect_style passJson = Throw e ->
  load folderPath pw h = (Throw e, h).
Proof.
  intros Hstat Hdir Hread Hparse Hstyle. unfold load, bind, lift.
  now rewrite Hstat, Hdir, Hread, Hparse, Hstyle.
Qed.

Lemma configured_style (found : bool) path pw t :
  style ((if found then configure_keys path pw else fun t => t) t) = style t.
Proof.
  unfold configure_keys.
  now destruct found, (JS.ToBoolean path), (JS.ToBoolean pw).
Qed.

Lemma configured_fields (found : bool) path pw t :
  fields ((if found then configure_keys path pw else fun t => t) t) = fields t.
Proof.
  unfold configure_keys.
  now destruct found, (JS.ToBoolean path), (JS.ToBoolean pw).
Qed.

Lemma validator_accessor name check :
  validator_of name = Some check ->
  exists f, callable_member name = Some f.
Proof.
  intros Hv. unfold callable_member. rewrite accessor_of_validator, Hv.
  cbn [option_map]. eauto.
Qed.

(** What an accessor stores: the value it was given, except for
    [webServiceURL], which stores the serialization of an https URL. *)
Lemma stored_form_cases name v x :
  stored_form name v = Some x ->
  In name field_names
  /\ (name <> "webServiceURL" -> x = v)
  /\ (name = "webServiceURL" ->
      exists u, as_URL v = Normal u /\ protocol u = "https:" /\ x = VStr (href u)).
Proof.
  unfold stored_form. destruct (validator_of name) as [check|] eqn:Hv; [|discriminate].
  destruct (check v) as [y|] eqn:Hc; [|discriminate]. intros [= ->].
  split; [apply validator_of_field; eauto|].
  unfold validator_of in Hv.
  destruct (String.eqb_spec name "foregroundColor") as [->|_].
  { injection Hv as <-. unfold check_color in Hc.
    destruct (validateColorValue v); [|discriminate]. injection Hc as <-.
    split; [reflexivity | discriminate]. }
  destruct (String.eqb_spec name "labelColor") as [->|_].
  { injection Hv as <-. unfold check_color in Hc.
    destruct (validateColorValue v); [|discriminate]. injection Hc as <-.
    split; [reflexivity | discriminate]. }
  destruct (String.eqb_spec name "suppressStripShine") as [->|_].
  { injection Hv as <-. unfold check_boolean in Hc.
    destruct (JS.is_boolean v); [|discriminate]. injection Hc as <-.
    split; [reflexivity | discriminate]. }
  destruct (String.eqb_spec name "webServiceURL") as [->|Hne].
  { injection Hv as <-. split; [congruence|]. intros _.
    exact (check_url_inv _ _ Hc). }
  destruct (JS.string_in name field_names); [|discriminate].
  injection Hv as <-. injection Hc as <-. split; [reflexivity | contradiction].
Qed.

Lemma benign_field_stored k v :
  benign (k, v) -> In k field_names -> is_Some (stored_form k v).
Proof.
  intros [Hs|Hnone] [check Hc]%validator_of_field; [exact Hs|].
  destruct (validator_accessor _ _ Hc) as [f Hf]. simpl in Hnone. congruence.
Qed.

Lemma load_throws_at_key_name folderPath pw h passJson template h1 :
  load_bundle folderPath h = (Normal (passJson, template), h1) ->
  (forall id, get_passTypeIdentifier passJson <> VStr id) ->
  load folderPath pw h = (Throw TypeError, h1).
Proof.
  intros Hbundle Hid. rewrite load_unfold, Hbundle.
  apply bind_Throw. unfold lift.
  destruct (get_passTypeIdentifier passJson); try reflexivity.
  now destruct (Hid s).
Qed.

End Loader.

(** ** Frames and heap discipline *)

Section Discipline.
Context `{Host}.

Lemma keeps_and (P Q : heap -> Prop) {A} (m : M A) :
  keeps P m -> keeps Q m -> keeps (fun h => P h /\ Q h) m.
Proof. intros HP HQ h [Hp Hq]. split; [now apply HP | now apply HQ]. Qed.

Lemma same_but_refl this h : same_but this h h.
Proof. now split. Qed.

(** *** What a method call on [this] leaves alone *)

Lemma keeps_same_but_update this h0 f :
  keeps (same_but this h0) (update_this this f).
Proof.
  intros h [Hn Hst]. destruct (update_this this f h) as [c h1] eqn:E.
  apply update_this_inv in E as [[_ ->]|(t & _ & _ & ->)]; [now split|].
  split; [exact Hn|]. intros l Hl. simpl. rewrite lookup_insert_ne by congruence.
  now apply Hst.
Qed.

Lemma keeps_same_but_accessor this h0 name check args :
  keeps (same_but this h0) (accessor name check this args).
Proof.
  unfold accessor.
  destruct args as [|v [|v' args]];
    try (apply keeps_bind; [apply keeps_read_this | intros; apply keeps_ret]).
  apply keeps_bind; [apply keeps_lift | intros x].
  apply keeps_bind; [|intros; apply keeps_ret].
  apply keeps_same_but_update.
Qed.

Lemma keeps_same_but_keys this h0 args :
  keeps (same_but this h0) (keys this args).
Proof.
  unfold keys. apply keeps_bind; [|intros _];
    (apply keeps_if; [|apply keeps_ret]); apply keeps_same_but_update.
Qed.

Lemma keeps_same_but_callable this h0 field f args :
  callable_member field = Some f -> keeps (same_but this h0) (f this args).
Proof.
  unfold callable_member.
  destruct (accessor_of field) as [g|] eqn:Hg.
  { apply accessor_of_Some in Hg as (check & _ & ->). intros [= <-].
    apply keeps_bind; [apply keeps_same_but_accessor | intros; apply keeps_ret]. }
  destruct (String.eqb field "keys"); [intros [= <-]; apply keeps_same_but_keys|].
  destruct (String.eqb field "createPass").
  { intros [= <-]. apply keeps_bind;
      [apply keeps_createPass | intros; apply keeps_ret]. }
  repeat match goal with
         | |- context [JS.string_in field ?l] => destruct (JS.string_in field l)
         end; simpl; try discriminate; intros [= <-];
    first [ apply keeps_throw
          | apply keeps_ret
          | apply keeps_bind; [apply keeps_lift | intros; apply keeps_ret] ].
Qed.

Lemma keeps_same_but_apply_field this h0 entry :
  keeps (same_but this h0) (apply_field this entry).
Proof.
  unfold apply_field. destruct (callable_member entry.1) as [f|] eqn:E.
  - now apply (keeps_same_but_callable _ _ entry.1).
  - apply keeps_ret.
Qed.

(** *** Discipline is kept *)

Lemma disciplined_update h this t t' :
  disciplined h -> store h !! this = Some (OTemplate t) ->
  images t' = images t ->
  disciplined (mkHeap (<[this := OTemplate t']> (store h)) (next h)).
Proof.
  intros [Hwf Hown] Ht Himg. split.
  - intros l. simpl. destruct (decide (this = l)) as [<-|Hl].
    + intros _. apply Hwf. now exists (OTemplate t).
    + rewrite lookup_insert_ne by exact Hl. apply Hwf.
  - intros l t1. simpl. destruct (decide (this = l)) as [<-|Hl].
    + rewrite lookup_insert_eq. intros [= <-]. rewrite Himg.
      destruct (Hown _ _ Ht) as [Hnone|[Hsome (i & Hi)]]; [now left|].
      right. split; [exact Hsome|]. exists i.
      rewrite lookup_insert_ne by lia. exact Hi.
    + rewrite lookup_insert_ne by exact Hl.
      intros Ht1. destruct (Hown _ _ Ht1) as [Hnone|[Hsome (i & Hi)]]; [now left|].
      right. split; [exact Hsome|]. exists i.
      rewrite lookup_insert_ne; [exact Hi|]. intros ->.
      discriminate (eq_trans (eq_sym Ht) Hi).
Qed.

Lemma keeps_disciplined_update this f :
  (forall t, images (f t) = images t) -> keeps disciplined (update_this this f).
Proof.
  intros Hf h Hh. destruct (update_this this f h) as [c h1] eqn:E.
  apply update_this_inv in E as [[_ ->]|(t & Ht & _ & ->)]; [exact Hh|].
  now apply (disciplined_update h this t).
Qed.

Lemma keeps_disciplined_accessor name check this args :
  keeps disciplined (accessor name check this args).
Proof.
  unfold accessor.
  destruct args as [|v [|v' args]];
    try (apply keeps_bind; [apply keeps_read_this | intros; apply keeps_ret]).
  apply keeps_bind; [apply keeps_lift | intros x].
  apply keeps_bind; [|intros; apply keeps_ret].
  now apply keeps_disciplined_update.
Qed.

Lemma keeps_disciplined_keys this args : keeps disciplined (keys this args).
Proof.
  unfold keys. apply keeps_bind; [|intros _];
    (apply keeps_if; [|apply keeps_ret]); now apply keeps_disciplined_update.
Qed.

Lemma keeps_disciplined_callable field f this args :
  callable_member field = Some f -> keeps disciplined (f this args).
Proof.
  unfold callable_member.
  destruct (accessor_of field) as [g|] eqn:Hg.
  { apply accessor_of_Some in Hg as (check & _ & ->). intros [= <-].
    apply keeps_bind; [apply keeps_disciplined_accessor | intros; apply keeps_ret]. }
  destruct (String.eqb field "keys"); [intros [= <-]; apply keeps_disciplined_keys|].
  destruct (String.eqb field "createPass").
  { intros [= <-]. apply keeps_bind;
      [apply keeps_createPass | intros; apply keeps_ret]. }
  repeat match goal with
         | |- context [JS.string_in field ?l] => destruct (JS.string_in field l)
         end; simpl; try discriminate; intros [= <-];
    first [ apply keeps_throw
          | apply keeps_ret
          | apply keeps_bind; [apply keeps_lift | intros; apply keeps_ret] ].
Qed.

Lemma keeps_disciplined_apply_field this entry :
  keeps disciplined (apply_field this entry).
Proof.
  unfold apply_field. destruct (callable_member entry.1) as [f|] eqn:E.
  - now apply (keeps_disciplined_callable entry.1).
  - apply keeps_ret.
Qed.

Lemma disciplined_alloc h o :
  disciplined h ->
  (forall t, o = OTemplate t -> images t = None) ->
  disciplined (mkHeap (<[next h := o]> (store h)) (S (next h))).
Proof.
  intros [Hwf Hown] Ho. split.
  - intros l. simpl. destruct (decide (next h = l)) as [<-|Hl]; [lia|].
    rewrite lookup_insert_ne by exact Hl.
    intros Hs. specialize (Hwf l Hs). lia.
  - intros l t. simpl. destruct (decide (next h = l)) as [<-|Hl].
    + rewrite lookup_insert_eq. intros [= ->]. left. now apply Ho.
    + rewrite lookup_insert_ne by exact Hl.
      intros Ht. destruct (Hown _ _ Ht) as [Hnone|[Hsome (i & Hi)]]; [now left|].
      right. split; [exact Hsome|]. exists i.
      rewrite lookup_insert_ne; [exact Hi|].
      assert (S l < next h) by (apply Hwf; now exists (OImages i)). lia.
Qed.

Lemma disciplined_images h img i i' :
  disciplined h -> store h !! img = Some (OImages i) ->
  disciplined (mkHeap (<[img := OImages i']> (store h)) (next h)).
Proof.
  intros [Hwf Hown] Hi. split.
  - intros l. simpl. destruct (decide (img = l)) as [<-|Hl].
    + intros _. apply Hwf. now exists (OImages i).
    + rewrite lookup_insert_ne by exact Hl. apply Hwf.
  - intros l t. simpl. destruct (decide (img = l)) as [<-|Hl].
    + rewrite lookup_insert_eq. discriminate.
    + rewrite lookup_insert_ne by exact Hl.
      intros Ht. destruct (Hown _ _ Ht) as [Hnone|[Hsome (j & Hj)]]; [now left|].
      right. split; [exact Hsome|].
      destruct (decide (img = S l)) as [<-|Hl'].
      * rewrite lookup_insert_eq. eauto.
      * rewrite lookup_insert_ne by exact Hl'. eauto.
Qed.

(** *** The constructor, piece by piece *)

Lemma Template_new_unfold s fieldsArg h :
  Template_new s fieldsArg h
  = if negb (JS.string_in s PASS_STYLES)
    then (Throw (Error ("Unsupported pass style " +:+ s)), h)
    else
      let h0 := mkHeap (<[next h := OTemplate (mkTemplate s ∅ VUndefined VUndefined None)]>
                          (store h)) (S (next h)) in
      match Obj.entries (Obj.default_empty fieldsArg) with
      | Throw e => (Throw e, h0)
      | Normal entries =>
          match forEach entries (apply_field (next h)) h0 with
          | (Normal _, h1) => finish_construction (next h) h1
          | (Throw e, h1) => (Throw e, h1)
          end
      end.
Proof.
  unfold Template_new. destruct (negb (JS.string_in s PASS_STYLES)); [reflexivity|].
  unfold bind at 1. unfold alloc at 1. cbv zeta.
  unfold bind at 1. unfold lift.
  destruct (Obj.entries (Obj.default_empty fieldsArg)) as [entries|e]; [|reflexivity].
  unfold bind at 1. now destruct (forEach entries _ _) as [[[]|e] h1].
Qed.

Lemma finish_construction_run this h t :
  store h !! this = Some (OTemplate t) -> next h = S this ->
  finish_construction this h
  = (Normal this,
     mkHeap (<[this := OTemplate (set_images (S this) (set_keysPath (VStr "keys") t))]>
               (<[S this := OImages PassImages_new]> (store h)))
            (S (S this))).
Proof.
  intros Ht Hn. unfold finish_construction.
  rewrite (bind_Normal _ _ _ _ _ (update_this_template _ _ _ _ Ht)).
  erewrite bind_Normal by reflexivity.
  erewrite bind_Normal.
  2:{ apply update_this_template. simpl. rewrite Hn.
      rewrite lookup_insert_ne by lia. apply lookup_insert_eq. }
  unfold ret. simpl. rewrite Hn. f_equal. f_equal.
  apply map_eq. intros i. rewrite !lookup_insert.
  repeat case_decide; try reflexivity; lia.
Qed.

Lemma finish_construction_inv this h c h' :
  finish_construction this h = (c, h') ->
  (exists t, store h !! this = Some (OTemplate t)) \/ (c = Throw TypeError /\ h' = h).
Proof.
  destruct (store h !! this) as [[t|i]|] eqn:E; [eauto| |];
    unfold finish_construction, bind, update_this, bind, read_this; rewrite E;
    intros [= <- <-]; auto.
Qed.

(** While the initial fields are applied. *)

Lemma valid_fields_of_template h this t :
  building this (style t) h -> store h !! this = Some (OTemplate t) ->
  valid_fields (fields t).
Proof.
  intros (_ & t' & Ht' & _ & _ & _ & Hv) Ht.
  rewrite Ht in Ht'. now injection Ht' as <-.
Qed.

Lemma keeps_building_update this s f :
  (forall t, style (f t) = style t /\ password (f t) = password t
             /\ images (f t) = images t
             /\ (valid_fields (fields t) -> valid_fields (fields (f t)))) ->
  keeps (building this s) (update_this this f).
Proof.
  intros Hf h (Hn & t & Ht & Hs & Hp & Hi & Hv).
  rewrite (update_this_template _ _ _ _ Ht). simpl.
  destruct (Hf t) as (Hs' & Hp' & Hi' & Hv').
  split; [exact Hn|]. exists (f t). simpl.
  split; [apply lookup_insert_eq|]. repeat split; try congruence. auto.
Qed.

Lemma keeps_building_accessor this s name check v :
  validator_of name = Some check ->
  keeps (building this s) (accessor name check this [v]).
Proof.
  intros Hc. unfold accessor. intros h Hb. unfold bind at 1. unfold lift.
  destruct (check v) as [x|e] eqn:Hx; [|exact Hb]. revert h Hb.
  apply keeps_bind; [|intros; apply keeps_ret].
  apply keeps_building_update. intros t. simpl. repeat split.
  intros Hv. apply valid_fields_insert; [|exact Hv]. now exists check, v.
Qed.

Lemma keeps_building_keys this s v :
  keeps (building this s) (keys this [v]).
Proof.
  unfold keys. cbn [Obj.arg nth JS.ToBoolean].
  apply keeps_bind; [|intros; apply keeps_ret].
  apply keeps_if; [|apply keeps_ret].
  apply keeps_building_update. intros t. simpl. tauto.
Qed.

Lemma keeps_building_apply_field this s entry :
  keeps (building this s) (apply_field this entry).
Proof.
  unfold apply_field, callable_member. rewrite accessor_of_validator.
  destruct (validator_of entry.1) as [check|] eqn:Hv; cbn [option_map].
  { apply keeps_bind; [now apply keeps_building_accessor | intros; apply keeps_ret]. }
  destruct (String.eqb entry.1 "keys"); [apply keeps_building_keys|].
  destruct (String.eqb entry.1 "createPass").
  { apply keeps_bind; [apply keeps_createPass | intros; apply keeps_ret]. }
  repeat match goal with
         | |- context [JS.string_in ?k ?l] => destruct (JS.string_in k l)
         end; simpl;
    first [ apply keeps_throw
          | apply keeps_ret
          | apply keeps_bind; [apply keeps_lift | intros; apply keeps_ret] ].
Qed.

Lemma building_start s h :
  building (next h) s
    (mkHeap (<[next h := OTemplate (mkTemplate s ∅ VUndefined VUndefined None)]>
               (store h)) (S (next h))).
Proof.
  split; [reflexivity|]. eexists. split; [apply lookup_insert_eq|].
  simpl. repeat split. apply valid_fields_empty.
Qed.

Lemma disciplined_set_images h this t t' i :
  disciplined h -> store h !! this = Some (OTemplate t) ->
  store h !! S this = Some (OImages i) -> images t' = Some (S this) ->
  disciplined (mkHeap (<[this := OTemplate t']> (store h)) (next h)).
Proof.
  intros [Hwf Hown] Ht Hi Himg. split.
  - intros l. simpl. destruct (decide (this = l)) as [<-|Hl].
    + intros _. apply Hwf. now exists (OTemplate t).
    + rewrite lookup_insert_ne by exact Hl. apply Hwf.
  - intros l t1. simpl. destruct (decide (this = l)) as [<-|Hl].
    + rewrite lookup_insert_eq. intros [= <-]. right.
      split; [exact Himg|]. exists i. rewrite lookup_insert_ne by lia. exact Hi.
    + rewrite lookup_insert_ne by exact Hl. intros Ht1.
      destruct (Hown _ _ Ht1) as [Hnone|[Hsome (j & Hj)]]; [now left|].
      right. split; [exact Hsome|]. exists j.
      rewrite lookup_insert_ne; [exact Hj|]. intros ->.
      discriminate (eq_trans (eq_sym Ht) Hj).
Qed.

Lemma disciplined_finish this s h :
  disciplined h -> building this s h ->
  disciplined (finish_construction this h).2.
Proof.
  intros Hd (Hn & t & Ht & _ & _ & Hi & _).
  unfold finish_construction.
  rewrite (bind_Normal _ _ _ _ _ (update_this_template _ _ _ _ Ht)).
  erewrite bind_Normal by reflexivity.
  erewrite bind_Normal.
  2:{ apply update_this_template. simpl. rewrite Hn.
      rewrite lookup_insert_ne by lia. apply lookup_insert_eq. }
  unfold ret. cbn [snd].
  pose proof (disciplined_update h this t (set_keysPath (VStr "keys") t) Hd Ht eq_refl)
    as Hd1.
  pose proof (disciplined_alloc _ (OImages PassImages_new) Hd1) as Hd2.
  cbn [next store] in Hd2. specialize (Hd2 ltac:(discriminate)).
  cbn [next store]. rewrite Hn in *.
  eapply (disciplined_set_images _ this (set_keysPath (VStr "keys") t) _
            PassImages_new Hd2); cbn [store].
  - rewrite lookup_insert_ne by lia. apply lookup_insert_eq.
  - apply lookup_insert_eq.
  - reflexivity.
Qed.

Lemma keeps_disciplined_Template_new s fieldsArg :
  keeps disciplined (Template_new s fieldsArg).
Proof.
  intros h Hd. rewrite Template_new_unfold.
  destruct (negb (JS.string_in s PASS_STYLES)); [exact Hd|]. cbv zeta.
  set (h0 := mkHeap _ _).
  assert (Hd0 : disciplined h0 /\ building (next h) s h0).
  { split; [|apply building_start]. apply disciplined_alloc; [exact Hd|].
    now intros t [= <-]. }
  destruct (Obj.entries _) as [entries|e]; [|exact (proj1 Hd0)].
  assert (Hd1 : disciplined (forEach entries (apply_field (next h)) h0).2
                /\ building (next h) s (forEach entries (apply_field (next h)) h0).2).
  { apply (keeps_and disciplined (building (next h) s)); [| |exact Hd0];
      apply keeps_forEach; intros entry;
      [apply keeps_disciplined_apply_field | apply keeps_building_apply_field]. }
  destruct (forEach entries (apply_field (next h)) h0) as [[[]|e] h1];
    [|exact (proj1 Hd1)].
  now apply (disciplined_finish _ s).
Qed.

Lemma keeps_disciplined_images_load template folderPath :
  keeps disciplined (images_loadFromDirectory template folderPath).
Proof.
  unfold images_loadFromDirectory.
  apply keeps_bind; [apply keeps_read_this | intros t].
  destruct (images t) as [img|]; [|apply keeps_throw].
  intros h Hh. destruct (store h !! img) as [[?|i]|] eqn:Hi; try exact Hh.
  destruct (loadFromDirectory folderPath i); [|exact Hh].
  now apply (disciplined_images h img i).
Qed.

Lemma keeps_disciplined_probe_key template folderPath keyName pw :
  keeps disciplined (probe_key template folderPath keyName pw).
Proof.
  unfold probe_key. apply keeps_try_catch; [|intros; apply keeps_ret].
  apply keeps_bind; [apply keeps_lift | intros keyStat].
  apply keeps_if; [apply keeps_disciplined_keys | apply keeps_ret].
Qed.

Lemma keeps_disciplined_load folderPath pw : keeps disciplined (load folderPath pw).
Proof.
  unfold load. apply keeps_bind; [apply keeps_lift | intros stats].
  apply keeps_if; [apply keeps_throw|].
  apply keeps_bind; [apply keeps_lift | intros content].
  apply keeps_bind; [apply keeps_lift | intros passJson].
  apply keeps_bind; [apply keeps_lift | intros type].
  apply keeps_bind; [apply keeps_disciplined_Template_new | intros template].
  apply keeps_bind; [apply keeps_disciplined_images_load | intros _].
  apply keeps_bind; [apply keeps_lift | intros keyName].
  apply keeps_bind; [apply keeps_disciplined_probe_key | intros _].
  apply keeps_ret.
Qed.

Lemma perform_disciplined h c : disciplined h -> disciplined (perform h c).
Proof.
  intros Hh. destruct c as [s f|name this args|this args|this args|d p]; simpl.
  - now apply keeps_disciplined_Template_new.
  - destruct (accessor_of name) as [f|] eqn:E; [|exact Hh].
    apply accessor_of_Some in E as (check & Hv & ->).
    now apply keeps_disciplined_accessor.
  - now apply keeps_disciplined_keys.
  - now rewrite createPass_heap.
  - now apply keeps_disciplined_load.
Qed.

Lemma reachable_disciplined h : reachable h -> disciplined h.
Proof.
  intros [calls ->]. induction calls as [|c calls IH] using rev_ind.
  - split.
    + intros l [o Ho]. simpl in Ho. now rewrite lookup_empty in Ho.
    + intros l t. simpl. now rewrite lookup_empty.
  - rewrite foldl_app. simpl. now apply perform_disciplined.
Qed.

(** *** What the constructor and the loader leave alone *)

Lemma forEach_same_but_building this s entries h0 :
  building this s h0 ->
  same_but this h0 (forEach entries (apply_field this) h0).2
  /\ building this s (forEach entries (apply_field this) h0).2.
Proof.
  intros Hb.
  apply (keeps_and (same_but this h0) (building this s));
    [| |split; [apply same_but_refl | exact Hb]];
    apply keeps_forEach; intros entry;
    [apply keeps_same_but_apply_field | apply keeps_building_apply_field].
Qed.

Lemma Template_new_frame s fieldsArg h l :
  l <> next h -> l <> S (next h) ->
  store (Template_new s fieldsArg h).2 !! l = store h !! l.
Proof.
  intros Hl Hl'. rewrite Template_new_unfold.
  destruct (negb (JS.string_in s PASS_STYLES)); [reflexivity|]. cbv zeta.
  set (h0 := mkHeap _ _).
  assert (H0 : store h0 !! l = store h !! l)
    by (unfold h0; simpl; now rewrite lookup_insert_ne by congruence).
  destruct (Obj.entries _) as [entries|e]; [|exact H0].
  destruct (forEach_same_but_building (next h) s entries h0 (building_start s h))
    as [[Hn Hst] (_ & t & Ht & _)].
  destruct (forEach entries (apply_field (next h)) h0) as [[[]|e] h1];
    simpl in *; [|rewrite Hst by exact Hl; exact H0].
  rewrite (finish_construction_run _ _ _ Ht Hn). simpl.
  rewrite !lookup_insert_ne by congruence. rewrite Hst by exact Hl. exact H0.
Qed.

Lemma images_load_frame template folderPath h t img l :
  store h !! template = Some (OTemplate t) -> images t = Some img -> l <> img ->
  store (images_loadFromDirectory template folderPath h).2 !! l = store h !! l.
Proof.
  intros Ht Hi Hl. unfold images_loadFromDirectory.
  rewrite (bind_Normal _ _ _ _ _ (read_this_template _ _ _ Ht)). rewrite Hi.
  destruct (store h !! img) as [[?|i]|]; try reflexivity.
  destruct (loadFromDirectory folderPath i); [|reflexivity].
  simpl. now rewrite lookup_insert_ne by congruence.
Qed.

Lemma probe_key_frame template folderPath keyName pw h l :
  l <> template ->
  store (probe_key template folderPath keyName pw h).2 !! l = store h !! l.
Proof.
  intros Hl.
  assert (Hk : keeps (same_but template h) (probe_key template folderPath keyName pw)).
  { unfold probe_key. apply keeps_try_catch; [|intros; apply keeps_ret].
    apply keeps_bind; [apply keeps_lift | intros keyStat].
    apply keeps_if; [apply keeps_same_but_keys | apply keeps_ret]. }
  now apply (Hk h (same_but_refl _ _)).
Qed.

Lemma load_frame folderPath pw h l :
  l <> next h -> l <> S (next h) ->
  store (load folderPath pw h).2 !! l = store h !! l.
Proof.
  intros Hl Hl'. unfold load. unfold bind at 1. unfold lift.
  destruct (statAsync folderPath) as [stats|e]; [|reflexivity].
  destruct (negb (isDirectory stats)); [reflexivity|].
  unfold bind at 1. destruct (readFileAsync _) as [content|e]; [|reflexivity].
  unfold bind at 1. destruct (JSON_parse content) as [passJson|e]; [|reflexivity].
  unfold bind at 1. destruct (detect_style passJson) as [type|e]; [|reflexivity].
  unfold bind at 1.
  pose proof (Template_new_frame type passJson h l Hl Hl') as Hnew.
  destruct (Template_new type passJson h) as [[template|e] h1] eqn:Hrun;
    [|exact Hnew].
  apply Template_new_returns in Hrun as (-> & _ & _ & t & Ht & _ & _ & Hi & _).
  simpl in Hnew.
  pose proof (images_load_frame (next h) folderPath h1 t _ l Ht Hi Hl') as Himg.
  unfold bind at 1.
  destruct (images_loadFromDirectory (next h) folderPath h1) as [[[]|e] h2];
    simpl in Himg; [|exact (eq_trans Himg Hnew)].
  unfold bind at 1.
  destruct (key_name (get_passTypeIdentifier passJson)) as [keyName|e];
    [|exact (eq_trans Himg Hnew)].
  pose proof (probe_key_frame (next h) folderPath keyName pw h2 l Hl) as Hprobe.
  unfold bind at 1.
  destruct (probe_key (next h) folderPath keyName pw h2) as [[[]|e] h3];
    simpl in Hprobe; exact (eq_trans Hprobe (eq_trans Himg Hnew)).
Qed.

(** Objects of a well-formed heap are below the allocation pointer, so
    neither the constructor nor the loader reaches them. *)
Lemma existing_below h l o :
  heap_wf h -> store h !! l = Some o -> l <> next h /\ l <> S (next h).
Proof.
  intros Hwf Ho. assert (l < next h) by (apply Hwf; now exists o). lia.
Qed.

(** *** What every construction ends with *)

Lemma Template_new_postcondition s fieldsArg h l h' :
  Template_new s fieldsArg h = (Normal l, h') ->
  l = next h
  /\ exists t,
       store h' !! l = Some (OTemplate t)
       /\ style t = s /\ keysPath t = VStr "keys" /\ password t = VUndefined
       /\ images t = Some (S l) /\ valid_fields (fields t)
       /\ store h' !! S l = Some (OImages PassImages_new).
Proof.
  rewrite Template_new_unfold.
  destruct (negb (JS.string_in s PASS_STYLES)); [discriminate|]. cbv zeta.
  set (h0 := mkHeap _ _).
  destruct (Obj.entries _) as [entries|e]; [|discriminate].
  destruct (forEach_same_but_building (next h) s entries h0 (building_start s h))
    as [_ (Hn & t & Ht & Hs & Hp & Hi & Hv)].
  destruct (forEach entries (apply_field (next h)) h0) as [[[]|e] h1];
    [|discriminate]. simpl in *.
  rewrite (finish_construction_run _ _ _ Ht Hn). intros [= <- <-].
  split; [reflexivity|]. eexists. simpl.
  split; [apply lookup_insert_eq|]. simpl. repeat split; try assumption.
  rewrite lookup_insert_ne by lia. apply lookup_insert_eq.
Qed.

Lemma valid_fields_keys f k :
  valid_fields f -> is_Some (f !! k) -> In k field_names.
Proof.
  intros Hv [x Hx]. destruct (Hv _ _ Hx) as (check & _ & Hc & _).
  apply validator_of_field. eauto.
Qed.

(** *** Entries the constructor meets in order *)

Lemma forEach_app {A} (l1 l2 : list A) f h :
  forEach (l1 ++ l2) f h
  = match forEach l1 f h with
    | (Normal _, h1) => forEach l2 f h1
    | (Throw e, h1) => (Throw e, h1)
    end.
Proof.
  revert h. induction l1 as [|x l1 IH]; intros h; [reflexivity|].
  simpl. unfold bind. destruct (f x h) as [[[]|e] h1]; [apply IH | reflexivity].
Qed.

Lemma accepted_benign entry : accepted entry -> benign entry.
Proof. intros Ha. now left. Qed.

Lemma apply_field_rejected this k v check e h :
  validator_of k = Some check -> check v = Throw e ->
  apply_field this (k, v) h = (Throw e, h).
Proof.
  intros Hc Hv. unfold apply_field, callable_member.
  rewrite accessor_of_validator. simpl. rewrite Hc. cbn [option_map].
  apply bind_Throw. now apply accessor_reject.
Qed.

Lemma forEach_rejected this pre k v post check e h t :
  Forall benign pre -> validator_of k = Some check -> check v = Throw e ->
  store h !! this = Some (OTemplate t) ->
  exists h', forEach (pre ++ (k, v) :: post)%list (apply_field this) h = (Throw e, h').
Proof.
  intros Hpre Hc Hv Ht. rewrite forEach_app.
  destruct (forEach_benign this pre h t Hpre Ht) as (h1 & -> & _ & _).
  exists h1. simpl forEach. apply bind_Throw. now apply (apply_field_rejected _ _ _ check).
Qed.

Lemma Template_new_rejected s fieldsArg pre k v post check e h :
  In s PASS_STYLES ->
  Obj.entries (Obj.default_empty fieldsArg) = Normal (pre ++ (k, v) :: post)%list ->
  Forall benign pre -> validator_of k = Some check -> check v = Throw e ->
  (Template_new s fieldsArg h).1 = Throw e.
Proof.
  intros Hs%string_in_In Hent Hpre Hc Hv. rewrite Template_new_unfold, Hs, Hent.
  cbn [negb]. cbv zeta.
  edestruct (forEach_rejected (next h) pre k v post check e) as (h' & ->);
    [exact Hpre | exact Hc | exact Hv | apply lookup_insert_eq |].
  reflexivity.
Qed.

Lemma some_style_In passJson styles t :
  some_style passJson styles = Normal (Some t) -> In t styles.
Proof.
  induction styles as [|x styles IH]; simpl; [discriminate|].
  destruct (has_property passJson x) as [[|]|]; [intros [= ->]; now left | | discriminate].
  intros Hs. right. now apply IH.
Qed.

Lemma detect_style_In passJson type :
  detect_style passJson = Normal type -> In type PASS_STYLES.
Proof.
  unfold detect_style.
  destruct (some_style passJson PASS_STYLES) as [[t|]|] eqn:E; try discriminate.
  intros [= <-]. now apply (some_style_In passJson).
Qed.

(** *** The key configuration *)

Lemma keys_run this args h t :
  store h !! this = Some (OTemplate t) ->
  keys this args h
  = (Normal tt,
     mkHeap (<[this := OTemplate (configure_keys (Obj.arg 0 args) (Obj.arg 1 args) t)]>
               (store h)) (next h)).
Proof.
  intros Ht. unfold keys, configure_keys. cbv zeta.
  destruct (JS.ToBoolean (Obj.arg 0 args)), (JS.ToBoolean (Obj.arg 1 args)).
  - erewrite bind_Normal by (apply update_this_template; exact Ht).
    rewrite (update_this_template _ _ (set_keysPath (Obj.arg 0 args) t))
      by apply lookup_insert_eq.
    simpl. now rewrite insert_insert_eq.
  - erewrite bind_Normal by (apply update_this_template; exact Ht). reflexivity.
  - erewrite bind_Normal by reflexivity. apply update_this_template; exact Ht.
  - erewrite bind_Normal by reflexivity. unfold ret.
    now rewrite insert_id, heap_eta.
Qed.

Lemma configure_keys_parts path pw t :
  style (configure_keys path pw t) = style t
  /\ fields (configure_keys path pw t) = fields t
  /\ images (configure_keys path pw t) = images t
  /\ keysPath (configure_keys path pw t)
     = (if JS.ToBoolean path then path else keysPath t)
  /\ password (configure_keys path pw t)
     = (if JS.ToBoolean pw then pw else password t).
Proof.
  unfold configure_keys. now destruct (JS.ToBoolean path), (JS.ToBoolean pw).
Qed.

(** A successful [load], with the key configuration it leaves. *)
Lemma load_returns_keys folderPath pw h l h' :
  load folderPath pw h = (Normal l, h') ->
  exists content passJson id t,
    readFileAsync (path_join folderPath "pass.json") = Normal content
    /\ JSON_parse content = Normal passJson
    /\ get_passTypeIdentifier passJson = VStr id
    /\ store h' !! l = Some (OTemplate t)
    /\ keysPath t
       = (if key_found (strip_pass_prefix id +:+ ".pem") && JS.ToBoolean (VStr folderPath)
          then VStr folderPath else VStr "keys")
    /\ password t
       = (if key_found (strip_pass_prefix id +:+ ".pem") && JS.ToBoolean pw
          then pw else VUndefined).
Proof.
  unfold load. intros Hrun.
  apply bind_Normal_inv in Hrun as (stats & ? & [Hstat ->]%lift_Normal_inv & Hrun).
  destruct (isDirectory stats) eqn:Hdir; [|discriminate]. cbn [negb] in Hrun.
  apply bind_Normal_inv in Hrun as (content & ? & [Hread ->]%lift_Normal_inv & Hrun).
  apply bind_Normal_inv in Hrun as (passJson & ? & [Hparse ->]%lift_Normal_inv & Hrun).
  apply bind_Normal_inv in Hrun as (type & ? & [Htype ->]%lift_Normal_inv & Hrun).
  apply bind_Normal_inv in Hrun as (template & h1 & Hnew & Hrun).
  apply bind_Normal_inv in Hrun as ([] & h2 & Himg & Hrun).
  apply bind_Normal_inv in Hrun as (keyName & ? & [Hkey ->]%lift_Normal_inv & Hrun).
  apply bind_Normal_inv in Hrun as ([] & h3 & Hprobe & Hrun).
  unfold ret in Hrun. injection Hrun as <- <-.
  destruct (get_passTypeIdentifier passJson) as [| | | |id| | |] eqn:Hid;
    try discriminate.
  cbn [key_name] in Hkey. injection Hkey as <-.
  apply Template_new_postcondition in Hnew
    as (-> & t & Ht & _ & Hk & Hp & Hi & _ & _).
  assert (Ht2 : store h2 !! next h = Some (OTemplate t)).
  { pose proof (images_load_frame (next h) folderPath h1 t _ (next h) Ht Hi) as Hf.
    rewrite Himg in Hf. simpl in Hf. rewrite Hf by lia. exact Ht. }
  rewrite (probe_key_template _ _ _ _ _ _ Ht2) in Hprobe. injection Hprobe as <-.
  exists content, passJson, id. eexists.
  split; [exact Hread|]. split; [exact Hparse|]. split; [exact Hid|].
  simpl. split; [apply lookup_insert_eq|].
  destruct (configure_keys_parts (VStr folderPath) pw t) as (_ & _ & _ & Hk' & Hp').
  destruct (key_found (strip_pass_prefix id +:+ ".pem")); cbn [andb].
  - rewrite Hk', Hp', Hk, Hp. split; reflexivity.
  - rewrite Hk, Hp. now destruct (JS.ToBoolean pw).
Qed.

(** *** Accessors: what is written is what is read *)

Lemma accessor_other_field name name' (check' : value -> completion value) this h t x :
  name' <> name ->
  store h !! this = Some (OTemplate t) ->
  (accessor name' check' this []
     (mkHeap (<[this := OTemplate (set_field name x t)]> (store h)) (next h))).1
  = (accessor name' check' this [] h).1.
Proof.
  intros Hne Ht. rewrite (accessor_read _ _ _ _ _ Ht).
  erewrite accessor_read by apply lookup_insert_eq.
  simpl. now rewrite lookup_insert_ne by congruence.
Qed.

Lemma stored_form_check name check v x :
  validator_of name = Some check -> stored_form name v = Some x -> check v = Normal x.
Proof.
  intros Hc. unfold stored_form. rewrite Hc.
  destruct (check v); [now intros [= ->] | discriminate].
Qed.

(** *** The colour validator on values of other kinds *)

Lemma check_components_outcome shown a b c :
  check_components shown [Some a; Some b; Some c] = Normal tt
  \/ check_components shown [Some a; Some b; Some c]
     = Throw (Error ("Invalid color value " +:+ shown)).
Proof.
  simpl. repeat match goal with
                | |- context [if ?b then _ else _] => destruct b
                end; auto.
Qed.

Lemma validateColorValue_string_outcome s :
  (validateColorValue (VStr s) = Throw TypeError
   /\ ~ exists r g b, color_shape s r g b)
  \/ (exists r g b,
        color_shape s r g b
        /\ (validateColorValue (VStr s) = Normal tt
            \/ validateColorValue (VStr s)
               = Throw (Error ("Invalid color value " +:+ s)))).
Proof.
  unfold validateColorValue. simpl JS.ToString. cbv iota.
  destruct (ColorRegex.exec s) as [m|] eqn:E.
  - right. destruct (ColorFacts.exec_Some _ _ E) as (r & g & b & -> & Hshape).
    exists r, g, b. split; [exact Hshape|].
    pose proof Hshape as (_ & _ & _ & _ & _ & _ & _ & _ & _ & Hr & Hg & Hb).
    simpl skipn. simpl map. rewrite !ColorFacts.parseInt10_digits by assumption.
    apply check_components_outcome.
  - left. split; [reflexivity|]. intros (r & g & b & Hshape).
    rewrite (ColorFacts.exec_shape _ _ _ _ Hshape) in E. discriminate.
Qed.

Lemma validateColorValue_object props :
  validateColorValue (VObj props) = Throw TypeError.
Proof.
  unfold validateColorValue. simpl JS.ToString.
  destruct (JS.own_has props "toString"); reflexivity.
Qed.

(** *** Calling the accessors one after the other *)

Lemma call_accessor_accepted this entry h :
  accepted entry -> call_accessor this entry h = apply_field this entry h.
Proof.
  intros [x Hx]. unfold call_accessor, apply_field, callable_member.
  unfold stored_form in Hx. rewrite accessor_of_validator.
  destruct (validator_of entry.1); [reflexivity | discriminate].
Qed.

Lemma forEach_call_accessor this entries h :
  Forall accepted entries ->
  forEach entries (call_accessor this) h = forEach entries (apply_field this) h.
Proof.
  intros Hall. revert h. induction Hall as [|entry entries Ha _ IH]; intros h;
    [reflexivity|].
  simpl. unfold bind. rewrite (call_accessor_accepted _ _ _ Ha).
  destruct (apply_field this entry h) as [[[]|e] h1]; [apply IH | reflexivity].
Qed.

Lemma heap_ext h1 h2 : store h1 = store h2 -> next h1 = next h2 -> h1 = h2.
Proof. destruct h1, h2. simpl. now intros -> ->. Qed.

Lemma Template_new_then_accessors s fieldsArg entries h :
  In s PASS_STYLES ->
  Obj.entries (Obj.default_empty fieldsArg) = Normal entries ->
  Forall accepted entries ->
  exists h1 h2,
    Template_new s VUndefined h = (Normal (next h), h1)
    /\ forEach entries (call_accessor (next h)) h1 = (Normal tt, h2)
    /\ Template_new s fieldsArg h = (Normal (next h), h2).
Proof.
  intros Hs Hent Hall.
  assert (Hben : Forall benign entries)
    by (eapply Forall_impl; [exact Hall | apply accepted_benign]).
  destruct (Template_new_benign s VUndefined [] h Hs eq_refl (Forall_nil_2 _))
    as (h1 & Hrun1 & Hn1 & Hst1).
  destruct (Template_new_benign s fieldsArg entries h Hs Hent Hben)
    as (h2 & Hrun2 & Hn2 & Hst2).
  destruct (forEach_benign (next h) entries h1
              (mkTemplate s ∅ (VStr "keys") VUndefined (Some (S (next h)))) Hben)
    as (h2' & Hrun & Hn & Hst).
  { rewrite Hst1. apply lookup_insert_eq. }
  exists h1, h2. split; [exact Hrun1|]. split; [|exact Hrun2].
  rewrite (forEach_call_accessor _ _ _ Hall), Hrun. f_equal.
  apply heap_ext; [|congruence].
  rewrite Hst, Hst1, Hst2. simpl. now rewrite insert_insert_eq.
Qed.

(** *** Definitions that are not objects *)

Lemma detect_style_scalar v :
  scalar v = true -> PASS_STYLES <> [] -> detect_style v = Throw TypeError.
Proof.
  intros Hv Hne. unfold detect_style.
  destruct PASS_STYLES as [|t styles]; [contradiction|].
  destruct v; try discriminate; reflexivity.
Qed.

Lemma load_step_1_stat folderPath pw h e :
  statAsync folderPath = Throw e -> load folderPath pw h = (Throw e, h).
Proof. intros Hs. unfold load, bind, lift. now rewrite Hs. Qed.

Lemma load_step_1_directory folderPath pw h stats :
  statAsync folderPath = Normal stats -> isDirectory stats = false ->
  load folderPath pw h
  = (Throw (Error ("Path " +:+ folderPath +:+ " must be a directory!")), h).
Proof. intros Hs Hd. unfold load, bind, lift. now rewrite Hs, Hd. Qed.

Lemma load_throws_in_constructor folderPath pw h stats content passJson type e :
  statAsync folderPath = Normal stats -> isDirectory stats = true ->
  readFileAsync (path_join folderPath "pass.json") = Normal content ->
  JSON_parse content = Normal passJson ->
  detect_style passJson = Normal type ->
  (Template_new type passJson h).1 = Throw e ->
  (load folderPath pw h).1 = Throw e.
Proof.
  intros Hstat Hdir Hread Hparse Hstyle Hnew. unfold load, bind, lift.
  rewrite Hstat, Hdir, Hread, Hparse, Hstyle. cbn [negb].
  destruct (Template_new type passJson h) as [[l|e'] h1]; simpl in Hnew;
    [discriminate|]. simpl. congruence.
Qed.

Lemma load_throws_at_images folderPath pw h stats content props type e :
  statAsync folderPath = Normal stats -> isDirectory stats = true ->
  readFileAsync (path_join folderPath "pass.json") = Normal content ->
  JSON_parse content = Normal (VObj props) ->
  detect_style (VObj props) = Normal type ->
  Forall benign props ->
  loadFromDirectory folderPath PassImages_new = Throw e ->
  (load folderPath pw h).1 = Throw e.
Proof.
  intros Hstat Hdir Hread Hparse Hstyle Hall Himgs.
  destruct (Template_new_benign type (VObj props) props h
              (detect_style_In _ _ Hstyle) eq_refl Hall) as (h1 & Hnew & Hn1 & Hst1).
  unfold load.
  rewrite (bind_Normal _ _ h stats h) by (unfold lift; now rewrite Hstat).
  rewrite Hdir. cbn [negb].
  rewrite (bind_Normal _ _ h content h) by (unfold lift; now rewrite Hread).
  rewrite (bind_Normal _ _ h (VObj props) h) by (unfold lift; now rewrite Hparse).
  rewrite (bind_Normal _ _ h type h) by (unfold lift; now rewrite Hstyle).
  rewrite (bind_Normal _ _ _ _ _ Hnew).
  erewrite bind_Throw; [reflexivity|].
  unfold images_loadFromDirectory.
  erewrite bind_Normal
    by (apply read_this_template; rewrite Hst1; apply lookup_insert_eq).
  simpl. rewrite Hst1. rewrite lookup_insert_ne by lia.
  rewrite lookup_insert_eq. now rewrite Himgs.
Qed.

(** *** What every load ends with *)

Lemma images_loadFromDirectory_inv template folderPath h t img i h' :
  store h !! template = Some (OTemplate t) -> images t = Some img ->
  store h !! img = Some (OImages i) ->
  images_loadFromDirectory template folderPath h = (Normal tt, h') ->
  exists i', loadFromDirectory folderPath i = Normal i'
             /\ h' = mkHeap (<[img := OImages i']> (store h)) (next h).
Proof.
  intros Ht Himg Hi. unfold images_loadFromDirectory.
  rewrite (bind_Normal _ _ _ _ _ (read_this_template _ _ _ Ht)).
  rewrite Himg, Hi. destruct (loadFromDirectory folderPath i) as [i'|e];
    [|discriminate].
  intros [= <-]. now exists i'.
Qed.

Lemma load_returns_shape folderPath pw h l h' :
  load folderPath pw h = (Normal l, h') ->
  l = next h /\ next h' = S (S l)
  /\ exists t imgs,
       store h' !! l = Some (OTemplate t)
       /\ In (style t) PASS_STYLES
       /\ images t = Some (S l)
       /\ loadFromDirectory folderPath PassImages_new = Normal imgs
       /\ store h' !! S l = Some (OImages imgs)
       /\ valid_fields (fields t).
Proof.
  unfold load. intros Hrun.
  apply bind_Normal_inv in Hrun as (stats & ? & [Hstat ->]%lift_Normal_inv & Hrun).
  destruct (isDirectory stats) eqn:Hdir; [|discriminate]. cbn [negb] in Hrun.
  apply bind_Normal_inv in Hrun as (content & ? & [Hread ->]%lift_Normal_inv & Hrun).
  apply bind_Normal_inv in Hrun as (passJson & ? & [Hparse ->]%lift_Normal_inv & Hrun).
  apply bind_Normal_inv in Hrun as (type & ? & [Htype ->]%lift_Normal_inv & Hrun).
  apply bind_Normal_inv in Hrun as (template & h1 & Hnew & Hrun).
  apply bind_Normal_inv in Hrun as ([] & h2 & Himg & Hrun).
  apply bind_Normal_inv in Hrun as (keyName & ? & [Hkey ->]%lift_Normal_inv & Hrun).
  apply bind_Normal_inv in Hrun as ([] & h3 & Hprobe & Hrun).
  unfold ret in Hrun. injection Hrun as <- <-.
  destruct (Template_new_returns _ _ _ _ _ Hnew) as (_ & Hs & Hn1 & _).
  apply Template_new_postcondition in Hnew
    as (-> & t & Ht & Hst & _ & _ & Hi & Hv & Hstore).
  destruct (images_loadFromDirectory_inv _ _ _ _ _ _ _ Ht Hi Hstore Himg)
    as (imgs & Himgs & ->).
  assert (Ht2 : store (mkHeap (<[S (next h) := OImages imgs]> (store h1)) (next h1))
                  !! next h = Some (OTemplate t)).
  { simpl. rewrite lookup_insert_ne by lia. exact Ht. }
  rewrite (probe_key_template _ _ _ _ _ _ Ht2) in Hprobe. injection Hprobe as <-.
  split; [reflexivity|]. split; [exact Hn1|].
  eexists. exists imgs. simpl.
  split; [apply lookup_insert_eq|].
  destruct (configure_keys_parts (VStr folderPath) pw t) as (Hs' & Hf' & Hi' & _ & _).
  split; [|split; [|split; [exact Himgs|split]]].
  - destruct (key_found keyName); [rewrite Hs'|]; now rewrite Hst.
  - destruct (key_found keyName); [rewrite Hi'|]; exact Hi.
  - rewrite lookup_insert_ne by lia. apply lookup_insert_eq.
  - destruct (key_found keyName); [rewrite Hf'|]; exact Hv.
Qed.

(** *** Initial mappings with index keys *)

Lemma string_of_uint_digits u :
  Chars.all_chars Chars.is_digit (NilEmpty.string_of_uint u) = true.
Proof. induction u; simpl; auto. Qed.

Lemma callable_member_digits k :
  Chars.all_chars Chars.is_digit k = true -> callable_member k = None.
Proof.
  intros Hk. unfold callable_member, accessor_of, JS.string_in, existsb.
  repeat match goal with
         | |- context [String.eqb k ?s] =>
             destruct (String.eqb_spec k s) as [->|_]; [discriminate Hk|]
         end.
  reflexivity.
Qed.

Lemma indexed_keys {A} (f : A -> value) i l :
  Forall (fun entry => callable_member entry.1 = None) (Obj.indexed f i l).
Proof.
  revert i. induction l as [|x l IH]; intros i; simpl; constructor; [|apply IH].
  apply callable_member_digits, string_of_uint_digits.
Qed.

Lemma forEach_not_callable this entries h :
  Forall (fun entry => callable_member entry.1 = None) entries ->
  forEach entries (apply_field this) h = (Normal tt, h).
Proof.
  induction 1 as [|entry entries He _ IH]; [reflexivity|].
  simpl. unfold bind, apply_field at 1. rewrite He. exact IH.
Qed.

Lemma Template_new_not_callable s fieldsArg entries h :
  Obj.entries (Obj.default_empty fieldsArg) = Normal entries ->
  Forall (fun entry => callable_member entry.1 = None) entries ->
  Template_new s fieldsArg h = Template_new s VUndefined h.
Proof.
  intros Hent Hall. rewrite !Template_new_unfold, Hent.
  destruct (negb (JS.string_in s PASS_STYLES)); [reflexivity|]. cbv zeta.
  now rewrite (forEach_not_callable _ _ _ Hall).
Qed.

(** *** Keys that name no member *)

Lemma not_member_not_callable k :
  ~ In k (field_names ++ ["keys"; "createPass"] ++ JS.Object_prototype_names) ->
  callable_member k = None.
Proof.
  intros Hk. unfold callable_member, accessor_of, JS.string_in, existsb.
  repeat match goal with
         | |- context [String.eqb k ?s] =>
             destruct (String.eqb_spec k s) as [->|_];
             [exfalso; apply Hk; cbv [field_names JS.Object_prototype_names app In];
              tauto|]
         end.
  reflexivity.
Qed.

Lemma Template_new_skip s pre k v post h :
  callable_member k = None ->
  Template_new s (VObj (pre ++ (k, v) :: post)) h
  = Template_new s (VObj (pre ++ post)) h.
Proof.
  intros Hk. rewrite !Template_new_unfold.
  destruct (negb (JS.string_in s PASS_STYLES)); [reflexivity|]. cbv zeta.
  cbn [Obj.default_empty Obj.entries Obj.own_enumerable].
  rewrite !forEach_app.
  destruct (forEach pre (apply_field (next h)) _) as [[[]|e] h1]; [|reflexivity].
  cbn [forEach]. unfold bind, apply_field at 1. cbn [fst]. now rewrite Hk.
Qed.

(** A Template brought about through the class has no field named
    [__proto__]. *)
Lemma reachable_fields_no_proto h l t :
  reachable h -> store h !! l = Some (OTemplate t) ->
  fields t !! "__proto__" = None.
Proof.
  intros Hreach Ht. destruct (fields t !! "__proto__") as [x|] eqn:E; [|reflexivity].
  exfalso.
  assert (Hin : In "__proto__" field_names).
  { apply (valid_fields_keys (fields t)); [|now exists x].
    exact (reachable_valid h Hreach l t Ht). }
  cbv [field_names In] in Hin. intuition discriminate.
Qed.

End Discipline.

(** ** The properties of the specification *)

(** C4, as amended.  On a string, [validateColorValue] returns exactly
    when the string is [rgb(], white space, one to three digits, a comma,
    white space, one to three digits, a comma, white space, one to three
    digits, white space, [)], each run of digits denoting a number in
    0..255; on any other string it throws.  After a successful
    [foregroundColor(s)] or [labelColor(s)] the field holds [s] itself,
    and the accessor returns it. *)
Theorem color_validator_language :
  (forall s,
     validateColorValue (VStr s) = Normal tt
     <-> exists r g b,
           color_shape s r g b /\ component r /\ component g /\ component b)
  /\ (forall s,
        ~ (exists r g b,
             color_shape s r g b /\ component r /\ component g /\ component b) ->
        exists e, validateColorValue (VStr s) = Throw e)
  /\ (forall h this t s,
        store h !! this = Some (OTemplate t) ->
        validateColorValue (VStr s) = Normal tt ->
        (exists h',
           foregroundColor this [VStr s] h = (Normal (This this), h')
           /\ foregroundColor this [] h' = (Normal (Value (VStr s)), h'))
        /\ (exists h',
              labelColor this [VStr s] h = (Normal (This this), h')
              /\ labelColor this [] h' = (Normal (Value (VStr s)), h'))).
Proof.
  split; [exact ColorFacts.validateColorValue_string|]. split.
  - intros s Hno.
    destruct (ColorFacts.completion_unit_cases (validateColorValue (VStr s)))
      as [Hok|He]; [|exact He].
    now apply ColorFacts.validateColorValue_string in Hok.
  - intros h this t s Ht Hok.
    assert (Hc : check_color (VStr s) = Normal (VStr s))
      by (unfold check_color; now rewrite Hok).
    unfold foregroundColor, labelColor.
    split; eexists; (split; [apply (accessor_store _ _ _ _ _ _ _ Ht Hc)|]);
      (erewrite accessor_read by apply lookup_insert_eq);
      simpl; now rewrite lookup_insert_eq.
Qed.

Section Properties.
Context `{Host}.

(** C1.  In every heap that clients can bring about through the class,
    every value in a Template's [fields] is one that the validator of its
    field let through: a colour field holds a value [validateColorValue]
    accepts, [suppressStripShine] a boolean, and [webServiceURL] a
    string that begins with [https:], so that its scheme is [https] (it
    is the serialization of a URL whose protocol is [https:], and the
    protocol of a URL is what its serialization has up to the first
    colon).  An accessor given
    a value its validator rejects throws the validator's error, and
    whenever an accessor throws, the heap (hence the style, fields, key
    path, password and images of every Template) is exactly as before. *)
Theorem fields_valid_and_setters_atomic :
  (forall h, reachable h ->
   forall l t, store h !! l = Some (OTemplate t) ->
     (forall name x, fields t !! name = Some x -> passed_validator name x)
     /\ (forall x, fields t !! "foregroundColor" = Some x ->
           validateColorValue x = Normal tt)
     /\ (forall x, fields t !! "labelColor" = Some x ->
           validateColorValue x = Normal tt)
     /\ (forall x, fields t !! "suppressStripShine" = Some x ->
           exists b, x = VBool b)
     /\ (forall x, fields t !! "webServiceURL" = Some x ->
           exists rest, x = VStr ("https:" +:+ rest)))
  /\ (forall name f check this v h e,
        accessor_of name = Some f -> validator_of name = Some check ->
        check v = Throw e -> f this [v] h = (Throw e, h))
  /\ (forall name f this args h e,
        accessor_of name = Some f ->
        (f this args h).1 = Throw e -> (f this args h).2 = h).
Proof.
  split; [|split].
  - intros h Hreach l t Ht.
    pose proof (reachable_valid h Hreach l t Ht) as Hvalid.
    split; [exact Hvalid|].
    repeat split; intros x Hx; destruct (Hvalid _ _ Hx) as (check & v & Hc & Hv);
      injection Hc as <-.
    + unfold check_color in Hv.
      destruct (validateColorValue v) as [[]|] eqn:E; [|discriminate].
      now injection Hv as <-.
    + unfold check_color in Hv.
      destruct (validateColorValue v) as [[]|] eqn:E; [|discriminate].
      now injection Hv as <-.
    + unfold check_boolean in Hv. destruct v; try discriminate.
      injection Hv as <-. eauto.
    + exact (check_url_https _ _ Hv).
  - intros name f check this v h e Hf Hc Hv.
    apply accessor_of_Some in Hf as (check' & Hc' & ->).
    rewrite Hc in Hc'. injection Hc' as <-. now apply accessor_reject.
  - intros name f this args h e Hf.
    apply accessor_of_Some in Hf as (check & _ & ->).
    apply accessor_throw_unchanged.
Qed.

(** C2, as amended.  [createPass(m)] on a Template [t] returns a Pass
    built from a reference to [t] itself, from the mapping that gives
    every key of [m] other than [__proto__] the value [m] gives it and
    every other key the value [t.fields] gives it, and from the very
    reference [t.images] holds; the heap, and with it [t.fields], is
    unchanged.  A key [__proto__] is not copied: the merged mapping has
    no own property of that name.  Without argument the merged mapping
    is [t.fields] but for an own property [__proto__], which no Template
    brought about through the class has: there it is [t.fields]. *)
Theorem createPass_merges_and_shares h this t props :
  store h !! this = Some (OTemplate t) ->
  (exists merged,
     createPass this [VObj props] h
     = (Normal (new_Pass this merged (images t)), h)
     /\ (forall k, k <> "__proto__" ->
           merged !! k
           = match last_value props k with
             | Some v => Some v
             | None => fields t !! k
             end)
     /\ merged !! "__proto__" = None)
  /\ createPass this [] h
     = (Normal (new_Pass this (delete "__proto__" (fields t)) (images t)), h)
  /\ (reachable h ->
      createPass this [] h = (Normal (new_Pass this (fields t) (images t)), h)).
Proof.
  intros Ht. split; [|split].
  - eexists. split; [now apply createPass_template|]. split.
    + intros k Hk. rewrite (ObjFacts.assign_lookup _ _ _ Hk).
      now rewrite lookup_delete_ne by congruence.
    + rewrite ObjFacts.assign_proto. apply lookup_delete_eq.
  - now rewrite (createPass_template _ _ _ _ Ht).
  - intros Hreach. rewrite (createPass_template _ _ _ _ Ht).
    now rewrite (delete_id _ _ (reachable_fields_no_proto h this t Hreach Ht)).
Qed.

(** C5.  [webServiceURL(v)] throws what the conversion of [v] to a URL
    throws (a TypeError when a string does not parse as an absolute
    URL), throws when the URL's protocol is not [https:], and otherwise
    stores the URL's serialization, which the accessor then returns. *)
Theorem webServiceURL_requires_https h this t v :
  store h !! this = Some (OTemplate t) ->
  (forall e, as_URL v = Throw e -> webServiceURL this [v] h = (Throw e, h))
  /\ (forall s, v = VStr s -> URL_parse s = None ->
        webServiceURL this [v] h = (Throw TypeError, h))
  /\ (forall u, as_URL v = Normal u -> protocol u <> "https:" ->
        webServiceURL this [v] h
        = (Throw (Error "webServiceURL must be on HTTPS!"), h))
  /\ (forall u, as_URL v = Normal u -> protocol u = "https:" ->
        exists h',
          webServiceURL this [v] h = (Normal (This this), h')
          /\ webServiceURL this [] h' = (Normal (Value (VStr (href u))), h')).
Proof.
  intros Ht. unfold webServiceURL. repeat split.
  - intros e He. apply accessor_reject. unfold check_url. now rewrite He.
  - intros s -> Hs. apply accessor_reject. unfold check_url, as_URL, new_URL.
    simpl. now rewrite Hs.
  - intros u Hu Hp. apply accessor_reject. unfold check_url. rewrite Hu.
    destruct (String.eqb_spec (protocol u) "https:"); [contradiction | reflexivity].
  - intros u Hu Hp. eexists. split.
    + apply (accessor_store _ _ _ _ _ _ (VStr (href u)) Ht).
      unfold check_url. rewrite Hu, Hp. reflexivity.
    + erewrite accessor_read by apply lookup_insert_eq.
      simpl. now rewrite lookup_insert_eq.
Qed.

(** C6.  Provided no style of the registry is named like a property of
    [Object.prototype]: for a definition object, style detection yields
    a style exactly when it stands in the registry, is a key of the
    object, and no style before it in the registry is a key; when no
    style of the registry is a key, detection, and with it [load],
    throws [Unknown pass style!].  When [type] is the first style of the
    registry that is a key of the definition, [load] constructs the
    Template with that style: a Template that [load] returns has the
    style [type]; an error of the construction with style [type] is the
    error of [load]; and when the entries of the definition are benign,
    its identifier is a string and the images load, [load] returns a
    Template of style [type]. *)
Theorem style_is_first_registered_key props :
  (forall t, In t PASS_STYLES -> ~ In t JS.Object_prototype_names) ->
  (forall type,
     detect_style (VObj props) = Normal type
     <-> exists pre post : list string,
           PASS_STYLES = (pre ++ type :: post)%list
           /\ In type (map fst props)
           /\ forall t, In t pre -> ~ In t (map fst props))
  /\ ((forall t, In t PASS_STYLES -> ~ In t (map fst props)) ->
      detect_style (VObj props) = Throw (Error "Unknown pass style!"))
  /\ (forall folderPath pw h stats content,
        statAsync folderPath = Normal stats -> isDirectory stats = true ->
        readFileAsync (path_join folderPath "pass.json") = Normal content ->
        JSON_parse content = Normal (VObj props) ->
        ((forall t, In t PASS_STYLES -> ~ In t (map fst props)) ->
         load folderPath pw h = (Throw (Error "Unknown pass style!"), h))
        /\ (forall pre type post,
              PASS_STYLES = (pre ++ type :: post)%list ->
              In type (map fst props) ->
              (forall t, In t pre -> ~ In t (map fst props)) ->
              (forall l h',
                 load folderPath pw h = (Normal l, h') -> has_style l type h')
              /\ (forall e,
                    (Template_new type (VObj props) h).1 = Throw e ->
                    (load folderPath pw h).1 = Throw e)
              /\ (forall id imgs,
                    Forall benign props ->
                    JS.own_get props "passTypeIdentifier" = Some (VStr id) ->
                    loadFromDirectory folderPath PassImages_new = Normal imgs ->
                    exists h',
                      load folderPath pw h = (Normal (next h), h')
                      /\ has_style (next h) type h'))).
Proof.
  intros Hproto.
  assert (Hnone : (forall t, In t PASS_STYLES -> ~ In t (map fst props)) ->
                  detect_style (VObj props) = Throw (Error "Unknown pass style!")).
  { intros Hno. rewrite (detect_style_object _ Hproto).
    replace (find (JS.own_has props) PASS_STYLES) with (@None string);
      [reflexivity|].
    symmetry. apply find_none_iff. intros t Ht. apply own_has_false. auto. }
  assert (Hfirst : forall type,
             detect_style (VObj props) = Normal type
             <-> exists pre post : list string,
                   PASS_STYLES = (pre ++ type :: post)%list
                   /\ In type (map fst props)
                   /\ forall t, In t pre -> ~ In t (map fst props)).
  { intros type. rewrite (detect_style_object _ Hproto).
    destruct (find (JS.own_has props) PASS_STYLES) as [found|] eqn:E.
    + split.
      * intros [= <-]. apply find_first in E as (pre & post & Hl & Hx & Hpre).
        exists pre, post. split; [exact Hl|].
        split; [now apply ObjFacts.own_has_In|].
        intros t Ht. apply own_has_false. auto.
      * intros (pre & post & Hl & Hx & Hpre). f_equal.
        assert (E' : find (JS.own_has props) PASS_STYLES = Some type).
        { apply find_first. exists pre, post. split; [exact Hl|].
          split; [now apply ObjFacts.own_has_In|].
          intros t Ht. apply own_has_false. auto. }
        congruence.
    + split; [discriminate|].
      intros (pre & post & Hl & Hx & _). exfalso.
      apply ObjFacts.own_has_In in Hx.
      rewrite (proj1 (find_none_iff _ _) E type) in Hx; [discriminate|].
      rewrite Hl. apply in_or_app. right. now left. }
  split; [exact Hfirst|]. split; [exact Hnone|].
  intros folderPath pw h stats content Hstat Hdir Hread Hparse. split.
  - intros Hno. now apply (load_fails_at_style _ _ _ stats content (VObj props)), Hnone.
  - intros pre type post Hl Hx Hpre.
    assert (Hdetect : detect_style (VObj props) = Normal type)
      by (apply Hfirst; eauto).
    split; [|split].
    + intros l h' Hrun.
      apply load_returns in Hrun
        as (stats' & content' & passJson & type' & id & Hstat' & _ & Hread'
            & Hparse' & Htype & _ & _ & Hstyle).
      rewrite Hstat in Hstat'. injection Hstat' as <-.
      rewrite Hread in Hread'. injection Hread' as <-.
      rewrite Hparse in Hparse'. injection Hparse' as <-.
      rewrite Hdetect in Htype. now injection Htype as <-.
    + intros e.
      now apply (load_throws_in_constructor _ _ _ stats content (VObj props)).
    + intros id imgs Hall Hid Himgs.
      destruct (load_benign folderPath pw h stats content props type id imgs)
        as (h' & Hrun & Ht & _); try assumption.
      { now apply (detect_style_In (VObj props)). }
      exists h'. split; [exact Hrun|]. eexists. split; [exact Ht|].
      now rewrite configured_style.
Qed.

(** C7, as amended.  [load] on a directory whose definition file cannot
    be read, or does not parse, throws the error of the read or of the
    parse; when the definition object has no style of the registry among
    its keys it throws [Unknown pass style!]; and on a bundle whose
    definition has [eventTicket] as its only registered style key, a
    string [passTypeIdentifier], distinct keys of which each is benign,
    and whose images load, it returns a Template of style [eventTicket]
    whose fields hold, under each key of the definition, what the
    accessor of that name stores for the definition's value: the keys of
    the fields are the definition's keys among the ten field names, with
    the definition's value, or the serialization of an https URL under
    [webServiceURL]; the other keys of the definition are not in the
    fields. *)
Theorem load_outcomes folderPath pw h stats :
  statAsync folderPath = Normal stats -> isDirectory stats = true ->
  (forall t, In t PASS_STYLES -> ~ In t JS.Object_prototype_names) ->
  (forall e,
     readFileAsync (path_join folderPath "pass.json") = Throw e ->
     load folderPath pw h = (Throw e, h))
  /\ (forall content e,
        readFileAsync (path_join folderPath "pass.json") = Normal content ->
        JSON_parse content = Throw e ->
        load folderPath pw h = (Throw e, h))
  /\ (forall content props,
        readFileAsync (path_join folderPath "pass.json") = Normal content ->
        JSON_parse content = Normal (VObj props) ->
        (forall t, In t PASS_STYLES -> ~ In t (map fst props)) ->
        load folderPath pw h = (Throw (Error "Unknown pass style!"), h))
  /\ (forall content props id imgs,
        readFileAsync (path_join folderPath "pass.json") = Normal content ->
        JSON_parse content = Normal (VObj props) ->
        List.NoDup (map fst props) ->
        In "eventTicket" PASS_STYLES ->
        In "eventTicket" (map fst props) ->
        (forall t, In t PASS_STYLES -> t <> "eventTicket" ->
                   ~ In t (map fst props)) ->
        Forall benign props ->
        JS.own_get props "passTypeIdentifier" = Some (VStr id) ->
        loadFromDirectory folderPath PassImages_new = Normal imgs ->
        exists h' t,
          load folderPath pw h = (Normal (next h), h')
          /\ store h' !! next h = Some (OTemplate t)
          /\ style t = "eventTicket"
          /\ (forall k, fields t !! k
                        = match JS.own_get props k with
                          | Some v => stored_form k v
                          | None => None
                          end)
          /\ (forall k x,
                fields t !! k = Some x ->
                In k field_names
                /\ exists v, JS.own_get props k = Some v
                     /\ (k <> "webServiceURL" -> x = v)
                     /\ (k = "webServiceURL" ->
                         exists u, as_URL v = Normal u /\ protocol u = "https:"
                                   /\ x = VStr (href u)))
          /\ (forall k v,
                In k field_names -> JS.own_get props k = Some v ->
                is_Some (fields t !! k))).
Proof.
  intros Hstat Hdir Hproto. repeat split.
  - intros e Hread. now apply (load_fails_at_read _ _ _ stats).
  - intros content e Hread Hparse. now apply (load_fails_at_parse _ _ _ stats content).
  - intros content props Hread Hparse Hno.
    apply (load_fails_at_style _ _ _ stats content (VObj props)); try assumption.
    rewrite (detect_style_object _ Hproto).
    replace (find (JS.own_has props) PASS_STYLES) with (@None string);
      [reflexivity|].
    symmetry. apply find_none_iff. intros t Ht. apply own_has_false. auto.
  - intros content props id imgs Hread Hparse Hnd Hreg Hkey Honly Hall Hid Himgs.
    assert (Hstyle : detect_style (VObj props) = Normal "eventTicket").
    { rewrite (detect_style_object _ Hproto).
      rewrite (find_only _ _ "eventTicket"); try assumption; [reflexivity| |].
      - now apply ObjFacts.own_has_In.
      - intros t Ht Hne. apply own_has_false. auto. }
    destruct (load_benign folderPath pw h stats content props "eventTicket" id imgs)
      as (h' & Hrun & Ht & _); try assumption.
    eexists h', _. split; [exact Hrun|]. split; [exact Ht|].
    rewrite configured_style, configured_fields. split; [reflexivity|].
    assert (Hfields : forall k,
               foldl store_entry ∅ props !! k
               = match JS.own_get props k with
                 | Some v => stored_form k v
                 | None => None
                 end).
    { intros k. rewrite (foldl_store_entry_lookup _ _ _ Hnd), lookup_empty.
      destruct (JS.own_get props k) as [v|]; [|reflexivity].
      now destruct (stored_form k v). }
    simpl. split; [exact Hfields|]. split.
    + intros k x. rewrite Hfields.
      destruct (JS.own_get props k) as [v|]; [|discriminate].
      intros (Hin & Hsame & Hurl)%stored_form_cases. eauto.
    + intros k v Hin Hget. rewrite Hfields, Hget.
      apply benign_field_stored; [|exact Hin].
      apply ObjFacts.own_get_In in Hget.
      exact (proj1 (List.Forall_forall _ _) Hall _ Hget).
Qed.

(** C8.  [new Template(style, ...)] with a style outside the registry
    throws [Unsupported pass style ...] and creates nothing; with a style
    of the registry and no initial fields it returns a new Template with
    that style, no fields, key path [keys], no password, and a new, empty
    image collection. *)
Theorem construction_checks_style :
  (forall s fieldsArg h,
     ~ In s PASS_STYLES ->
     Template_new s fieldsArg h
     = (Throw (Error ("Unsupported pass style " +:+ s)), h))
  /\ (forall s fieldsArg h,
        In s PASS_STYLES -> fieldsArg = VUndefined \/ fieldsArg = VObj [] ->
        exists h',
          Template_new s fieldsArg h = (Normal (next h), h')
          /\ store h' !! next h
             = Some (OTemplate
                       (mkTemplate s ∅ (VStr "keys") VUndefined (Some (S (next h)))))
          /\ store h' !! S (next h) = Some (OImages [])).
Proof.
  split.
  - intros s fieldsArg h Hs. now apply Template_new_unsupported.
  - intros s fieldsArg h Hs Hf.
    destruct (Template_new_benign s fieldsArg [] h Hs) as (h' & Hrun & _ & Hst).
    { now destruct Hf as [-> | ->]. }
    { constructor. }
    exists h'. split; [exact Hrun|]. rewrite Hst. split.
    + apply lookup_insert_eq.
    + rewrite lookup_insert_ne by lia. apply lookup_insert_eq.
Qed.

(** C10.  Called without argument, the accessor of a recognized field
    returns the value stored for the field, [undefined] when there is
    none, and leaves the heap as it was. *)
Theorem accessor_read_only name h this t :
  In name field_names -> store h !! this = Some (OTemplate t) ->
  exists f,
    accessor_of name = Some f
    /\ f this [] h = (Normal (Value (default VUndefined (fields t !! name))), h).
Proof.
  intros [check Hc]%validator_of_field Ht.
  exists (accessor name check). rewrite accessor_of_validator, Hc.
  split; [reflexivity | now apply accessor_read].
Qed.

(** X1.  The constructor passes over the entries of the initial mapping
    that name no member: an entry whose key is neither a method of the
    class (the ten accessors, [keys], [createPass]) nor the name of a
    property of [Object.prototype] can be taken out of the mapping
    without changing what the construction does, wherever it stands and
    whatever its value. *)
Theorem unknown_entries_are_skipped s pre k v post h :
  ~ In k (field_names ++ ["keys"; "createPass"] ++ JS.Object_prototype_names) ->
  Template_new s (VObj (pre ++ (k, v) :: post)) h
  = Template_new s (VObj (pre ++ post)) h.
Proof.
  intros Hk. now apply Template_new_skip, not_member_not_callable.
Qed.

(** X2.  Once the first five steps of [load] have succeeded on a
    definition whose [passTypeIdentifier] is a string, [load] returns the
    Template, whatever the probe for the key file meets. *)
Theorem probe_outcome_is_swallowed folderPath pw h passJson template h1 id :
  load_bundle folderPath h = (Normal (passJson, template), h1) ->
  get_passTypeIdentifier passJson = VStr id ->
  exists h', load folderPath pw h = (Normal template, h').
Proof.
  intros Hbundle Hid. rewrite load_unfold, Hbundle, Hid. cbn [key_name].
  erewrite bind_Normal by reflexivity.
  destruct (probe_key_returns template folderPath
              (strip_pass_prefix id +:+ ".pem") pw h1) as (h' & Hprobe).
  exists h'. now rewrite (bind_Normal _ _ _ _ _ Hprobe).
Qed.

(** X3.  Once the first five steps of [load] have succeeded on a
    definition whose [passTypeIdentifier] is not a string, [load] throws
    a TypeError, with the Template already built. *)
Theorem key_name_needs_string_identifier folderPath pw h passJson template h1 :
  load_bundle folderPath h = (Normal (passJson, template), h1) ->
  (forall id, get_passTypeIdentifier passJson <> VStr id) ->
  load folderPath pw h = (Throw TypeError, h1).
Proof. apply load_throws_at_key_name. Qed.

End Properties.

(** ** Further properties of the class *)

(** X4.  Colour errors on strings.  [validateColorValue] throws a
    TypeError exactly on the strings that do not have the shape of the
    pattern; on a string of that shape with a component outside 0..255
    it throws [Invalid color value] followed by the string; and it
    throws nothing else. *)
Theorem color_error_kinds s :
  (validateColorValue (VStr s) = Throw TypeError
   <-> ~ exists r g b, color_shape s r g b)
  /\ (forall r g b,
        color_shape s r g b ->
        ~ (component r /\ component g /\ component b) ->
        validateColorValue (VStr s)
        = Throw (Error ("Invalid color value " +:+ s)))
  /\ (forall e,
        validateColorValue (VStr s) = Throw e ->
        e = TypeError \/ e = Error ("Invalid color value " +:+ s)).
Proof.
  destruct (validateColorValue_string_outcome s)
    as [[Hty Hno]|(r & g & b & Hshape & Hout)].
  - split; [tauto|]. split.
    + intros r g b Hshape _. exfalso. apply Hno. eauto.
    + intros e He. left. congruence.
  - split; [|split].
    + split; [|intros Hno; exfalso; apply Hno; eauto].
      intros Hty. destruct Hout as [Hok|Herr]; congruence.
    + intros r' g' b' Hshape' Hbad. destruct Hout as [Hok|Herr]; [|exact Herr].
      exfalso. apply Hbad.
      apply ColorFacts.validateColorValue_string in Hok
        as (r2 & g2 & b2 & Hshape2 & Hc).
      apply ColorFacts.exec_shape in Hshape', Hshape2.
      rewrite Hshape' in Hshape2. now injection Hshape2 as <- <- <-.
    + intros e He. right. destruct Hout as [Hok|Herr]; congruence.
Qed.

Section Further.
Context `{Host}.

(** X5.  The colour accessors do not ask for a string: the value goes
    through string conversion.  [undefined], [null], a boolean and a
    plain object are rejected with a TypeError; an array holding one
    string is judged as that string, and when it is accepted the field
    holds the array itself. *)
Theorem color_of_other_kinds :
  validateColorValue VUndefined = Throw TypeError
  /\ validateColorValue VNull = Throw TypeError
  /\ (forall b, validateColorValue (VBool b) = Throw TypeError)
  /\ (forall props, validateColorValue (VObj props) = Throw TypeError)
  /\ (forall s, validateColorValue (VArr [VStr s]) = validateColorValue (VStr s))
  /\ (forall h this t s,
        store h !! this = Some (OTemplate t) ->
        validateColorValue (VStr s) = Normal tt ->
        exists h',
          foregroundColor this [VArr [VStr s]] h = (Normal (This this), h')
          /\ foregroundColor this [] h' = (Normal (Value (VArr [VStr s])), h')).
Proof.
  split; [reflexivity|]. split; [reflexivity|].
  split; [intros []; reflexivity|].
  split; [exact validateColorValue_object|].
  split; [reflexivity|].
  intros h this t s Ht Hok.
  assert (Hc : check_color (VArr [VStr s]) = Normal (VArr [VStr s])).
  { unfold check_color.
    change (validateColorValue (VArr [VStr s])) with (validateColorValue (VStr s)).
    now rewrite Hok. }
  unfold foregroundColor. eexists.
  split; [apply (accessor_store _ _ _ _ _ _ _ Ht Hc)|].
  erewrite accessor_read by apply lookup_insert_eq.
  simpl. now rewrite lookup_insert_eq.
Qed.

(** X6.  Writing then reading.  After the accessor of a field has
    accepted a value, the same accessor without argument returns what
    the validator made of the value; the style, key path, password and
    image collection of the Template and every other object are as
    before; and every other accessor reads what it read before. *)
Theorem accessor_write_then_read name check this h t v x :
  validator_of name = Some check ->
  store h !! this = Some (OTemplate t) ->
  check v = Normal x ->
  exists f h' t',
    accessor_of name = Some f
    /\ f this [v] h = (Normal (This this), h')
    /\ f this [] h' = (Normal (Value x), h')
    /\ same_but this h h'
    /\ store h' !! this = Some (OTemplate t')
    /\ style t' = style t /\ keysPath t' = keysPath t
    /\ password t' = password t /\ images t' = images t
    /\ forall name' g,
         name' <> name -> accessor_of name' = Some g ->
         (g this [] h').1 = (g this [] h).1.
Proof.
  intros Hc Ht Hv. exists (accessor name check). eexists. exists (set_field name x t).
  split; [now rewrite accessor_of_validator, Hc|].
  split; [apply (accessor_store _ _ _ _ _ _ _ Ht Hv)|].
  split.
  { erewrite accessor_read by apply lookup_insert_eq.
    simpl. now rewrite lookup_insert_eq. }
  split.
  { split; [reflexivity|]. intros l Hl. simpl.
    now rewrite lookup_insert_ne by congruence. }
  split; [apply lookup_insert_eq|].
  repeat (split; [reflexivity|]).
  intros name' g Hne Hg. apply accessor_of_Some in Hg as (check' & _ & ->).
  now apply accessor_other_field.
Qed.

(** X7.  [suppressStripShine(v)] stores [v] exactly when [v] is a
    boolean; given anything else it throws [suppressStripShine value
    must be a boolean!] and changes nothing. *)
Theorem strip_shine_booleans_only this h t v :
  store h !! this = Some (OTemplate t) ->
  (JS.is_boolean v = true ->
   exists h',
     suppressStripShine this [v] h = (Normal (This this), h')
     /\ suppressStripShine this [] h' = (Normal (Value v), h'))
  /\ (JS.is_boolean v = false ->
      suppressStripShine this [v] h
      = (Throw (Error "suppressStripShine value must be a boolean!"), h))
  /\ ((suppressStripShine this [v] h).1 = Normal (This this)
      <-> JS.is_boolean v = true).
Proof.
  intros Ht. unfold suppressStripShine.
  assert (Hyes : JS.is_boolean v = true ->
                 exists h',
                   accessor "suppressStripShine" check_boolean this [v] h
                   = (Normal (This this), h')
                   /\ accessor "suppressStripShine" check_boolean this [] h'
                      = (Normal (Value v), h')).
  { intros Hb.
    assert (Hc : check_boolean v = Normal v) by (unfold check_boolean; now rewrite Hb).
    eexists. split; [apply (accessor_store _ _ _ _ _ _ _ Ht Hc)|].
    erewrite accessor_read by apply lookup_insert_eq.
    simpl. now rewrite lookup_insert_eq. }
  assert (Hno : JS.is_boolean v = false ->
                accessor "suppressStripShine" check_boolean this [v] h
                = (Throw (Error "suppressStripShine value must be a boolean!"), h)).
  { intros Hb. apply accessor_reject. unfold check_boolean. now rewrite Hb. }
  split; [exact Hyes|]. split; [exact Hno|].
  destruct (JS.is_boolean v) eqn:Hb.
  - destruct (Hyes eq_refl) as (h' & -> & _). now split.
  - rewrite (Hno eq_refl). split; discriminate.
Qed.

(** X8.  [keys(path, password)] replaces the key path when [path] is
    truthy and the password when [password] is truthy, and leaves each
    alone otherwise, so that neither can be cleared again; the style,
    fields and image collection of the Template and every other object
    are as before. *)
Theorem keys_sets_only_truthy this args h t :
  store h !! this = Some (OTemplate t) ->
  exists h' t',
    keys this args h = (Normal tt, h')
    /\ same_but this h h'
    /\ store h' !! this = Some (OTemplate t')
    /\ style t' = style t /\ fields t' = fields t /\ images t' = images t
    /\ keysPath t'
       = (if JS.ToBoolean (Obj.arg 0 args) then Obj.arg 0 args else keysPath t)
    /\ password t'
       = (if JS.ToBoolean (Obj.arg 1 args) then Obj.arg 1 args else password t)
    /\ (JS.ToBoolean (keysPath t) = true -> JS.ToBoolean (keysPath t') = true)
    /\ (JS.ToBoolean (password t) = true -> JS.ToBoolean (password t') = true).
Proof.
  intros Ht. eexists. exists (configure_keys (Obj.arg 0 args) (Obj.arg 1 args) t).
  split; [exact (keys_run _ _ _ _ Ht)|].
  split.
  { split; [reflexivity|]. intros l Hl. simpl.
    now rewrite lookup_insert_ne by congruence. }
  split; [apply lookup_insert_eq|].
  destruct (configure_keys_parts (Obj.arg 0 args) (Obj.arg 1 args) t)
    as (Hs & Hf & Hi & Hk & Hp).
  repeat (split; [assumption|]).
  rewrite Hk, Hp. split.
  - destruct (JS.ToBoolean (Obj.arg 0 args)) eqn:E; [intros _; exact E | tauto].
  - destruct (JS.ToBoolean (Obj.arg 1 args)) eqn:E; [intros _; exact E | tauto].
Qed.

(** X9.  Whatever the initial mapping, a construction that returns has
    allocated exactly two objects, the Template and after it its image
    collection, new and empty; the Template has the style asked for, a
    style of the registry, the key path [keys] and no password (an entry
    named [keys] in the mapping has no lasting effect), and its fields
    have only names among the ten field names. *)
Theorem constructed_template s fieldsArg h l h' :
  Template_new s fieldsArg h = (Normal l, h') ->
  l = next h /\ next h' = S (S l) /\ In s PASS_STYLES
  /\ exists t,
       store h' !! l = Some (OTemplate t)
       /\ style t = s /\ keysPath t = VStr "keys" /\ password t = VUndefined
       /\ images t = Some (S l)
       /\ store h' !! S l = Some (OImages PassImages_new)
       /\ forall name, is_Some (fields t !! name) -> In name field_names.
Proof.
  intros Hrun.
  destruct (Template_new_returns _ _ _ _ _ Hrun) as (Hl & Hs & Hn & _).
  destruct (Template_new_postcondition _ _ _ _ _ Hrun)
    as (_ & t & Ht & Hst & Hk & Hp & Hi & Hv & Himg).
  split; [exact Hl|]. split; [exact Hn|]. split; [exact Hs|].
  exists t. repeat (split; [assumption|]).
  intros name. now apply valid_fields_keys.
Qed.

(** X10.  Constructing with an initial mapping whose entries each name
    an accessor and carry a value that accessor accepts comes to the
    same as constructing without fields and then calling, in the order
    of the mapping, each entry's accessor on its value: the same
    Template in the same heap. *)
Theorem construction_is_accessor_calls s fieldsArg entries h :
  In s PASS_STYLES ->
  Obj.entries (Obj.default_empty fieldsArg) = Normal entries ->
  Forall accepted entries ->
  exists h1 h2,
    Template_new s VUndefined h = (Normal (next h), h1)
    /\ forEach entries (call_accessor (next h)) h1 = (Normal tt, h2)
    /\ Template_new s fieldsArg h = (Normal (next h), h2).
Proof. apply Template_new_then_accessors. Qed.

(** X11.  The constructor fails on a bad initial mapping: on [null] with
    a TypeError, and at the first entry whose accessor rejects its value
    (the entries before it being benign) with the error of that
    accessor's validator, whatever follows the entry. *)
Theorem construction_stops_at_first_rejected s h :
  In s PASS_STYLES ->
  (Template_new s VNull h).1 = Throw TypeError
  /\ forall fieldsArg pre k v post check e,
       Obj.entries (Obj.default_empty fieldsArg)
       = Normal (pre ++ (k, v) :: post)%list ->
       Forall benign pre -> validator_of k = Some check -> check v = Throw e ->
       (Template_new s fieldsArg h).1 = Throw e.
Proof.
  intros Hs. split.
  - rewrite Template_new_unfold. apply string_in_In in Hs. now rewrite Hs.
  - intros fieldsArg pre k v post check e. now apply Template_new_rejected.
Qed.

(** X12.  In every heap that clients can bring about, references are
    sound and image collections are not shared: every object lies below
    the allocation pointer; the image reference of a Template, once
    set, points to an image collection, the object allocated right
    after the Template; and two Templates with the same image reference
    are the same Template. *)
Theorem templates_own_their_images h :
  reachable h ->
  (forall l o, store h !! l = Some o -> l < next h)
  /\ (forall l t img,
        store h !! l = Some (OTemplate t) -> images t = Some img ->
        img = S l /\ exists i, store h !! img = Some (OImages i))
  /\ (forall l l' t t' img,
        store h !! l = Some (OTemplate t) -> store h !! l' = Some (OTemplate t') ->
        images t = Some img -> images t' = Some img -> l = l').
Proof.
  intros [Hwf Hown]%reachable_disciplined.
  assert (Himg : forall l t img,
             store h !! l = Some (OTemplate t) -> images t = Some img ->
             img = S l /\ exists i, store h !! img = Some (OImages i)).
  { intros l t img Ht Hi. destruct (Hown l t Ht) as [Hnone|[Hsome Hex]].
    - rewrite Hi in Hnone. discriminate.
    - rewrite Hi in Hsome. injection Hsome as ->. now split. }
  split; [|split; [exact Himg|]].
  - intros l o Ho. apply Hwf. now exists o.
  - intros l l' t t' img Ht Ht' Hi Hi'.
    destruct (Himg l t img Ht Hi) as [-> _].
    destruct (Himg l' t' _ Ht' Hi') as [Heq _]. lia.
Qed.

(** X13.  A call writes to its receiver at most.  In a heap that clients
    can bring about, constructing, loading and creating a Pass leave
    every existing object as it is, and an accessor or [keys] leaves
    every object other than its receiver as it is, whether the call
    returns or throws. *)
Theorem calls_write_only_their_receiver h c l o :
  reachable h -> store h !! l = Some o -> target c <> Some l ->
  store (perform h c) !! l = Some o.
Proof.
  intros [Hwf _]%reachable_disciplined Ho Hc.
  destruct (existing_below h l o Hwf Ho) as [Hl Hl'].
  rewrite <- Ho. destruct c as [s f|name this args|this args|this args|d p]; simpl.
  - now apply Template_new_frame.
  - destruct (accessor_of name) as [f|] eqn:E; [|reflexivity].
    apply accessor_of_Some in E as (check & _ & ->).
    apply (keeps_same_but_accessor this h name check args h (same_but_refl this h)).
    simpl in Hc. congruence.
  - apply (keeps_same_but_keys this h args h (same_but_refl this h)).
    simpl in Hc. congruence.
  - now rewrite createPass_heap.
  - now apply load_frame.
Qed.

(** X14.  The first step of [load]: when the path cannot be examined,
    [load] throws the error of the examination, and when it is no
    directory, [Path ... must be a directory!]; nothing is created. *)
Theorem load_needs_directory folderPath pw h :
  (forall e, statAsync folderPath = Throw e -> load folderPath pw h = (Throw e, h))
  /\ (forall stats,
        statAsync folderPath = Normal stats -> isDirectory stats = false ->
        load folderPath pw h
        = (Throw (Error ("Path " +:+ folderPath +:+ " must be a directory!")), h)).
Proof.
  split.
  - intros e. apply load_step_1_stat.
  - intros stats. apply load_step_1_directory.
Qed.

(** X15.  When the definition file parses to a value that is no object
    (a number, a string, a boolean or [null]) and the registry is not
    empty, [load] throws a TypeError, not [Unknown pass style!], and
    creates nothing. *)
Theorem load_of_scalar_definition folderPath pw h stats content v :
  statAsync folderPath = Normal stats -> isDirectory stats = true ->
  readFileAsync (path_join folderPath "pass.json") = Normal content ->
  JSON_parse content = Normal v ->
  scalar v = true -> PASS_STYLES <> [] ->
  load folderPath pw h = (Throw TypeError, h).
Proof.
  intros Hstat Hdir Hread Hparse Hv Hne.
  apply (load_fails_at_style _ _ _ _ _ _ _ Hstat Hdir Hread Hparse).
  now apply detect_style_scalar.
Qed.

(** X16.  [load] lets the failures of the construction and of the image
    loading through: on a definition object with a field whose accessor
    rejects its value (the entries before it being benign) it throws
    that validator's error, and on a definition whose entries are all
    benign but whose images cannot be loaded it throws the error of the
    image loading. *)
Theorem load_propagates_field_and_image_errors
    folderPath pw h stats content props type :
  statAsync folderPath = Normal stats -> isDirectory stats = true ->
  readFileAsync (path_join folderPath "pass.json") = Normal content ->
  JSON_parse content = Normal (VObj props) ->
  detect_style (VObj props) = Normal type ->
  (forall pre k v post check e,
     props = (pre ++ (k, v) :: post)%list ->
     Forall benign pre -> validator_of k = Some check -> check v = Throw e ->
     (load folderPath pw h).1 = Throw e)
  /\ (forall e,
        Forall benign props ->
        loadFromDirectory folderPath PassImages_new = Throw e ->
        (load folderPath pw h).1 = Throw e).
Proof.
  intros Hstat Hdir Hread Hparse Hstyle. split.
  - intros pre k v post check e Hprops Hpre Hc Hv.
    apply (load_throws_in_constructor _ _ _ _ _ _ _ _ Hstat Hdir Hread Hparse Hstyle).
    apply (Template_new_rejected type (VObj props) pre k v post check e h);
      [now apply (detect_style_In (VObj props)) | now rewrite <- Hprops
      | assumption | assumption | assumption].
  - intros e Hall Himgs.
    now apply (load_throws_at_images _ _ _ stats content props type).
Qed.

(** X17.  The keys of a loaded Template.  Whenever [load] returns, the
    identifier of the definition is a string, and the key file is looked
    up under its bare name (the identifier without a leading [pass.],
    followed by [.pem]; the bundle directory is not part of the name):
    when a regular file of that name is found, the key path is the
    bundle directory, unless that is the empty string, and the password
    the one given, if truthy; otherwise the key path is [keys] and there
    is no password. *)
Theorem load_key_configuration folderPath pw h l h' :
  load folderPath pw h = (Normal l, h') ->
  exists content passJson id t,
    readFileAsync (path_join folderPath "pass.json") = Normal content
    /\ JSON_parse content = Normal passJson
    /\ get_passTypeIdentifier passJson = VStr id
    /\ store h' !! l = Some (OTemplate t)
    /\ keysPath t
       = (if key_found (strip_pass_prefix id +:+ ".pem")
             && JS.ToBoolean (VStr folderPath)
          then VStr folderPath else VStr "keys")
    /\ password t
       = (if key_found (strip_pass_prefix id +:+ ".pem") && JS.ToBoolean pw
          then pw else VUndefined).
Proof. apply load_returns_keys. Qed.

(** X18.  [createPass] with [null], a boolean or a number in place of
    the overrides does not throw: the Pass gets the fields of the
    Template, as without argument.  (The copy leaves out an own property
    [__proto__] of the fields, which the accessors never create and no
    Template brought about through the class has.) *)
Theorem createPass_without_object_override h this t v :
  store h !! this = Some (OTemplate t) ->
  v = VNull \/ (exists b, v = VBool b) \/ (exists r, v = VNum r) ->
  createPass this [v] h = createPass this [] h
  /\ createPass this [v] h
     = (Normal (new_Pass this (delete "__proto__" (fields t)) (images t)), h)
  /\ (fields t !! "__proto__" = None ->
      createPass this [v] h = (Normal (new_Pass this (fields t) (images t)), h))
  /\ (reachable h ->
      createPass this [v] h = (Normal (new_Pass this (fields t) (images t)), h)).
Proof.
  intros Ht Hv. rewrite !(createPass_template _ _ _ _ Ht).
  assert (Hcopy : Obj.assign (delete "__proto__" (fields t))
                    (Obj.own_enumerable (Obj.default_empty (Obj.arg 0 [v])))
                  = delete "__proto__" (fields t))
    by (destruct Hv as [->|[[b ->]|[r ->]]]; reflexivity).
  rewrite Hcopy. split; [reflexivity|]. split; [reflexivity|].
  assert (Hno : fields t !! "__proto__" = None ->
                (Normal (new_Pass this (delete "__proto__" (fields t)) (images t)), h)
                = (Normal (new_Pass this (fields t) (images t)), h))
    by (intros Hno; now rewrite (delete_id _ _ Hno)).
  split; [exact Hno|].
  intros Hreach. apply Hno. exact (reachable_fields_no_proto h this t Hreach Ht).
Qed.

(** X19.  Whenever [load] returns, it has allocated exactly two objects:
    the Template, whose style is a style of the registry and whose
    fields have only names among the ten field names, and after it the
    Template's image collection, which holds what the image loading made
    of an empty collection for the bundle directory. *)
Theorem loaded_template_shape folderPath pw h l h' :
  load folderPath pw h = (Normal l, h') ->
  l = next h /\ next h' = S (S l)
  /\ exists t imgs,
       store h' !! l = Some (OTemplate t)
       /\ In (style t) PASS_STYLES
       /\ images t = Some (S l)
       /\ loadFromDirectory folderPath PassImages_new = Normal imgs
       /\ store h' !! S l = Some (OImages imgs)
       /\ forall name, is_Some (fields t !! name) -> In name field_names.
Proof.
  intros Hrun.
  destruct (load_returns_shape _ _ _ _ _ Hrun)
    as (Hl & Hn & t & imgs & Ht & Hs & Hi & Himgs & Hst & Hv).
  split; [exact Hl|]. split; [exact Hn|]. exists t, imgs.
  repeat (split; [assumption|]).
  intros name. now apply valid_fields_keys.
Qed.

(** X20.  An initial mapping that is no mapping is passed over in
    silence: with an array, a string, a number or a boolean in place of
    the initial fields, the constructor does what it does without
    initial fields. *)
Theorem non_mapping_fields_are_ignored s h :
  (forall l, Template_new s (VArr l) h = Template_new s VUndefined h)
  /\ (forall str, Template_new s (VStr str) h = Template_new s VUndefined h)
  /\ (forall r, Template_new s (VNum r) h = Template_new s VUndefined h)
  /\ (forall b, Template_new s (VBool b) h = Template_new s VUndefined h).
Proof.
  split; [|split; [|split]].
  - intros l. apply (Template_new_not_callable s (VArr l) _ h eq_refl), indexed_keys.
  - intros str.
    apply (Template_new_not_callable s (VStr str) _ h eq_refl), indexed_keys.
  - intros r. now apply (Template_new_not_callable s _ [] h).
  - intros b. now apply (Template_new_not_callable s _ [] h).
Qed.

End Further.

(** X21.  The name of the key file: one leading [pass.] of the
    identifier is dropped, nothing else, and [.pem] is appended; an
    identifier that does not begin with [pass.] is kept whole. *)
Theorem key_name_strips_one_prefix s :
  key_name (VStr ("pass." +:+ s)) = Normal (s +:+ ".pem")
  /\ ((forall r, s <> "pass." +:+ r) -> key_name (VStr s) = Normal (s +:+ ".pem")).
Proof.
  unfold key_name, strip_pass_prefix. split.
  - now rewrite (CharsFacts.strip_prefix_app "pass.").
  - intros Hno. destruct (Chars.strip_prefix "pass." s) as [rest|] eqn:E;
      [|reflexivity].
    apply CharsFacts.strip_prefix_Some in E. now destruct (Hno rest).
Qed.

(** ** The model at work on the small host *)

Module Run.
Import Demo.

Lemma styles_not_inherited :
  forall t, In t (@PASS_STYLES host) -> ~ In t JS.Object_prototype_names.
Proof.
  intros t Ht Hp. cbv [PASS_STYLES host styles In] in Ht.
  cbv [JS.Object_prototype_names In] in Hp.
  repeat (destruct Ht as [<-|Ht];
          [repeat (destruct Hp as [Hp|Hp]; [discriminate Hp|]); exact Hp|]).
  exact Ht.
Qed.

Lemma ticket_keys_distinct : List.NoDup (map fst ticket_props).
Proof.
  repeat (constructor; [cbv [In map fst ticket_props]; intuition discriminate|]).
  constructor.
Qed.

Lemma ticket_entries_benign : Forall (@benign host) ticket_props.
Proof.
  repeat (constructor;
          [first [ left; eexists; vm_compute; reflexivity
                 | right; vm_compute; reflexivity ]|]).
  constructor.
Qed.

(** C2 as amended, on the coupon Template: an override adds its key,
    its key [__proto__] is not copied, the Pass refers to the Template
    and to its image collection, and the heap stays. *)
Lemma createPass_merges_and_shares_witness :
  store heap1 !! 0 = Some (OTemplate coupon)
  /\ exists merged,
       createPass 0 [VObj [("foo", VStr "bar"); ("__proto__", VStr "x")]] heap1
       = (Normal (new_Pass 0 merged (Some 1)), heap1)
       /\ merged !! "logoText" = Some (VStr "X")
       /\ merged !! "foo" = Some (VStr "bar")
       /\ merged !! "__proto__" = None.
Proof.
  assert (Ht : store heap1 !! 0 = Some (OTemplate coupon)) by reflexivity.
  split; [exact Ht|].
  destruct (@createPass_merges_and_shares host heap1 0 coupon
              [("foo", VStr "bar"); ("__proto__", VStr "x")] Ht)
    as [(merged & Hrun & Hmerged & Hproto) _].
  exists merged. split; [exact Hrun|].
  split; [|split; [|exact Hproto]]; rewrite Hmerged by discriminate; reflexivity.
Defined.

(** C5, on the coupon Template: an https URL is stored in normalized
    form and read back; an http URL is refused. *)
Lemma webServiceURL_requires_https_witness :
  store heap1 !! 0 = Some (OTemplate coupon)
  /\ (exists h',
        @webServiceURL host 0 [VStr "https://example.com"] heap1
        = (Normal (This 0), h')
        /\ @webServiceURL host 0 [] h'
           = (Normal (Value (VStr "https://example.com/")), h'))
  /\ @webServiceURL host 0 [VStr "http://example.com"] heap1
     = (Throw (Error "webServiceURL must be on HTTPS!"), heap1).
Proof.
  assert (Ht : store heap1 !! 0 = Some (OTemplate coupon)) by reflexivity.
  split; [exact Ht|]. split.
  - destruct (@webServiceURL_requires_https host heap1 0 coupon
                (VStr "https://example.com") Ht) as (_ & _ & _ & Hok).
    exact (Hok (mkURL "https://example.com/") eq_refl eq_refl).
  - destruct (@webServiceURL_requires_https host heap1 0 coupon
                (VStr "http://example.com") Ht) as (_ & _ & Hno & _).
    apply (Hno (mkURL "http://example.com/") eq_refl). discriminate.
Defined.

(** C10, on the coupon Template: reading the logo text. *)
Lemma accessor_read_only_witness :
  In "logoText" field_names
  /\ store heap1 !! 0 = Some (OTemplate coupon)
  /\ exists f,
       @accessor_of host "logoText" = Some f
       /\ f 0 [] heap1 = (Normal (Value (VStr "X")), heap1).
Proof.
  assert (Hin : In "logoText" field_names) by (cbv [field_names In]; tauto).
  assert (Ht : store heap1 !! 0 = Some (OTemplate coupon)) by reflexivity.
  split; [exact Hin|]. split; [exact Ht|].
  exact (@accessor_read_only host "logoText" heap1 0 coupon Hin Ht).
Defined.

(** C6, on the ticket bundle: the style found is [eventTicket], the
    third of the registry, and [load] returns a Template of that
    style. *)
Lemma style_is_first_registered_key_witness :
  (forall t, In t (@PASS_STYLES host) -> ~ In t JS.Object_prototype_names)
  /\ @detect_style host (VObj ticket_props) = Normal "eventTicket"
  /\ exists h',
       @load host "ticket" VUndefined empty_heap = (Normal 0, h')
       /\ has_style 0 "eventTicket" h'.
Proof.
  split; [exact styles_not_inherited|].
  destruct (@style_is_first_registered_key host ticket_props styles_not_inherited)
    as (Hiff & _ & Hload).
  assert (Hpre : forall t, In t ["boardingPass"; "coupon"] ->
                           ~ In t (map fst ticket_props)).
  { intros t Ht. cbv [In] in Ht. cbv [In map fst ticket_props].
    destruct Ht as [<-|[<-|[]]]; intuition discriminate. }
  assert (Hkey : In "eventTicket" (map fst ticket_props))
    by (cbv [In map fst ticket_props]; tauto).
  split.
  - apply Hiff. exists ["boardingPass"; "coupon"], ["generic"; "storeCard"].
    split; [reflexivity|]. split; [exact Hkey | exact Hpre].
  - destruct (Hload "ticket" VUndefined empty_heap (mkStats true false)
                (stringify ticket_json)) as [_ Hfirst].
    + reflexivity.
    + reflexivity.
    + reflexivity.
    + vm_compute. reflexivity.
    + destruct (Hfirst ["boardingPass"; "coupon"] "eventTicket"
                  ["generic"; "storeCard"] eq_refl Hkey Hpre) as (_ & _ & Hruns).
      exact (Hruns "pass.com.example.ticket" [("icon", "ticket/icon.png")]
               ticket_entries_benign eq_refl eq_refl).
Defined.

(** C7 as amended, on the ticket bundle. *)
Lemma load_outcomes_witness :
  @statAsync host "ticket" = Normal (mkStats true false)
  /\ isDirectory (mkStats true false) = true
  /\ (forall t, In t (@PASS_STYLES host) -> ~ In t JS.Object_prototype_names)
  /\ exists h' t,
       @load host "ticket" VUndefined empty_heap = (Normal 0, h')
       /\ store h' !! 0 = Some (OTemplate t)
       /\ style t = "eventTicket"
       /\ fields t !! "logoText" = Some (VStr "Gala")
       /\ fields t !! "webServiceURL" = Some (VStr "https://example.com/")
       /\ fields t !! "eventTicket" = None.
Proof.
  assert (Hstat : @statAsync host "ticket" = Normal (mkStats true false))
    by reflexivity.
  split; [exact Hstat|]. split; [reflexivity|].
  split; [exact styles_not_inherited|].
  destruct (@load_outcomes host "ticket" VUndefined empty_heap (mkStats true false)
              Hstat eq_refl styles_not_inherited) as (_ & _ & _ & Hok).
  destruct (Hok (stringify ticket_json) ticket_props "pass.com.example.ticket"
              [("icon", "ticket/icon.png")])
    as (h' & t & Hrun & Ht & Hstyle & Hfields & _).
  - reflexivity.
  - vm_compute. reflexivity.
  - exact ticket_keys_distinct.
  - cbv [PASS_STYLES host styles In]. tauto.
  - cbv [In map fst ticket_props]. tauto.
  - intros t Ht Hne. cbv [PASS_STYLES host styles In] in Ht.
    cbv [In map fst ticket_props].
    destruct Ht as [<-|[<-|[<-|[<-|[<-|[]]]]]]; intuition discriminate.
  - exact ticket_entries_benign.
  - reflexivity.
  - reflexivity.
  - exists h', t. split; [exact Hrun|]. split; [exact Ht|]. split; [exact Hstyle|].
    rewrite !Hfields. repeat split; vm_compute; reflexivity.
Defined.

(** C4: a string of the shape the specification describes, with white
    space before a comma, that [validateColorValue] rejects. *)
Lemma color_space_before_comma_rejected :
  spec_color_shape "rgb(1 ,2,3)"
  /\ validateColorValue (VStr "rgb(1 ,2,3)") = Throw TypeError.
Proof.
  split; [|vm_compute; reflexivity].
  exists "1", "2", "3", "", "", " ", "", "", "", "", "".
  unfold spaces, digits, component.
  repeat split; try reflexivity; try (simpl; lia); vm_compute; discriminate.
Qed.

(** C2: an override mapping with a key [__proto__], as [JSON.parse]
    gives for a definition with that key: the merged mapping does not
    give the key the value the override gives it. *)
Lemma createPass_drops_proto_override :
  store heap1 !! 0 = Some (OTemplate coupon)
  /\ last_value [("__proto__", VStr "x")] "__proto__" = Some (VStr "x")
  /\ exists merged,
       createPass 0 [VObj [("__proto__", VStr "x")]] heap1
       = (Normal (new_Pass 0 merged (Some 1)), heap1)
       /\ merged !! "__proto__" = None
       /\ ~ (forall k, merged !! k
                       = match last_value [("__proto__", VStr "x")] k with
                         | Some v => Some v
                         | None => fields coupon !! k
                         end).
Proof.
  split; [reflexivity|]. split; [reflexivity|].
  eexists. split; [vm_compute; reflexivity|].
  split; [vm_compute; reflexivity|].
  intros Hall. specialize (Hall "__proto__"). vm_compute in Hall. discriminate.
Qed.

(** C7: the ticket bundle is well formed and loads, but the fields of
    the Template are not the content of its definition, which has the
    keys [eventTicket] and [formatVersion] besides. *)
Lemma loaded_fields_are_not_definition_content :
  exists h' t,
    @load host "ticket" VUndefined empty_heap = (Normal 0, h')
    /\ store h' !! 0 = Some (OTemplate t)
    /\ style t = "eventTicket"
    /\ fields t <> content ticket_props.
Proof.
  destruct (@load host "ticket" VUndefined empty_heap) as [c h'] eqn:Hrun.
  vm_compute in Hrun. injection Hrun as <- <-.
  eexists _, _. split; [reflexivity|]. split; [vm_compute; reflexivity|].
  split; [reflexivity|].
  intros Heq. apply (f_equal (fun m => m !! "eventTicket")) in Heq.
  vm_compute in Heq. discriminate.
Qed.

(** C3: the bundle [bare], whose definition has no [passTypeIdentifier],
    passes the first five steps of [load]; [load] then throws a
    TypeError, raised where the name of the key file is derived. *)
Theorem key_name_derivation_is_unguarded :
  (exists h1, @load_bundle host "bare" empty_heap = (Normal (bare_json, 0), h1))
  /\ (@load host "bare" VUndefined empty_heap).1 = Throw TypeError.
Proof. split; [eexists|]; vm_compute; reflexivity. Qed.

(** C9: [constructor] is no field name, yet an initial mapping with that
    key makes the construction throw a TypeError: the key names a
    callable member of the instance, which is called. *)
Theorem constructor_key_is_called :
  ~ In "constructor" field_names
  /\ (@Template_new host "coupon" (VObj [("constructor", VStr "x")]) empty_heap).1
     = Throw TypeError.
Proof.
  split; [cbv [field_names In]; intuition discriminate | vm_compute; reflexivity].
Qed.

(** X1, on a mapping with a logo text and a key [foo]. *)
Lemma unknown_entries_are_skipped_witness :
  ~ In "foo" (field_names ++ ["keys"; "createPass"] ++ JS.Object_prototype_names)
  /\ @Template_new host "coupon"
       (VObj [("logoText", VStr "X"); ("foo", VStr "bar")]) empty_heap
     = @Template_new host "coupon" (VObj [("logoText", VStr "X")]) empty_heap.
Proof.
  assert (Hk : ~ In "foo" (field_names ++ ["keys"; "createPass"]
                             ++ JS.Object_prototype_names))
    by (cbv [field_names JS.Object_prototype_names app In]; intuition discriminate).
  split; [exact Hk|].
  exact (@unknown_entries_are_skipped host "coupon" [("logoText", VStr "X")]
           "foo" (VStr "bar") [] empty_heap Hk).
Defined.

(** X2, on the ticket bundle, for which no key file exists. *)
Lemma probe_outcome_is_swallowed_witness :
  (exists h1, @load_bundle host "ticket" empty_heap = (Normal (ticket_json, 0), h1))
  /\ @get_passTypeIdentifier ticket_json = VStr "pass.com.example.ticket"
  /\ @key_found host "com.example.ticket.pem" = false
  /\ exists h', @load host "ticket" VUndefined empty_heap = (Normal 0, h').
Proof.
  destruct (@load_bundle host "ticket" empty_heap) as [c h1] eqn:Hbundle.
  assert (Hc : c = Normal (ticket_json, 0))
    by (apply (f_equal fst) in Hbundle; vm_compute in Hbundle; symmetry; exact Hbundle).
  subst c.
  split; [eexists; reflexivity|]. split; [reflexivity|]. split; [reflexivity|].
  exact (@probe_outcome_is_swallowed host "ticket" VUndefined empty_heap
           ticket_json 0 h1 "pass.com.example.ticket" Hbundle eq_refl).
Defined.

(** X3, on the bundle without identifier. *)
Lemma key_name_needs_string_identifier_witness :
  (exists h1,
     @load_bundle host "bare" empty_heap = (Normal (bare_json, 0), h1)
     /\ @load host "bare" VUndefined empty_heap = (Throw TypeError, h1))
  /\ forall id, @get_passTypeIdentifier bare_json <> VStr id.
Proof.
  assert (Hid : forall id, @get_passTypeIdentifier bare_json <> VStr id)
    by (intros id; discriminate).
  split; [|exact Hid].
  destruct (@load_bundle host "bare" empty_heap) as [c h1] eqn:Hbundle.
  assert (Hc : c = Normal (bare_json, 0))
    by (apply (f_equal fst) in Hbundle; vm_compute in Hbundle; symmetry; exact Hbundle).
  subst c. exists h1. split; [reflexivity|].
  exact (@key_name_needs_string_identifier host "bare" VUndefined empty_heap
           bare_json 0 h1 Hbundle Hid).
Defined.

(** The examples of the specification. *)

Example web_service_http_instance :
  @webServiceURL host 0 [VURL (mkURL "http://evil.example/")] heap1
  = (Throw (Error "webServiceURL must be on HTTPS!"), heap1).
Proof. vm_compute. reflexivity. Qed.

Example color_white : validateColorValue (VStr "rgb(255,255,255)") = Normal tt.
Proof. vm_compute. reflexivity. Qed.

Example color_with_spaces : validateColorValue (VStr "rgb( 123, 2,  22 )") = Normal tt.
Proof. vm_compute. reflexivity. Qed.

Example color_256 :
  validateColorValue (VStr "rgb(256,0,0)")
  = Throw (Error "Invalid color value rgb(256,0,0)").
Proof. vm_compute. reflexivity. Qed.

Example color_not_a_color : validateColorValue (VStr "not-a-color") = Throw TypeError.
Proof. vm_compute. reflexivity. Qed.

Example color_four_digits : validateColorValue (VStr "rgb(0255,0,0)") = Throw TypeError.
Proof. vm_compute. reflexivity. Qed.

Example strip_shine_number :
  suppressStripShine 0 [VNum "1"] heap1
  = (Throw (Error "suppressStripShine value must be a boolean!"), heap1).
Proof. vm_compute. reflexivity. Qed.

Example strip_shine_true :
  exists h', suppressStripShine 0 [VBool true] heap1 = (Normal (This 0), h')
             /\ suppressStripShine 0 [] h' = (Normal (Value (VBool true)), h').
Proof. eexists. split; vm_compute; reflexivity. Qed.

Example load_without_definition :
  @load host "empty" VUndefined empty_heap = (Throw (HostError "ENOENT"), empty_heap).
Proof. vm_compute. reflexivity. Qed.

Example load_without_style :
  @load host "plain" VUndefined empty_heap
  = (Throw (Error "Unknown pass style!"), empty_heap).
Proof. vm_compute. reflexivity. Qed.

Example new_with_unknown_key :
  store (@Template_new host "coupon"
           (VObj [("logoText", VStr "X"); ("foo", VStr "bar")]) empty_heap).2 !! 0
  = Some (OTemplate
            (mkTemplate "coupon" {[ "logoText" := VStr "X" ]} (VStr "keys")
               VUndefined (Some 1))).
Proof. vm_compute. reflexivity. Qed.

End Run.

(** ** The further properties at work on the two small hosts *)

Module Trials.
Import Demo.

Lemma heap1_reachable : @reachable host heap1.
Proof.
  exists [New "coupon" (VObj [("logoText", VStr "X")])]. vm_compute. reflexivity.
Qed.

Lemma insecure_prefix_benign :
  Forall (@benign Lab.host)
    [ ("coupon", VObj []);
      ("passTypeIdentifier", VStr "pass.com.example.insecure");
      ("logoText", VStr "Shop") ].
Proof.
  repeat (constructor;
          [first [ left; eexists; vm_compute; reflexivity
                 | right; vm_compute; reflexivity ]|]).
  constructor.
Qed.

Lemma keyed_entries_benign : Forall (@benign Lab.host) Lab.keyed_props.
Proof.
  repeat (constructor;
          [first [ left; eexists; vm_compute; reflexivity
                 | right; vm_compute; reflexivity ]|]).
  constructor.
Qed.

(** X6, on the coupon Template: a label colour is stored and read back,
    and the logo text reads as before. *)
Lemma accessor_write_then_read_witness :
  @validator_of host "labelColor" = Some check_color
  /\ store heap1 !! 0 = Some (OTemplate coupon)
  /\ check_color (VStr "rgb(1, 2, 3)") = Normal (VStr "rgb(1, 2, 3)")
  /\ exists h',
       labelColor 0 [VStr "rgb(1, 2, 3)"] heap1 = (Normal (This 0), h')
       /\ labelColor 0 [] h' = (Normal (Value (VStr "rgb(1, 2, 3)")), h')
       /\ store h' !! 1 = Some (OImages [])
       /\ (logoText 0 [] h').1 = Normal (Value (VStr "X")).
Proof.
  assert (Hc : @validator_of host "labelColor" = Some check_color) by reflexivity.
  assert (Ht : store heap1 !! 0 = Some (OTemplate coupon)) by reflexivity.
  assert (Hv : check_color (VStr "rgb(1, 2, 3)") = Normal (VStr "rgb(1, 2, 3)"))
    by (vm_compute; reflexivity).
  split; [exact Hc|]. split; [exact Ht|]. split; [exact Hv|].
  destruct (@accessor_write_then_read host "labelColor" check_color 0 heap1 coupon
              (VStr "rgb(1, 2, 3)") (VStr "rgb(1, 2, 3)") Hc Ht Hv)
    as (f & h' & t' & Hf & Hw & Hr & [_ Hsame] & _ & _ & _ & _ & _ & Hothers).
  injection Hf as <-.
  exists h'. split; [exact Hw|]. split; [exact Hr|]. split.
  - etransitivity; [apply Hsame; discriminate | reflexivity].
  - rewrite (Hothers "logoText" logoText); [reflexivity | discriminate
      | reflexivity].
Defined.

(** X7, on the coupon Template: [true] is stored, the string [yes] is
    refused. *)
Lemma strip_shine_booleans_only_witness :
  store heap1 !! 0 = Some (OTemplate coupon)
  /\ (exists h',
        suppressStripShine 0 [VBool true] heap1 = (Normal (This 0), h')
        /\ suppressStripShine 0 [] h' = (Normal (Value (VBool true)), h'))
  /\ suppressStripShine 0 [VStr "yes"] heap1
     = (Throw (Error "suppressStripShine value must be a boolean!"), heap1).
Proof.
  assert (Ht : store heap1 !! 0 = Some (OTemplate coupon)) by reflexivity.
  split; [exact Ht|]. split.
  - destruct (strip_shine_booleans_only 0 heap1 coupon (VBool true) Ht)
      as (Hyes & _ & _).
    exact (Hyes eq_refl).
  - destruct (strip_shine_booleans_only 0 heap1 coupon (VStr "yes") Ht)
      as (_ & Hno & _).
    exact (Hno eq_refl).
Defined.

(** X8, on the coupon Template: an empty path leaves the key path, a
    password is taken. *)
Lemma keys_sets_only_truthy_witness :
  store heap1 !! 0 = Some (OTemplate coupon)
  /\ exists h' t',
       keys 0 [VStr ""; VStr "secret"] heap1 = (Normal tt, h')
       /\ store h' !! 0 = Some (OTemplate t')
       /\ keysPath t' = VStr "keys" /\ password t' = VStr "secret"
       /\ fields t' = fields coupon.
Proof.
  assert (Ht : store heap1 !! 0 = Some (OTemplate coupon)) by reflexivity.
  split; [exact Ht|].
  destruct (keys_sets_only_truthy 0 [VStr ""; VStr "secret"] heap1 coupon Ht)
    as (h' & t' & Hrun & _ & Ht' & _ & Hf & _ & Hk & Hp & _).
  exists h', t'. split; [exact Hrun|]. split; [exact Ht'|].
  split; [exact Hk|]. split; [exact Hp | exact Hf].
Defined.

(** X9, on a mapping with an entry named [keys]: the key path of the new
    Template is [keys] all the same. *)
Lemma constructed_template_witness :
  exists h' t,
    @Template_new host "coupon"
      (VObj [("keys", VStr "elsewhere"); ("logoText", VStr "X")]) empty_heap
    = (Normal 0, h')
    /\ next h' = 2
    /\ store h' !! 0 = Some (OTemplate t)
    /\ keysPath t = VStr "keys" /\ password t = VUndefined
    /\ store h' !! 1 = Some (OImages []).
Proof.
  destruct (@Template_new host "coupon"
              (VObj [("keys", VStr "elsewhere"); ("logoText", VStr "X")]) empty_heap)
    as [c h'] eqn:Hrun.
  assert (Hc : c = Normal 0)
    by (apply (f_equal fst) in Hrun; vm_compute in Hrun; symmetry; exact Hrun).
  subst c.
  destruct (@constructed_template host _ _ _ _ _ Hrun)
    as (_ & Hn & _ & t & Ht & _ & Hk & Hp & _ & Himg & _).
  exists h', t. split; [reflexivity|]. split; [exact Hn|]. split; [exact Ht|].
  split; [exact Hk|]. split; [exact Hp | exact Himg].
Defined.

(** X10, on a mapping with a logo text and a boolean. *)
Lemma construction_is_accessor_calls_witness :
  In "coupon" (@PASS_STYLES host)
  /\ Forall (@accepted host)
       [("logoText", VStr "X"); ("suppressStripShine", VBool true)]
  /\ exists h1 h2,
       @Template_new host "coupon" VUndefined empty_heap = (Normal 0, h1)
       /\ forEach [("logoText", VStr "X"); ("suppressStripShine", VBool true)]
            (@call_accessor host 0) h1 = (Normal tt, h2)
       /\ @Template_new host "coupon"
            (VObj [("logoText", VStr "X"); ("suppressStripShine", VBool true)])
            empty_heap
          = (Normal 0, h2).
Proof.
  assert (Hs : In "coupon" (@PASS_STYLES host))
    by (cbv [PASS_STYLES host styles In]; tauto).
  assert (Hall : Forall (@accepted host)
                   [("logoText", VStr "X"); ("suppressStripShine", VBool true)])
    by (repeat (constructor; [eexists; vm_compute; reflexivity|]); constructor).
  split; [exact Hs|]. split; [exact Hall|].
  exact (@construction_is_accessor_calls host "coupon"
           (VObj [("logoText", VStr "X"); ("suppressStripShine", VBool true)])
           _ empty_heap Hs eq_refl Hall).
Defined.

(** X11: [null], and a mapping whose second entry is refused while its
    third would be refused too. *)
Lemma construction_stops_at_first_rejected_witness :
  In "coupon" (@PASS_STYLES host)
  /\ (@Template_new host "coupon" VNull empty_heap).1 = Throw TypeError
  /\ (@Template_new host "coupon"
        (VObj [("logoText", VStr "X"); ("suppressStripShine", VStr "yes");
               ("labelColor", VStr "red")]) empty_heap).1
     = Throw (Error "suppressStripShine value must be a boolean!").
Proof.
  assert (Hs : In "coupon" (@PASS_STYLES host))
    by (cbv [PASS_STYLES host styles In]; tauto).
  split; [exact Hs|].
  destruct (@construction_stops_at_first_rejected host "coupon" empty_heap Hs)
    as [Hnull Hrej].
  split; [exact Hnull|].
  apply (Hrej (VObj [("logoText", VStr "X"); ("suppressStripShine", VStr "yes");
                     ("labelColor", VStr "red")])
           [("logoText", VStr "X")] "suppressStripShine" (VStr "yes")
           [("labelColor", VStr "red")] check_boolean).
  - reflexivity.
  - constructor; [|constructor]. left. eexists. vm_compute. reflexivity.
  - reflexivity.
  - reflexivity.
Defined.

(** X12, on the heap with the coupon Template. *)
Lemma templates_own_their_images_witness :
  @reachable host heap1
  /\ (forall l o, store heap1 !! l = Some o -> l < next heap1)
  /\ (forall l t img,
        store heap1 !! l = Some (OTemplate t) -> images t = Some img ->
        img = S l /\ exists i, store heap1 !! img = Some (OImages i)).
Proof.
  split; [exact heap1_reachable|].
  destruct (@templates_own_their_images host heap1 heap1_reachable)
    as (Hbelow & Hown & _).
  split; [exact Hbelow | exact Hown].
Defined.

(** X13, on the heap with the coupon Template: loading a bundle leaves
    the Template as it is, and setting its logo text leaves its image
    collection as it is. *)
Lemma calls_write_only_their_receiver_witness :
  @reachable host heap1
  /\ store heap1 !! 0 = Some (OTemplate coupon)
  /\ target (Load "ticket" VUndefined) <> Some 0
  /\ store (@perform host heap1 (Load "ticket" VUndefined)) !! 0
     = Some (OTemplate coupon)
  /\ store heap1 !! 1 = Some (OImages [])
  /\ target (Access "logoText" 0 [VStr "Y"]) <> Some 1
  /\ store (@perform host heap1 (Access "logoText" 0 [VStr "Y"])) !! 1
     = Some (OImages []).
Proof.
  assert (Ht : store heap1 !! 0 = Some (OTemplate coupon)) by reflexivity.
  assert (Hi : store heap1 !! 1 = Some (OImages [])) by reflexivity.
  assert (Hc : target (Load "ticket" VUndefined) <> Some 0) by discriminate.
  assert (Hc' : target (Access "logoText" 0 [VStr "Y"]) <> Some 1) by discriminate.
  split; [exact heap1_reachable|]. split; [exact Ht|]. split; [exact Hc|].
  split; [exact (@calls_write_only_their_receiver host heap1 _ 0 _
                   heap1_reachable Ht Hc)|].
  split; [exact Hi|]. split; [exact Hc'|].
  exact (@calls_write_only_their_receiver host heap1 _ 1 _ heap1_reachable Hi Hc').
Defined.

(** X15, on the bundle whose definition file holds a number. *)
Lemma load_of_scalar_definition_witness :
  @statAsync Lab.host "scalar" = Normal (mkStats true false)
  /\ @readFileAsync Lab.host (@path_join Lab.host "scalar" "pass.json") = Normal "5"
  /\ @JSON_parse Lab.host "5" = Normal (VNum "5")
  /\ scalar (VNum "5") = true
  /\ @PASS_STYLES Lab.host <> []
  /\ @load Lab.host "scalar" VUndefined empty_heap = (Throw TypeError, empty_heap).
Proof.
  assert (Hstat : @statAsync Lab.host "scalar" = Normal (mkStats true false))
    by reflexivity.
  assert (Hread : @readFileAsync Lab.host (@path_join Lab.host "scalar" "pass.json")
                  = Normal "5") by reflexivity.
  assert (Hparse : @JSON_parse Lab.host "5" = Normal (VNum "5"))
    by (vm_compute; reflexivity).
  assert (Hne : @PASS_STYLES Lab.host <> []) by discriminate.
  split; [exact Hstat|]. split; [exact Hread|]. split; [exact Hparse|].
  split; [reflexivity|]. split; [exact Hne|].
  exact (@load_of_scalar_definition Lab.host "scalar" VUndefined empty_heap
           (mkStats true false) "5" (VNum "5") Hstat eq_refl Hread Hparse eq_refl Hne).
Defined.

(** X16, on the bundle with an http web service URL: the error is the
    URL's, though the label colour after it is fine; and on the bundle
    whose images cannot be loaded. *)
Lemma load_propagates_field_and_image_errors_witness :
  @statAsync Lab.host "insecure" = Normal (mkStats true false)
  /\ @detect_style Lab.host (VObj Lab.insecure_props) = Normal "coupon"
  /\ @check_url Lab.host (VStr "http://example.com")
     = Throw (Error "webServiceURL must be on HTTPS!")
  /\ (@load Lab.host "insecure" VUndefined empty_heap).1
     = Throw (Error "webServiceURL must be on HTTPS!")
  /\ @statAsync Lab.host "noimages" = Normal (mkStats true false)
  /\ @detect_style Lab.host (VObj Lab.keyed_props) = Normal "coupon"
  /\ @loadFromDirectory Lab.host "noimages" PassImages_new
     = Throw (HostError "EACCES")
  /\ (@load Lab.host "noimages" VUndefined empty_heap).1
     = Throw (HostError "EACCES").
Proof.
  assert (Hstat : @statAsync Lab.host "insecure" = Normal (mkStats true false))
    by reflexivity.
  assert (Hstyle : @detect_style Lab.host (VObj Lab.insecure_props) = Normal "coupon")
    by (vm_compute; reflexivity).
  assert (Hurl : @check_url Lab.host (VStr "http://example.com")
                 = Throw (Error "webServiceURL must be on HTTPS!"))
    by (vm_compute; reflexivity).
  assert (Hstat' : @statAsync Lab.host "noimages" = Normal (mkStats true false))
    by reflexivity.
  assert (Hstyle' : @detect_style Lab.host (VObj Lab.keyed_props) = Normal "coupon")
    by (vm_compute; reflexivity).
  assert (Himgs : @loadFromDirectory Lab.host "noimages" PassImages_new
                  = Throw (HostError "EACCES")) by reflexivity.
  split; [exact Hstat|]. split; [exact Hstyle|]. split; [exact Hurl|]. split.
  { destruct (@load_propagates_field_and_image_errors Lab.host "insecure" VUndefined
                empty_heap (mkStats true false)
                (stringify (VObj Lab.insecure_props)) Lab.insecure_props "coupon"
                Hstat eq_refl) as [Hfield _].
    - reflexivity.
    - vm_compute. reflexivity.
    - exact Hstyle.
    - exact (Hfield [ ("coupon", VObj []);
                      ("passTypeIdentifier", VStr "pass.com.example.insecure");
                      ("logoText", VStr "Shop") ]
               "webServiceURL" (VStr "http://example.com")
               [("labelColor", VStr "rgb(0,0,0)")] (@check_url Lab.host) _
               eq_refl insecure_prefix_benign eq_refl Hurl). }
  split; [exact Hstat'|]. split; [exact Hstyle'|]. split; [exact Himgs|].
  destruct (@load_propagates_field_and_image_errors Lab.host "noimages" VUndefined
              empty_heap (mkStats true false)
              (stringify (VObj Lab.keyed_props)) Lab.keyed_props "coupon"
              Hstat' eq_refl) as [_ Himage].
  - reflexivity.
  - vm_compute. reflexivity.
  - exact Hstyle'.
  - exact (Himage _ keyed_entries_benign Himgs).
Defined.

(** X17, on the bundle whose key file exists: the key path is the bundle
    directory and the password the one given. *)
Lemma load_key_configuration_witness :
  @key_found Lab.host "com.example.keyed.pem" = true
  /\ exists h' t,
       @load Lab.host "keyed" (VStr "secret") empty_heap = (Normal 0, h')
       /\ store h' !! 0 = Some (OTemplate t)
       /\ keysPath t = VStr "keyed" /\ password t = VStr "secret".
Proof.
  split; [reflexivity|].
  destruct (@load Lab.host "keyed" (VStr "secret") empty_heap) as [c h'] eqn:Hrun.
  assert (Hc : c = Normal 0)
    by (apply (f_equal fst) in Hrun; vm_compute in Hrun; symmetry; exact Hrun).
  subst c.
  destruct (@load_key_configuration Lab.host _ _ _ _ _ Hrun)
    as (content & passJson & id & t & Hread & Hparse & Hid & Ht & Hk & Hp).
  vm_compute in Hread. injection Hread as <-.
  vm_compute in Hparse. injection Hparse as <-.
  vm_compute in Hid. injection Hid as <-.
  exists h', t. split; [reflexivity|]. split; [exact Ht|].
  split; [exact Hk | exact Hp].
Defined.

(** X18, on the coupon Template. *)
Lemma createPass_without_object_override_witness :
  store heap1 !! 0 = Some (OTemplate coupon)
  /\ createPass 0 [VNull] heap1
     = (Normal (new_Pass 0 (fields coupon) (Some 1)), heap1).
Proof.
  assert (Ht : store heap1 !! 0 = Some (OTemplate coupon)) by reflexivity.
  split; [exact Ht|].
  destruct (@createPass_without_object_override host heap1 0 coupon VNull Ht
              (or_introl eq_refl)) as (_ & _ & _ & Hrun).
  exact (Hrun heap1_reachable).
Defined.

(** X19, on the bundle whose key file exists. *)
Lemma loaded_template_shape_witness :
  exists h' t,
    @load Lab.host "keyed" VUndefined empty_heap = (Normal 0, h')
    /\ next h' = 2
    /\ store h' !! 0 = Some (OTemplate t)
    /\ images t = Some 1
    /\ store h' !! 1 = Some (OImages [("icon", "keyed/icon.png")]).
Proof.
  destruct (@load Lab.host "keyed" VUndefined empty_heap) as [c h'] eqn:Hrun.
  assert (Hc : c = Normal 0)
    by (apply (f_equal fst) in Hrun; vm_compute in Hrun; symmetry; exact Hrun).
  subst c.
  destruct (@loaded_template_shape Lab.host _ _ _ _ _ Hrun)
    as (_ & Hn & t & imgs & Ht & _ & Hi & Himgs & Hst & _).
  vm_compute in Himgs. injection Himgs as <-.
  exists h', t. split; [reflexivity|]. split; [exact Hn|]. split; [exact Ht|].
  split; [exact Hi | exact Hst].
Defined.

(** Further examples. *)

Example load_of_a_file :
  @load Lab.host "notes.txt" VUndefined empty_heap
  = (Throw (Error "Path notes.txt must be a directory!"), empty_heap).
Proof. vm_compute. reflexivity. Qed.

Example load_without_images :
  (@load Lab.host "noimages" VUndefined empty_heap).1 = Throw (HostError "EACCES").
Proof. vm_compute. reflexivity. Qed.

Example color_in_an_array :
  validateColorValue (VArr [VStr "rgb(1,2,3)"]) = Normal tt.
Proof. vm_compute. reflexivity. Qed.

Example key_name_twice_prefixed :
  key_name (VStr "pass.pass.com.example") = Normal "pass.com.example.pem".
Proof. vm_compute. reflexivity. Qed.

End Trials.
